(** * HealthMate back end: upload flow, AI-response parsing, vitals and
      rate limiting, as a shallow embedding of the Express/Mongoose code.

    Sources embedded here (paths under [src/]):
    - [backend/middleware/auth.js], first part: [sensitiveOperationLimit],
      [authenticateToken], [optionalAuth], [verifyRefreshToken]
    - [backend/middleware/auth.js], second part (the AiInsight model): the
      pre-save hook of the insight schema
    - [backend/models/Vitals.js]: schema validators, [formattedValue], the
      BMI pre-save hook, the [age] virtual, [getTrend], [getLatestVitals]
    - [unnamed/part_006] (the File model): required fields of the schema
    - [unnamed/part_004] (the Gemini service): [parseGeminiResponse],
      [createFallbackResponse], [analyzeMedicalReportFromUrl], [getMimeType],
      [getReportTypeSpecificInstructions]
    - [backend/routes/file.js]: upload, delete and download handlers
    - [unnamed/part_005], first part (the vitals routes): the create, update
      and trends handlers
    - [unnamed/part_003] (the server): the error-handling middleware

    Conventions.  A JavaScript value is a [JSVal]; a finite number is held
    as the rational it denotes, and the arithmetic of the BMI hook rounds
    every result to the nearest double, as the code does.  Time stamps are
    integers (milliseconds).  A collection of the document store is the list of its
    documents in insertion order.  Everything the handlers obtain from the
    outside (object storage, the generative model, [JSON.parse], schema
    casting of free-form model output) is a field of an environment record,
    so that every theorem holds for all behaviours of these collaborators;
    the built-in [parseInt] of the download handler is a parameter of that
    handler in the same way. *)

From Stdlib Require Import ZArith QArith Qround String Ascii List Sorted Lia Bool.
From stdpp Require Import base option list sorting strings gmap.

Local Open Scope string_scope.
Local Open Scope list_scope.
Local Open Scope Z_scope.

(* ===================================================================== *)
(** ** JavaScript values *)
(* ===================================================================== *)

Module JS.

#[warnings="-register-all"]
Inductive JSVal : Type :=
| JUndefined
| JNull
| JBool (b : bool)
| JNum (q : Q)
| JStr (s : string)
| JArr (items : list JSVal)
| JObj (fields : list (string * JSVal)).

(** ToBoolean. *)
Definition truthy (v : JSVal) : bool :=
  match v with
  | JUndefined | JNull => false
  | JBool b => b
  | JNum q => negb (Qeq_bool q 0)
  | JStr s => negb (String.eqb s EmptyString)
  | JArr _ | JObj _ => true
  end.

(** [a || b]. *)
Definition or_else (a b : JSVal) : JSVal := if truthy a then a else b.

Fixpoint assoc (k : string) (fs : list (string * JSVal)) : JSVal :=
  match fs with
  | [] => JUndefined
  | (k', v) :: rest => if String.eqb k k' then v else assoc k rest
  end.

(** [v.k] for a value [v] that is not [undefined] or [null]; on a
    primitive the property is absent. *)
Definition get (v : JSVal) (k : string) : JSVal :=
  match v with
  | JObj fs => assoc k fs
  | _ => JUndefined
  end.

Fixpoint remove_key (k : string) (fs : list (string * JSVal))
  : list (string * JSVal) :=
  match fs with
  | [] => []
  | (k', v) :: rest =>
      if String.eqb k k' then remove_key k rest else (k', v) :: remove_key k rest
  end.

(** [{...o, k: v}] on the field list: an existing key keeps its position
    and takes the new value, a new key is appended. *)
Fixpoint put (k : string) (v : JSVal) (fs : list (string * JSVal))
  : list (string * JSVal) :=
  match fs with
  | [] => [(k, v)]
  | (k', v') :: rest =>
      if String.eqb k k' then (k, v) :: remove_key k rest
      else (k', v') :: put k v rest
  end.

(** The own enumerable properties copied by a spread [{...v}]. Strings and
    arrays spread their indices; the analysis adapter only spreads the
    result of [parseGeminiResponse], which is an object. *)
Definition spread (v : JSVal) : list (string * JSVal) :=
  match v with
  | JObj fs => fs
  | _ => []
  end.

(** [o.k = v] where [o] is a nested path of a document (always an
    object). *)
Definition set_field (o : JSVal) (k : string) (v : JSVal) : JSVal :=
  JObj (put k v (spread o)).

End JS.
Export JS.

(* ===================================================================== *)
(** ** middleware/auth.js: the per-identity attempt limiter *)
(* ===================================================================== *)

Module Auth.

Inductive Outcome : Type :=
| Next                                         (* next() *)
| Reject (status : Z) (retryAfter : option Z). (* res.status(..).json(..) *)

(** [Math.ceil(x / d)] on integers, for a positive [d]. *)
Definition ceil_div (x d : Z) : Z := - ((- x) / d).

(** [Math.ceil((userAttempts[0] + windowMs - now) / 1000)]; [None] is the
    NaN obtained from [userAttempts[0]] on an empty array. *)
Definition retryAfter_hint (userAttempts : list Z) (windowMs now : Z)
  : option Z :=
  match userAttempts with
  | [] => None
  | oldest :: _ => Some (ceil_div (oldest + windowMs - now) 1000)
  end.

(** One call of the middleware returned by
    [sensitiveOperationLimit(maxAttempts, windowMs)].  [attempts] is the
    closure's [Map]; [key] is the user id or the IP; [now] is
    [Date.now()]. *)
Definition sensitiveOperationLimit (maxAttempts windowMs : Z)
    (attempts : gmap string (list Z)) (key : string) (now : Z)
  : gmap string (list Z) * Outcome :=
  let windowStart := now - windowMs in
  (* Clean old attempts *)
  let attempts1 :=
    match attempts !! key with
    | Some times => <[key := filter (λ time, windowStart < time) times]> attempts
    | None => <[key := []]> attempts
    end in
  let userAttempts := default [] (attempts1 !! key) in
  if bool_decide (maxAttempts ≤ Z.of_nat (length userAttempts)) then
    (attempts1, Reject 429 (retryAfter_hint userAttempts windowMs now))
  else
    (* userAttempts.push(now) mutates the array held by the map *)
    (<[key := userAttempts ++ [now]]> attempts1, Next).

(** The middleware serving a sequence of requests, each given by its key
    and its clock reading; the log pairs every request with its outcome. *)
Fixpoint serve (maxAttempts windowMs : Z) (attempts : gmap string (list Z))
    (reqs : list (string * Z)) : list (string * Z * Outcome) :=
  match reqs with
  | [] => []
  | (key, now) :: rest =>
      let '(attempts', o) :=
        sensitiveOperationLimit maxAttempts windowMs attempts key now in
      (key, now, o) :: serve maxAttempts windowMs attempts' rest
  end.

Definition is_next (o : Outcome) : bool :=
  match o with Next => true | Reject _ _ => false end.

(** Clock readings of the requests of [key] that were let through. *)
Fixpoint admitted (key : string) (log : list (string * Z * Outcome)) : list Z :=
  match log with
  | [] => []
  | (k, now, o) :: rest =>
      if String.eqb k key && is_next o then now :: admitted key rest
      else admitted key rest
  end.

(** Attempts of a history that a request at [now] still counts. *)
Definition counted (windowMs now : Z) (history : list Z) : list Z :=
  filter (λ time, now - windowMs < time) history.

(** The middleware's answer as a function of the attempts let through so
    far, for comparison with the pruned arrays the closure keeps. *)
Definition decision (maxAttempts windowMs now : Z) (history : list Z)
  : Outcome :=
  let still := counted windowMs now history in
  if bool_decide (maxAttempts ≤ Z.of_nat (length still)) then
    Reject 429 (retryAfter_hint still windowMs now)
  else Next.

(** Every request of [key] in the log was answered by [decision] on the
    attempts of [key] let through before it. *)
Fixpoint follows_history (maxAttempts windowMs : Z) (key : string)
    (history : list Z) (log : list (string * Z * Outcome)) : Prop :=
  match log with
  | [] => True
  | (k, now, o) :: rest =>
      if String.eqb k key then
        o = decision maxAttempts windowMs now history
        ∧ follows_history maxAttempts windowMs key
            (if is_next o then history ++ [now] else history) rest
      else follows_history maxAttempts windowMs key history rest
  end.

(** The array kept for [key] agrees with the full history on every
    window that a request at or after [lo + windowMs] can ask for. *)
Definition tracks (key : string) (lo : Z) (attempts : gmap string (list Z))
    (history : list Z) : Prop :=
  ∀ c, lo ≤ c →
    filter (λ time, c < time) (default [] (attempts !! key))
    = filter (λ time, c < time) history.

(** Members of a history inside the half-open window [(a, a + windowMs]]. *)
Definition in_window (windowMs a : Z) (history : list Z) : list Z :=
  filter (λ time, a < time ≤ a + windowMs) history.

End Auth.

(* ===================================================================== *)
(** ** services/geminiService.js: parsing the model's answer *)
(* ===================================================================== *)

Module GeminiService.

Definition open_brace : ascii := "{"%char.
Definition close_brace : ascii := "}"%char.

(** Longest prefix of [s] that ends with a closing brace: what the greedy
    [[\s\S]*\}] consumes, after backtracking to the last closing brace. *)
Fixpoint greedy_to_close (s : string) : option string :=
  match s with
  | EmptyString => None
  | String c rest =>
      match greedy_to_close rest with
      | Some m => Some (String c m)
      | None => if Ascii.eqb c close_brace then Some (String c EmptyString) else None
      end
  end.

(** [text.match(/\{[\s\S]*\}/)]: the leftmost start position at which the
    pattern matches, and the longest match from there.  [None] is the
    [null] of a failed match, [Some m] is [jsonMatch[0]]. *)
Fixpoint match_json (text : string) : option string :=
  match text with
  | EmptyString => None
  | String c rest =>
      if Ascii.eqb c open_brace then
        match greedy_to_close rest with
        | Some m => Some (String c m)
        | None => match_json rest
        end
      else match_json rest
  end.

(** The character occurs in the string. *)
Fixpoint occurs (c : ascii) (s : string) : bool :=
  match s with
  | EmptyString => false
  | String c' rest => Ascii.eqb c' c || occurs c rest
  end.

Definition bilingual (english urdu : string) : JSVal :=
  JObj [("english", JStr english); ("urdu", JStr urdu)].

Definition aiDisclaimer_default : JSVal :=
  bilingual
    "This analysis is generated by AI and is for informational purposes only. Always consult with a qualified healthcare professional for medical advice."
    "Yeh analysis AI ke zariye generate hui hai aur sirf information ke liye hai. Medical advice ke liye hamesha qualified doctor se consult karein.".

Definition medicalDisclaimer_default : JSVal :=
  bilingual
    "This information should not replace professional medical advice, diagnosis, or treatment. Seek immediate medical attention for emergencies."
    "Yeh information professional medical advice, diagnosis ya treatment ka replacement nahi hai. Emergency cases mein immediately doctor se contact karein.".

Definition disclaimers_default : JSVal :=
  JObj [("aiDisclaimer", aiDisclaimer_default);
        ("medicalDisclaimer", medicalDisclaimer_default)].

Definition generic_question : JSVal :=
  JObj [("question",
          bilingual "Can you explain the key findings in my report?"
                    "Kya aap mere report ke main findings explain kar sakte hain?");
        ("category", JStr "general");
        ("priority", JStr "high")].

(** [createFallbackResponse(text)]. *)
Definition createFallbackResponse (text : string) : JSVal :=
  JObj [("summary",
          bilingual (String.append (String.substring 0 500 text) "...")
                    "AI analysis complete. Please consult your doctor for detailed explanation.");
        ("keyFindings", JArr []);
        ("abnormalValues", JArr []);
        ("doctorQuestions", JArr [generic_question]);
        ("recommendations", JObj [("lifestyle", JArr []); ("medical", JArr [])]);
        ("riskFactors", JArr []);
        ("followUpSuggestions", JArr []);
        ("confidence", JNum 70);
        ("disclaimers", disclaimers_default)].

Section Parse.
(** [JSON.parse]; [None] is a thrown [SyntaxError]. *)
Variable JSON_parse : string → option JSVal.

(** [parseGeminiResponse(text)]. *)
Definition parseGeminiResponse (text : string) : JSVal :=
  match match_json text with
  | Some jsonStr =>
      match JSON_parse jsonStr with
      | Some parsed => parsed
      | None => createFallbackResponse text      (* catch (error) *)
      end
  | None => createFallbackResponse text
  end.
End Parse.

(** The claim's wording of the extraction step, for comparison with
    [match_json]: the first substring that opens with a brace and runs to
    the brace that balances it. *)
Fixpoint balanced_from (depth : nat) (s : string) : option string :=
  match s with
  | EmptyString => None
  | String c rest =>
      if Ascii.eqb c open_brace then
        option_map (String c) (balanced_from (S depth) rest)
      else if Ascii.eqb c close_brace then
        match depth with
        | O => Some (String c EmptyString)
        | S d => option_map (String c) (balanced_from d rest)
        end
      else option_map (String c) (balanced_from depth rest)
  end.

Fixpoint first_balanced_object (text : string) : option string :=
  match text with
  | EmptyString => None
  | String c rest =>
      if Ascii.eqb c open_brace then
        match balanced_from 0 rest with
        | Some m => Some (String c m)
        | None => first_balanced_object rest
        end
      else first_balanced_object rest
  end.

End GeminiService.

(* ===================================================================== *)
(** ** models/Vitals.js *)
(* ===================================================================== *)

Module Vitals.

(** The numbers the BMI hook can produce: a finite value, an infinity
    (division of a non-zero weight by a zero height) or NaN (arithmetic on
    a missing height value).  A finite number is a double (IEEE 754
    binary64), held as the rational it denotes; a decimal of a request
    body such as 70.3 is the double nearest to it, [double (703 # 10)].
    Zero is the positive zero. *)
Inductive Number : Type :=
| Fin (q : Q)
| Inf (positive : bool)
| NaN.

Definition Qneg_bool (q : Q) : bool := negb (Qle_bool 0 q).

(** *** Rounding to a double

    [*] and [/] on doubles give the double nearest to the exact result,
    with ties to the even significand, and an infinity beyond the largest
    double. *)

(** [n / d] rounded to the nearest integer, halves to the even one
    ([0 ≤ n], [0 < d]). *)
Definition round_half_even (n d : Z) : Z :=
  let q := n / d in
  match 2 * (n mod d) ?= d with
  | Lt => q
  | Gt => q + 1
  | Eq => if Z.even q then q else q + 1
  end.

(** [n / d] divided by [2 ^ e], as a numerator and a denominator. *)
Definition scaled_num (n e : Z) : Z := n * 2 ^ Z.max 0 (- e).
Definition scaled_den (d e : Z) : Z := d * 2 ^ Z.max 0 e.

(** The exponent [e] of the last place of the double nearest to [n / d]
    ([0 < n], [0 < d]): the one with [2 ^ 52 ≤ n / d / 2 ^ e < 2 ^ 53],
    and [-1074] below the normal numbers. *)
Definition ulp_exponent (n d : Z) : Z :=
  let e0 := Z.log2 n - Z.log2 d - 53 in
  let e1 :=
    if 2 ^ 53 * scaled_den d e0 <=? scaled_num n e0 then e0 + 1 else e0 in
  Z.max e1 (-1074).

(** The double nearest to [n / d] for [0 < n] and [0 < d]; [None] when it
    is beyond the largest double. *)
Definition double_pos (n d : Z) : option Q :=
  let e := ulp_exponent n d in
  let m := round_half_even (scaled_num n e) (scaled_den d e) in
  if 2 ^ 1024 * 2 ^ Z.max 0 (- e) <=? m * 2 ^ Z.max 0 e then None
  else Some (Qred (m * 2 ^ Z.max 0 e # Z.to_pos (2 ^ Z.max 0 (- e)))).

Definition double (q : Q) : Number :=
  match Qnum q with
  | Z0 => Fin 0
  | Zpos n =>
      match double_pos (Zpos n) (Zpos (Qden q)) with
      | Some x => Fin x
      | None => Inf true
      end
  | Zneg n =>
      match double_pos (Zpos n) (Zpos (Qden q)) with
      | Some x => Fin (- x)
      | None => Inf false
      end
  end.

(** [a * b]. *)
Definition nmul (a b : Number) : Number :=
  match a, b with
  | Fin x, Fin y => double (x * y)
  | Fin x, Inf s | Inf s, Fin x =>
      if Qeq_bool x 0 then NaN else Inf (Bool.eqb s (negb (Qneg_bool x)))
  | Inf s, Inf t => Inf (Bool.eqb s t)
  | _, _ => NaN
  end.

(** [a / b]. *)
Definition ndiv (a b : Number) : Number :=
  match a, b with
  | Fin x, Fin y =>
      if Qeq_bool y 0 then
        (if Qeq_bool x 0 then NaN else Inf (negb (Qneg_bool x)))
      else double (x / y)
  | Fin _, Inf _ => Fin 0
  | Inf s, Fin y => Inf (Bool.eqb s (negb (Qneg_bool y)))
  | _, _ => NaN
  end.

(** [Math.round]: the nearest integer, halves towards plus infinity (the
    integer is computed exactly, and is a double when the argument is). *)
Definition round (a : Number) : Number :=
  match a with
  | Fin x => Fin (inject_Z (Qfloor (x + (1 # 2))%Q))
  | other => other
  end.

(** A value used in arithmetic; [undefined] converts to NaN. *)
Definition to_number (o : option Number) : Number :=
  match o with Some n => n | None => NaN end.

(** Truthiness of an optional number ([undefined], NaN and zero are
    falsy). *)
Definition truthy_number (o : option Number) : bool :=
  match o with
  | Some (Fin q) => negb (Qeq_bool q 0)
  | Some (Inf _) => true
  | Some NaN | None => false
  end.

(** A document of the collection.  The paths that no handler in scope
    sets and that carry a default or no validator (device, location,
    conditions, status, tags, reminders, timestamps) are left out. *)
Record Doc : Type := {
  v_user : option string;
  v_type : option string;
  v_numeric : option Number;
  v_text : option string;
  v_systolic : option Number;
  v_diastolic : option Number;
  v_unit : option string;
  v_recordedAt : option Z;
  v_notes : option string;
  v_source : string;
  v_isActive : bool
}.

Definition type_enum : list string :=
  ["blood_pressure"; "heart_rate"; "temperature"; "weight"; "height";
   "blood_sugar"; "oxygen_saturation"; "respiratory_rate"; "bmi";
   "waist_circumference"; "body_fat_percentage"; "sleep_hours"; "steps";
   "calories_burned"; "water_intake"; "mood"; "energy_level";
   "pain_level"; "stress_level"; "other"].

Definition unit_enum : list string :=
  ["mmHg"; "bpm"; "°C"; "°F"; "kg"; "lbs"; "cm"; "ft"; "in";
   "mg/dL"; "mmol/L"; "%"; "hours"; "steps"; "calories";
   "liters"; "ml"; "cups"; "scale_1_10"; "scale_1_5"; "text"].

Definition source_enum : list string :=
  ["manual"; "device"; "imported"; "calculated"].

Definition mem (s : string) (l : list string) : bool :=
  existsb (String.eqb s) l.

Definition type_is (d : Doc) (t : string) : bool :=
  match v_type d with Some t' => String.eqb t' t | None => false end.

(** [required] of [value.text]. *)
Definition text_required (d : Doc) : bool :=
  type_is d "mood" || type_is d "energy_level"
  || type_is d "pain_level" || type_is d "stress_level".

(** [required] of [value.numeric]: the type is none of the four scales
    (which holds for a missing type as well). *)
Definition numeric_required (d : Doc) : bool := negb (text_required d).

(** [required] of [value.systolic] and [value.diastolic]. *)
Definition pressure_required (d : Doc) : bool := type_is d "blood_pressure".

(** The required validator of a String path: present and not empty. *)
Definition present_string (o : option string) : bool :=
  match o with
  | Some s => negb (String.eqb s EmptyString)
  | None => false
  end.

Definition present {A} (o : option A) : bool :=
  match o with Some _ => true | None => false end.

Definition enum_ok (o : option string) (allowed : list string) : bool :=
  match o with Some s => mem s allowed | None => true end.

(** Schema validation, run by [save()] before the pre-save hooks. *)
Definition validate (d : Doc) : bool :=
  present (v_user d)
  && present_string (v_type d) && enum_ok (v_type d) type_enum
  && implb (numeric_required d) (present (v_numeric d))
  && implb (text_required d) (present_string (v_text d))
  && implb (pressure_required d)
       (present (v_systolic d) && present (v_diastolic d))
  && present_string (v_unit d) && enum_ok (v_unit d) unit_enum
  && present (v_recordedAt d)
  && match v_notes d with
     | Some n => Nat.leb (String.length n) 500
     | None => true
     end
  && mem (v_source d) source_enum.

Section Virtuals.
(** Number-to-string conversion of a template literal. *)
Variable Number_toString : Number → string.

Definition show (o : option Number) : string :=
  match o with
  | Some n => Number_toString n
  | None => "undefined"
  end.

(** The [formattedValue] virtual. *)
Definition formattedValue (d : Doc) : string :=
  if type_is d "blood_pressure" then
    String.append (show (v_systolic d))
      (String.append "/"
         (String.append (show (v_diastolic d))
            (String.append " " (default "undefined" (v_unit d)))))
  else
    match v_numeric d with
    | Some n =>
        String.append (Number_toString n)
          (String.append " " (default "undefined" (v_unit d)))
    | None =>
        if present_string (v_text d) then default EmptyString (v_text d)
        else "N/A"
    end.
End Virtuals.

Definition day_ms : Z := 24 * 60 * 60 * 1000.

Definition same_user (u : option string) (d : Doc) : bool :=
  match u, v_user d with
  | Some a, Some b => String.eqb a b
  | _, _ => false
  end.

(** Filter [{user, type: 'height', isActive: true}]. *)
Definition is_active_height (u : option string) (d : Doc) : bool :=
  same_user u d && type_is d "height" && v_isActive d.

Definition later (a b : Doc) : bool :=
  match v_recordedAt a, v_recordedAt b with
  | Some x, Some y => Z.ltb y x
  | Some _, None => true
  | None, _ => false
  end.

(** [findOne(filter).sort({recordedAt: -1})]: the matching document with
    the greatest [recordedAt], the earliest inserted among equals. *)
Fixpoint latest (p : Doc → bool) (coll : list Doc) (best : option Doc)
  : option Doc :=
  match coll with
  | [] => best
  | d :: rest =>
      if p d then
        match best with
        | Some b => latest p rest (Some (if later d b then d else b))
        | None => latest p rest (Some d)
        end
      else latest p rest best
  end.

(** Filter [{user, type: 'bmi', recordedAt: {$gte: t - 24h, $lte: t + 24h}}]. *)
Definition bmi_in_window (u : option string) (t : Z) (d : Doc) : bool :=
  same_user u d && type_is d "bmi"
  && match v_recordedAt d with
     | Some r => Z.leb (t - day_ms) r && Z.leb r (t + day_ms)
     | None => false
     end.

(** [weight / (h/100 * h/100)], then [Math.round(bmi * 10) / 10]. *)
Definition bmi_value (weight : Number) (height : option Number) : Number :=
  let heightInMeters := ndiv (to_number height) (Fin 100) in
  let bmi := ndiv weight (nmul heightInMeters heightInMeters) in
  ndiv (round (nmul bmi (Fin 10))) (Fin 10).

(** The update document of the upsert applied to a stored document: the
    listed paths are overwritten ([value] as a whole), the others stay. *)
Definition apply_bmi_update (u : option string) (t : option Z) (v : Number)
    (d : Doc) : Doc :=
  {| v_user := u;
     v_type := Some "bmi";
     v_numeric := Some v;
     v_text := None;
     v_systolic := None;
     v_diastolic := None;
     v_unit := Some "kg/m²";
     v_recordedAt := t;
     v_notes := Some "Auto-calculated from weight and height";
     v_source := "calculated";
     v_isActive := v_isActive d |}.

(** The document inserted when the upsert matches nothing. *)
Definition fresh_bmi (u : option string) (t : option Z) (v : Number) : Doc :=
  {| v_user := u;
     v_type := Some "bmi";
     v_numeric := Some v;
     v_text := None;
     v_systolic := None;
     v_diastolic := None;
     v_unit := Some "kg/m²";
     v_recordedAt := t;
     v_notes := Some "Auto-calculated from weight and height";
     v_source := "calculated";
     v_isActive := true |}.

(** Update of the first document that satisfies [p]; [None] when no
    document does. *)
Fixpoint update_first (p : Doc → bool) (f : Doc → Doc) (coll : list Doc)
  : option (list Doc) :=
  match coll with
  | [] => None
  | d :: rest =>
      if p d then Some (f d :: rest)
      else option_map (cons d) (update_first p f rest)
  end.

(** [findOneAndUpdate(filter, update, {upsert: true, new: true})]; no
    validator runs on this path. *)
Definition findOneAndUpdate_bmi (u : option string) (t : Z) (v : Number)
    (coll : list Doc) : list Doc :=
  match update_first (bmi_in_window u t) (apply_bmi_update u (Some t) v) coll with
  | Some coll' => coll'
  | None => coll ++ [fresh_bmi u (Some t) v]
  end.

(** The pre-save hook. *)
Definition pre_save (this : Doc) (coll : list Doc) : list Doc :=
  if type_is this "weight" then
    match latest (is_active_height (v_user this)) coll None,
          v_recordedAt this with
    | Some heightVital, Some t =>
        if truthy_number (v_numeric this) then
          findOneAndUpdate_bmi (v_user this) t
            (bmi_value (to_number (v_numeric this)) (v_numeric heightVital))
            coll
        else coll
    | _, _ => coll
    end
  else coll.

(** [doc.save()] of a new document: validation, the hook, the insert.
    [None] is a rejected save (nothing is written). *)
Definition save (this : Doc) (coll : list Doc) : option (list Doc) :=
  if validate this then Some (pre_save this coll ++ [this]) else None.

(** Number of BMI readings of a user within 24 hours of [t]. *)
Definition bmi_count (u : option string) (t : Z) (coll : list Doc) : nat :=
  length (List.filter (bmi_in_window u t) coll).

Definition is_bmi_of (u : option string) (d : Doc) : bool :=
  same_user u d && type_is d "bmi".

End Vitals.

(* ===================================================================== *)
(** ** models/File.js and models/AiInsight.js *)
(* ===================================================================== *)

Module File.

Inductive Status : Type := uploaded | analyzing | analyzed | failed.

(** An entry of [files]. *)
Record StoredFile : Type := {
  originalName : string;
  cloudinaryId : string;
  url : string;
  format : string;
  f_size : Z;
  mimeType : string
}.

(** A document of the collection ([uploadedAt], [analyzedAt] and the
    timestamps are left out).  [reportDate] is [None] for an invalid
    date.  [aiAnalysis] holds the analyses as they were assigned; whether
    the schema casts and accepts them is decided by the environment. *)
Record Doc : Type := {
  _id : nat;
  user : string;
  reportType : string;
  reportDate : option Z;
  doctorName : string;
  hospitalName : string;
  notes : string;
  files : list StoredFile;
  aiAnalysis : list JSVal;
  status : Status
}.

Definition reportType_enum : list string :=
  ["Blood Test"; "X-Ray"; "MRI Scan"; "CT Scan"; "Ultrasound"; "ECG";
   "Prescription"; "Doctor Consultation"; "Other"].

Definition nonempty (s : string) : bool := negb (String.eqb s EmptyString).

(** The required validators of an entry of [files]. *)
Definition stored_file_ok (f : StoredFile) : bool :=
  nonempty (originalName f) && nonempty (cloudinaryId f) && nonempty (url f)
  && nonempty (format f) && nonempty (mimeType f).

(** The validators of the declared scalar paths and of [files]; the
    casting of [aiAnalysis] entries is a collaborator (see [Env]). *)
Definition validate (d : Doc) : bool :=
  nonempty (user d)
  && existsb (String.eqb (reportType d)) reportType_enum
  && match reportDate d with Some _ => true | None => false end
  && forallb stored_file_ok (files d).

Definition set_analysis (d : Doc) (analyses : list JSVal) : Doc :=
  {| _id := _id d; user := user d; reportType := reportType d;
     reportDate := reportDate d; doctorName := doctorName d;
     hospitalName := hospitalName d; notes := notes d; files := files d;
     aiAnalysis := analyses; status := analyzed |}.

End File.

Module AiInsight.

(** The argument of [new Insight({...})] in the upload route; free-form
    model output stays a [JSVal] until the schema casts it on save. *)
Record Doc : Type := {
  user : string;
  file : nat;
  type : string;
  title : string;
  summary : JSVal;
  keyFindings : JSVal;
  abnormalValues : JSVal;
  doctorQuestions : JSVal;
  recommendations : JSVal;
  riskFactors : JSVal;
  followUpSuggestions : JSVal;
  confidence : JSVal;
  language : string;
  model : string;
  processingTime : JSVal;
  disclaimers : JSVal
}.

Definition set_disclaimers (d : Doc) (v : JSVal) : Doc :=
  {| user := user d; file := file d; type := type d; title := title d;
     summary := summary d; keyFindings := keyFindings d;
     abnormalValues := abnormalValues d;
     doctorQuestions := doctorQuestions d;
     recommendations := recommendations d; riskFactors := riskFactors d;
     followUpSuggestions := followUpSuggestions d;
     confidence := confidence d; language := language d; model := model d;
     processingTime := processingTime d; disclaimers := v |}.

Section Hook.
(** Truthiness of [this.disclaimers.aiDisclaimer] (or [.medicalDisclaimer])
    as the document returns it, given the stored value of the block.  A
    block that is set reads as its value; what a block that is not set
    reads as is up to the getter the ODM installs for a nested path (the
    plain value would be [undefined], an ODM may return an object), so the
    reading is a parameter. *)
Variable nested_truthy : JSVal → bool.

(** The pre-save hook. *)
Definition pre_save (this : Doc) : Doc :=
  let this1 :=
    if negb (nested_truthy (get (disclaimers this) "aiDisclaimer")) then
      set_disclaimers this
        (set_field (disclaimers this) "aiDisclaimer"
           GeminiService.aiDisclaimer_default)
    else this in
  if negb (nested_truthy (get (disclaimers this1) "medicalDisclaimer")) then
    set_disclaimers this1
      (set_field (disclaimers this1) "medicalDisclaimer"
         GeminiService.medicalDisclaimer_default)
  else this1.
End Hook.

(** A disclaimer block carries some text. *)
Definition block_nonempty (block : JSVal) : bool :=
  truthy (get block "english") || truthy (get block "urdu").

End AiInsight.

(* ===================================================================== *)
(** ** The collaborators and the document store *)
(* ===================================================================== *)

(** A file part of the multipart request, as multer presents it. *)
Record IncomingFile : Type := {
  originalname : string;
  mimetype : string;
  size_bytes : Z
}.

(** What [uploadToCloudinary] resolves to. *)
Record CloudResult : Type := {
  publicId : string;
  secure_url : string;
  cloud_format : string
}.

Inductive DbOp : Type :=
| FindFile | SaveFile | SaveInsight | DeleteFile | DeleteInsights.

Record Env : Type := {
  (** the body of the per-file [try] up to the upload's result, by position
      in [req.files]; [None] when it throws *)
  uploadToCloudinary : nat → IncomingFile → option CloudResult;
  (** [false] when the deletion throws *)
  deleteFromCloudinary : string → bool;
  (** download of the stored file and the model call, by URL, MIME type
      and report type: the answer text and the elapsed milliseconds;
      [None] when either throws *)
  generateContent : string → string → string → option (string * Z);
  (** [JSON.parse]; [None] when it throws *)
  JSON_parse : string → option JSVal;
  (** [new Date(s)]; [None] for an invalid date *)
  Date_parse : string → option Z;
  (** whether the file schema casts and accepts the analysis snapshots *)
  snapshots_ok : list JSVal → bool;
  (** whether the insight schema casts and accepts the document *)
  insight_ok : AiInsight.Doc → bool;
  (** how the insight document reads one of its disclaimer blocks in a
      condition (see [AiInsight.pre_save]) *)
  nested_truthy : JSVal → bool;
  (** whether the store carries out the operation *)
  store_ok : DbOp → bool
}.

(** The same environment with other analysis collaborators (the model,
    [JSON.parse], the casting of its output). *)
Definition with_analysis (env : Env)
    (generate : string → string → string → option (string * Z))
    (parse : string → option JSVal)
    (snapshots : list JSVal → bool)
    (insights : AiInsight.Doc → bool) : Env :=
  {| uploadToCloudinary := uploadToCloudinary env;
     deleteFromCloudinary := deleteFromCloudinary env;
     generateContent := generate;
     JSON_parse := parse;
     Date_parse := Date_parse env;
     snapshots_ok := snapshots;
     insight_ok := insights;
     nested_truthy := nested_truthy env;
     store_ok := store_ok env |}.

(** The same environment with another behaviour of the storage deletion. *)
Definition with_storage_delete (env : Env) (delete : string → bool) : Env :=
  {| uploadToCloudinary := uploadToCloudinary env;
     deleteFromCloudinary := delete;
     generateContent := generateContent env;
     JSON_parse := JSON_parse env;
     Date_parse := Date_parse env;
     snapshots_ok := snapshots_ok env;
     insight_ok := insight_ok env;
     nested_truthy := nested_truthy env;
     store_ok := store_ok env |}.

Record DB : Type := {
  db_files : list File.Doc;
  db_insights : list AiInsight.Doc;
  db_next_id : nat
}.

Definition find_file (db : DB) (id : nat) (user : string) : option File.Doc :=
  List.find (λ f, Nat.eqb (File._id f) id && String.eqb (File.user f) user)
    (db_files db).

Definition insights_of (db : DB) (id : nat) : list AiInsight.Doc :=
  List.filter (λ i, Nat.eqb (AiInsight.file i) id) (db_insights db).

Definition file_by_id (db : DB) (id : nat) : option File.Doc :=
  List.find (λ f, Nat.eqb (File._id f) id) (db_files db).

(** A JSON reply: [res.status(status).json({success, message, data})]
    (the [error] detail of a 500 reply is left out). *)
Record Response (D : Type) : Type := {
  status : Z;
  success : bool;
  message : string;
  data : option D
}.
Arguments status {D} _.
Arguments success {D} _.
Arguments message {D} _.
Arguments data {D} _.

Definition reply {D} (code : Z) (ok : bool) (msg : string) (d : option D)
  : Response D :=
  {| status := code; success := ok; message := msg; data := d |}.

(* ===================================================================== *)
(** ** services/geminiService.js: the analysis call *)
(* ===================================================================== *)

Module GeminiAdapter.

(** [analyzeMedicalReportFromUrl(fileUrl, fileType, reportType)]; [None]
    is a rejected promise. *)
Definition analyzeMedicalReportFromUrl (env : Env)
    (fileUrl fileType reportType : string) : option JSVal :=
  match generateContent env fileUrl fileType reportType with
  | Some (text, elapsed) =>
      let analysis :=
        GeminiService.parseGeminiResponse (JSON_parse env) text in
      Some (JObj (put "reportType" (JStr reportType)
                   (put "fileUrl" (JStr fileUrl)
                     (put "processingTime" (JNum (inject_Z elapsed))
                       (spread analysis)))))
  | None => None
  end.

End GeminiAdapter.

(* ===================================================================== *)
(** ** routes/file.js *)
(* ===================================================================== *)

Module FileRoutes.

Definition startsWith (pre s : string) : bool := String.prefix pre s.

(** The test made by [fileFilter] and again before queueing the analysis. *)
Definition image_or_pdf (mime : string) : bool :=
  startsWith "image/" mime || String.eqb mime "application/pdf".

(** [limits.fileSize]. *)
Definition fileSize_limit : Z := 10 * 1024 * 1024.

(** [fileFilter]: [None] is [cb(null, true)], [Some msg] is
    [cb(new Error(msg), false)]. *)
Definition fileFilter (file : IncomingFile) : option string :=
  if image_or_pdf (mimetype file) then None
  else Some "Only images and PDF files are allowed".

Inductive MulterOutcome : Type :=
| Accepted (files : list IncomingFile)   (* req.files; the handler runs *)
| Aborted (error : string).              (* next(err); the handler is skipped *)

(** [upload.array('files', maxCount)] over the file parts in order of
    arrival.  The middleware counts the part against [maxCount], calls
    [fileFilter], and reads the part up to [limits.fileSize]; an error
    from any of the three aborts the request. *)
Fixpoint multer_array (filesLeft : nat) (parts : list IncomingFile)
    {struct parts} : MulterOutcome :=
  match parts with
  | [] => Accepted []
  | file :: rest =>
      match filesLeft with
      | O => Aborted "LIMIT_UNEXPECTED_FILE"
      | S remaining =>
          match fileFilter file with
          | Some err => Aborted err
          | None =>
              if Z.ltb fileSize_limit (size_bytes file) then
                Aborted "LIMIT_FILE_SIZE"
              else
                match multer_array remaining rest with
                | Accepted files => Accepted (file :: files)
                | Aborted e => Aborted e
                end
          end
      end
  end.

Record UploadRequest : Type := {
  req_user : string;                (* req.user.id *)
  parts : list IncomingFile;        (* the file parts of the request *)
  body_reportType : option string;
  body_reportDate : option string;
  body_doctorName : option string;
  body_hospitalName : option string;
  body_notes : option string
}.

(** Truthiness of an optional text field. *)
Definition given (o : option string) : bool :=
  match o with
  | Some s => negb (String.eqb s EmptyString)
  | None => false
  end.

(** [field || ''] (and the value of a field known to be truthy). *)
Definition text_of (o : option string) : string := default EmptyString o.

Definition is_null (v : JSVal) : bool :=
  match v with JNull => true | _ => false end.

(** The promise pushed on [fileAnalysisPromises], settled: the analysis,
    or [null] from the [catch]. *)
Definition queued_analysis (env : Env) (url mime reportType : string)
  : JSVal :=
  match GeminiAdapter.analyzeMedicalReportFromUrl env url mime reportType with
  | Some analysis => analysis
  | None => JNull
  end.

(** The loop over [req.files]: the entries pushed on [uploadedFiles] and
    the promises pushed on [fileAnalysisPromises]. *)
Fixpoint process_files (env : Env) (reportType : string) (position : nat)
    (files : list IncomingFile) : list File.StoredFile * list JSVal :=
  match files with
  | [] => ([], [])
  | file :: rest =>
      let '(stored, promises) :=
        process_files env reportType (S position) rest in
      match uploadToCloudinary env position file with
      | Some uploadResult =>
          let entry :=
            {| File.originalName := originalname file;
               File.cloudinaryId := publicId uploadResult;
               File.url := secure_url uploadResult;
               File.format := cloud_format uploadResult;
               File.f_size := size_bytes file;
               File.mimeType := mimetype file |} in
          if image_or_pdf (mimetype file) then
            (entry :: stored,
             queued_analysis env (secure_url uploadResult) (mimetype file)
               reportType :: promises)
          else (entry :: stored, promises)
      | None => (stored, promises)   (* catch: continue with other files *)
      end
  end.

(** The files of [req.files] whose storage upload succeeds. *)
Fixpoint storable (env : Env) (position : nat) (files : list IncomingFile)
  : list IncomingFile :=
  match files with
  | [] => []
  | file :: rest =>
      match uploadToCloudinary env position file with
      | Some _ => file :: storable env (S position) rest
      | None => storable env (S position) rest
      end
  end.

(** A file part within the policy of the middleware. *)
Definition within_policy (file : IncomingFile) : bool :=
  image_or_pdf (mimetype file) && Z.leb (size_bytes file) fileSize_limit.

Definition new_file_record (env : Env) (db : DB) (req : UploadRequest)
    (uploadedFiles : list File.StoredFile) : File.Doc :=
  {| File._id := db_next_id db;
     File.user := req_user req;
     File.reportType := text_of (body_reportType req);
     File.reportDate := Date_parse env (text_of (body_reportDate req));
     File.doctorName := text_of (body_doctorName req);
     File.hospitalName := text_of (body_hospitalName req);
     File.notes := text_of (body_notes req);
     File.files := uploadedFiles;
     File.aiAnalysis := [];
     File.status := File.uploaded |}.

(** What the handler leaves behind: the reply, the store, and the
    continuation registered on [Promise.all] (the record it closes over
    and the settled promises), if any. *)
Record UploadOutcome : Type := {
  response : Response (File.Doc * nat);
  store : DB;
  scheduled : option (File.Doc * list JSVal)
}.

(** The handler of [POST /upload], given [req.files]. *)
Definition upload_handler (env : Env) (db : DB) (req : UploadRequest)
    (files : list IncomingFile) : UploadOutcome :=
  match files with
  | [] =>
      {| response := reply 400 false "No files uploaded" None;
         store := db; scheduled := None |}
  | _ :: _ =>
      if negb (given (body_reportType req)) || negb (given (body_reportDate req))
      then
        {| response := reply 400 false "Report type and date are required" None;
           store := db; scheduled := None |}
      else
        let '(uploadedFiles, fileAnalysisPromises) :=
          process_files env (text_of (body_reportType req)) 0 files in
        let fileRecord := new_file_record env db req uploadedFiles in
        if File.validate fileRecord && store_ok env SaveFile then
          let db' :=
            {| db_files := db_files db ++ [fileRecord];
               db_insights := db_insights db;
               db_next_id := S (db_next_id db) |} in
          {| response :=
               reply 200 true "Files uploaded successfully"
                 (Some (fileRecord, length uploadedFiles));
             store := db';
             scheduled :=
               match fileAnalysisPromises with
               | [] => None
               | _ :: _ => Some (fileRecord, fileAnalysisPromises)
               end |}
        else
          {| response := reply 500 false "Upload failed" None;
             store := db; scheduled := None |}
  end.

(** The route: multer first, then the handler, or the application's
    error middleware when multer aborts. *)
Definition upload_route (env : Env) (db : DB) (req : UploadRequest)
  : UploadOutcome :=
  match multer_array 5 (parts req) with
  | Accepted files => upload_handler env db req files
  | Aborted _ =>
      {| response := reply 500 false "Something went wrong!" None;
         store := db; scheduled := None |}
  end.

(** [new Insight({...})] for one analysis. *)
Definition new_insight (user : string) (fileId : nat) (reportType : string)
    (analysis : JSVal) : AiInsight.Doc :=
  {| AiInsight.user := user;
     AiInsight.file := fileId;
     AiInsight.type := "report_analysis";
     AiInsight.title := String.append "Analysis: " reportType;
     AiInsight.summary := get analysis "summary";
     AiInsight.keyFindings := or_else (get analysis "keyFindings") (JArr []);
     AiInsight.abnormalValues := or_else (get analysis "abnormalValues") (JArr []);
     AiInsight.doctorQuestions := or_else (get analysis "doctorQuestions") (JArr []);
     AiInsight.recommendations :=
       or_else (get analysis "recommendations")
         (JObj [("lifestyle", JArr []); ("medical", JArr [])]);
     AiInsight.riskFactors := or_else (get analysis "riskFactors") (JArr []);
     AiInsight.followUpSuggestions :=
       or_else (get analysis "followUpSuggestions") (JArr []);
     AiInsight.confidence := or_else (get analysis "confidence") (JNum 85);
     AiInsight.language := "both";
     AiInsight.model := "gemini-2.5-flash";
     AiInsight.processingTime := or_else (get analysis "processingTime") (JNum 0);
     AiInsight.disclaimers :=
       or_else (get analysis "disclaimers") GeminiService.disclaimers_default |}.

(** [insight.save()]: validation, the pre-save hook, the insert; [None]
    when it throws. *)
Definition save_insight (env : Env) (insight : AiInsight.Doc) (db : DB)
  : option DB :=
  if insight_ok env insight && store_ok env SaveInsight then
    Some {| db_files := db_files db;
            db_insights :=
              db_insights db ++ [AiInsight.pre_save (nested_truthy env) insight];
            db_next_id := db_next_id db |}
  else None.

(** The guard [analysis && analysis.summary]. *)
Definition has_summary (analysis : JSVal) : bool :=
  truthy analysis && truthy (get analysis "summary").

(** The loop over [validAnalyses]; a throwing save leaves the loop (and
    the surrounding [try]). *)
Fixpoint create_insights (env : Env) (user : string) (fileId : nat)
    (reportType : string) (validAnalyses : list JSVal) (db : DB) : DB :=
  match validAnalyses with
  | [] => db
  | analysis :: rest =>
      if has_summary analysis then
        match save_insight env (new_insight user fileId reportType analysis) db with
        | Some db' => create_insights env user fileId reportType rest db'
        | None => db
        end
      else create_insights env user fileId reportType rest db
  end.

Definition replace_file (d : File.Doc) (coll : list File.Doc) : list File.Doc :=
  map (λ f, if Nat.eqb (File._id f) (File._id d) then d else f) coll.

(** [fileRecord.save()] of the updated record; [None] when it throws
    (rejected snapshots, a store failure, or the document is gone). *)
Definition save_analysis (env : Env) (fileRecord : File.Doc) (db : DB)
  : option DB :=
  if snapshots_ok env (File.aiAnalysis fileRecord) && store_ok env SaveFile then
    match file_by_id db (File._id fileRecord) with
    | Some _ =>
        Some {| db_files := replace_file fileRecord (db_files db);
                db_insights := db_insights db;
                db_next_id := db_next_id db |}
    | None => None
    end
  else None.

(** The continuation of [Promise.all(fileAnalysisPromises)]; the [try]
    around its body swallows every error. *)
Definition complete_analysis (env : Env) (fileRecord : File.Doc)
    (analyses : list JSVal) (db : DB) : DB :=
  let validAnalyses := List.filter (λ analysis, negb (is_null analysis)) analyses in
  match validAnalyses with
  | [] => db
  | _ :: _ =>
      match save_analysis env (File.set_analysis fileRecord validAnalyses) db with
      | Some db' =>
          create_insights env (File.user fileRecord) (File._id fileRecord)
            (File.reportType fileRecord) validAnalyses db'
      | None => db
      end
  end.

(** The store once the continuation scheduled by an upload has run. *)
Definition settle (env : Env) (o : UploadOutcome) : DB :=
  match scheduled o with
  | Some (fileRecord, analyses) =>
      complete_analysis env fileRecord analyses (store o)
  | None => store o
  end.

(** [DELETE /:id]: the reply, the store, and the storage deletions that
    were requested with their results. *)
Definition delete_route (env : Env) (db : DB) (user : string) (id : nat)
  : Response unit * DB * list (string * bool) :=
  if negb (store_ok env FindFile) then
    (reply 500 false "Failed to delete file" None, db, [])
  else
    match find_file db id user with
    | None => (reply 404 false "File not found" None, db, [])
    | Some file =>
        (* Continue even if Cloudinary deletion fails *)
        let requested :=
          map (λ fileData,
                 (File.cloudinaryId fileData,
                  deleteFromCloudinary env (File.cloudinaryId fileData)))
              (File.files file) in
        if negb (store_ok env DeleteFile) then
          (reply 500 false "Failed to delete file" None, db, requested)
        else
          let db1 :=
            {| db_files :=
                 List.filter (λ f, negb (Nat.eqb (File._id f) id)) (db_files db);
               db_insights := db_insights db;
               db_next_id := db_next_id db |} in
          if negb (store_ok env DeleteInsights) then
            (reply 500 false "Failed to delete file" None, db1, requested)
          else
            let db2 :=
              {| db_files := db_files db1;
                 db_insights :=
                   List.filter (λ i, negb (Nat.eqb (AiInsight.file i) id))
                     (db_insights db1);
                 db_next_id := db_next_id db1 |} in
            (reply 200 true "File deleted successfully" None, db2, requested)
    end.

(** *** The download handler *)

Inductive DownloadReply : Type :=
| Redirect (location : string)
| Json (r : Response unit).

Section Download.
(** The built-in [parseInt] applied to a query-string value, without a
    radix: the integer it reads, [None] for NaN.  (The number the handler
    holds is the double nearest to that integer, or an infinity beyond the
    largest double; against the number of stored files, and as an array
    index, it behaves as the integer does.) *)
Variable parseInt : string → option Z.

(** [parseInt(req.query.index) || 0]; a missing parameter is
    [undefined], which parses to NaN. *)
Definition fileIndex_of (index : option string) : Z :=
  match index with
  | Some s => default 0 (parseInt s)
  | None => 0
  end.

(** [GET /:id/download]. *)
Definition download_route (env : Env) (db : DB) (user : string) (id : nat)
    (index : option string) : DownloadReply :=
  if negb (store_ok env FindFile) then
    Json (reply 500 false "Failed to download file" None)
  else
    match find_file db id user with
    | None => Json (reply 404 false "File not found" None)
    | Some file =>
        let fileIndex := fileIndex_of index in
        if Z.leb (Z.of_nat (length (File.files file))) fileIndex then
          Json (reply 404 false "File index out of range" None)
        else
          (* file.files[fileIndex] is undefined below zero *)
          let fileData :=
            if Z.ltb fileIndex 0 then None
            else File.files file !! Z.to_nat fileIndex in
          match fileData with
          | Some entry => Redirect (File.url entry)
          | None =>   (* reading .url of undefined throws *)
              Json (reply 500 false "Failed to download file" None)
          end
    end.
End Download.

End FileRoutes.

(* ===================================================================== *)
(** ** routes/vitals.js: the create handler *)
(* ===================================================================== *)

Module VitalsRoutes.

Section Create.
(** [new Date(v)], [None] for an invalid date; and the cast of a value
    to the String type of the schema, [None] when it fails. *)
Variable to_Date : JSVal → option Z.
Variable cast_String : JSVal → option string.

(** [new Vitals({user, bloodPressure, heartRate, temperature, weight,
    height, bloodSugar, oxygenSaturation, recordedAt, notes})].  The
    schema declares [user], [recordedAt] and [notes] among these keys;
    the values computed for the other keys ([parseInt], [parseFloat] of
    body fields) reach no path of the document. *)
Definition new_vitals (user : string) (recordedAt notes : JSVal)
  : Vitals.Doc :=
  {| Vitals.v_user := Some user;
     Vitals.v_type := None;
     Vitals.v_numeric := None;
     Vitals.v_text := None;
     Vitals.v_systolic := None;
     Vitals.v_diastolic := None;
     Vitals.v_unit := None;
     Vitals.v_recordedAt := to_Date recordedAt;
     Vitals.v_notes := cast_String (or_else notes (JStr EmptyString));
     Vitals.v_source := "manual";
     Vitals.v_isActive := true |}.

(** [POST /]. *)
Definition create (user : string) (body : JSVal) (coll : list Vitals.Doc)
  : Response Vitals.Doc * list Vitals.Doc :=
  match body with
  | JUndefined | JNull =>      (* destructuring throws *)
      (reply 500 false "Failed to record vitals" None, coll)
  | _ =>
      if negb (truthy (get body "recordedAt")) then
        (reply 400 false "Recorded date and time are required" None, coll)
      else
        let vitals :=
          new_vitals user (get body "recordedAt") (get body "notes") in
        match Vitals.save vitals coll with
        | Some coll' =>
            (reply 201 true "Vitals recorded successfully" (Some vitals), coll')
        | None => (reply 500 false "Failed to record vitals" None, coll)
        end
  end.
End Create.

End VitalsRoutes.

(* ===================================================================== *)
(** ** Concrete requests and collaborators used in the examples *)
(* ===================================================================== *)

Module Fixtures.

Definition pdf : IncomingFile :=
  {| originalname := "report.pdf"; mimetype := "application/pdf";
     size_bytes := 204800 |}.

Definition txt : IncomingFile :=
  {| originalname := "notes.txt"; mimetype := "text/plain";
     size_bytes := 120 |}.

Definition scan : IncomingFile :=
  {| originalname := "scan.png"; mimetype := "image/png";
     size_bytes := 512000 |}.

(** A storage service that accepts every file. *)
Definition cloud_ok (position : nat) (f : IncomingFile) : option CloudResult :=
  Some {| publicId := String.append "healthmate/reports/u1_" (originalname f);
          secure_url := String.append "https://res.cloudinary.com/demo/" (originalname f);
          cloud_format := "pdf" |}.

(** The model answers with the empty object; [JSON.parse] is given on the
    texts that occur; the insight schema asks for both summaries. *)
Definition env0 : Env :=
  {| uploadToCloudinary := cloud_ok;
     deleteFromCloudinary := λ _, false;
     generateContent := λ _ _ _, Some ("{}", 1200);
     JSON_parse := λ s, if String.eqb s "{}" then Some (JObj []) else None;
     Date_parse := λ s, if String.eqb s "2024-05-01" then Some 1714521600000 else None;
     snapshots_ok := λ _, true;
     insight_ok :=
       λ i, truthy (get (AiInsight.summary i) "english")
            && truthy (get (AiInsight.summary i) "urdu");
     nested_truthy := truthy;
     store_ok := λ _, true |}.

Definition db0 : DB :=
  {| db_files := []; db_insights := []; db_next_id := 0 |}.

Definition upload_of (files : list IncomingFile) : FileRoutes.UploadRequest :=
  {| FileRoutes.req_user := "u1";
     FileRoutes.parts := files;
     FileRoutes.body_reportType := Some "Blood Test";
     FileRoutes.body_reportDate := Some "2024-05-01";
     FileRoutes.body_doctorName := None;
     FileRoutes.body_hospitalName := None;
     FileRoutes.body_notes := None |}.

(** The store after one PDF was uploaded and its analysis has settled. *)
Definition db_after_pdf : DB :=
  FileRoutes.settle env0 (FileRoutes.upload_route env0 db0 (upload_of [pdf])).

(** A report of two stored files with two linked insights. *)
Definition stored (name : string) : File.StoredFile :=
  {| File.originalName := name;
     File.cloudinaryId := String.append "healthmate/reports/u1_" name;
     File.url := String.append "https://res.cloudinary.com/demo/" name;
     File.format := "pdf";
     File.f_size := 204800;
     File.mimeType := "application/pdf" |}.

Definition report7 : File.Doc :=
  {| File._id := 7; File.user := "u1"; File.reportType := "Blood Test";
     File.reportDate := Some 1714521600000; File.doctorName := EmptyString;
     File.hospitalName := EmptyString; File.notes := EmptyString;
     File.files := [stored "a.pdf"; stored "b.pdf"];
     File.aiAnalysis := []; File.status := File.analyzed |}.

Definition analysis_ok : JSVal :=
  JObj [("summary", GeminiService.bilingual "All values are normal." "Sab values normal hain.")].

(** An analysis whose disclaimer blocks are supplied without any text. *)
Definition analysis_blank_disclaimers : JSVal :=
  JObj [("summary", GeminiService.bilingual "All values are normal." "Sab values normal hain.");
        ("disclaimers",
          JObj [("aiDisclaimer", JObj []); ("medicalDisclaimer", JObj [])])].

Definition db7 : DB :=
  {| db_files := [report7];
     db_insights :=
       [AiInsight.pre_save truthy
          (FileRoutes.new_insight "u1" 7 "Blood Test" analysis_ok);
        AiInsight.pre_save truthy
          (FileRoutes.new_insight "u1" 7 "Blood Test" analysis_ok)];
     db_next_id := 8 |}.

(** [parseInt] on the index values of the examples. *)
Definition parseInt (s : string) : option Z :=
  if String.eqb s "0" then Some 0
  else if String.eqb s "1" then Some 1
  else if String.eqb s "-1" then Some (-1)
  else None.

(** Vitals: one user with a height reading, and three weight entries. *)
Definition reading (type unit : string) (value : Q) (t : Z) : Vitals.Doc :=
  {| Vitals.v_user := Some "u1";
     Vitals.v_type := Some type;
     Vitals.v_numeric := Some (Vitals.Fin value);
     Vitals.v_text := None;
     Vitals.v_systolic := None;
     Vitals.v_diastolic := None;
     Vitals.v_unit := Some unit;
     Vitals.v_recordedAt := Some t;
     Vitals.v_notes := None;
     Vitals.v_source := "manual";
     Vitals.v_isActive := true |}.

Definition hour : Z := 60 * 60 * 1000.

Definition height175 : Vitals.Doc := reading "height" "cm" 175 (- hour).



(** The reading of the scenario, as the schema shapes it. *)
Definition pressure_120_80 : Vitals.Doc :=
  {| Vitals.v_user := Some "u1";
     Vitals.v_type := Some "blood_pressure";
     Vitals.v_numeric := None;
     Vitals.v_text := None;
     Vitals.v_systolic := Some (Vitals.Fin 120);
     Vitals.v_diastolic := Some (Vitals.Fin 80);
     Vitals.v_unit := Some "mmHg";
     Vitals.v_recordedAt := Some 0;
     Vitals.v_notes := None;
     Vitals.v_source := "manual";
     Vitals.v_isActive := true |}.

(** Request bodies of [POST /api/vitals]: the shape the handler reads,
    and the shape of the scenario. *)
Definition body_bloodPressure : JSVal :=
  JObj [("bloodPressure",
          JObj [("systolic", JNum 120); ("diastolic", JNum 80)]);
        ("recordedAt", JStr "2024-05-01T08:00:00Z")].

Definition body_typed : JSVal :=
  JObj [("type", JStr "blood_pressure");
        ("systolic", JNum 120); ("diastolic", JNum 80);
        ("unit", JStr "mmHg");
        ("recordedAt", JStr "2024-05-01T08:00:00Z")].

Definition any_date (v : JSVal) : option Z := Some 1714550400000.

Definition string_cast (v : JSVal) : option string :=
  match v with JStr s => Some s | _ => None end.

(** Decimal printing of the two integers of the scenario. *)
Definition print_number (n : Vitals.Number) : string :=
  match n with
  | Vitals.Fin q =>
      if Qeq_bool q 120 then "120" else if Qeq_bool q 80 then "80" else "?"
  | _ => "NaN"
  end.

End Fixtures.

From Stdlib Require Import Lqa.

(* ===================================================================== *)
(** ** middleware/auth.js: the limiter's map and the token checks *)
(* ===================================================================== *)

Module Throttle.

(** The closure's [Map] once the middleware has served the requests. *)
Fixpoint attempts_after (maxAttempts windowMs : Z)
    (attempts : gmap string (list Z)) (reqs : list (string * Z))
  : gmap string (list Z) :=
  match reqs with
  | [] => attempts
  | (key, now) :: rest =>
      attempts_after maxAttempts windowMs
        (Auth.sensitiveOperationLimit maxAttempts windowMs attempts key now).1
        rest
  end.

End Throttle.

Module AuthTokens.

(** A call that returns or throws an error of the given [name]. *)
Inductive Result (A : Type) : Type :=
| Ok (a : A)
| Throw (name : string).
Arguments Ok {A} _.
Arguments Throw {A} _.

(** [s.split(sep)] for a one-character separator. *)
Fixpoint split (sep : ascii) (s : string) : list string :=
  match s with
  | EmptyString => [EmptyString]
  | String c rest =>
      if Ascii.eqb c sep then EmptyString :: split sep rest
      else
        match split sep rest with
        | piece :: more => String c piece :: more
        | [] => [String c EmptyString]
        end
  end.

(** [authHeader && authHeader.split(' ')[1]]; [None] is [undefined]. *)
Definition token_of (authHeader : option string) : option string :=
  match authHeader with
  | None => None
  | Some h =>
      if String.eqb h EmptyString then Some h
      else split " "%char h !! 1%nat
  end.

(** Truthiness of the extracted token. *)
Definition has_token (token : option string) : bool :=
  match token with
  | Some t => negb (String.eqb t EmptyString)
  | None => false
  end.

Section Middleware.
(** The user documents, [jwt.verify(token, process.env.JWT_SECRET)] (the
    decoded payload, or the error thrown) and
    [User.findById(id).select('-password')] ([None] is [null]). *)
Variable User : Type.
Variable jwt_verify : string → Result JSVal.
Variable findById : JSVal → Result (option User).

Inductive AuthOutcome : Type :=
| Proceed (user : User)                    (* req.user = user; next() *)
| Denied (status : Z) (message : string).  (* res.status(..).json(..) *)

(** The [catch] of [authenticateToken]. *)
Definition on_error (name : string) : AuthOutcome :=
  if String.eqb name "JsonWebTokenError" then Denied 401 "Invalid token"
  else if String.eqb name "TokenExpiredError" then Denied 401 "Token has expired"
  else Denied 500 "Authentication error".

(** [decoded.userId]; reading a property of [null] or [undefined] throws. *)
Definition userId_of (decoded : JSVal) : Result JSVal :=
  match decoded with
  | JUndefined | JNull => Throw "TypeError"
  | _ => Ok (get decoded "userId")
  end.

(** [authenticateToken], given the [authorization] header. *)
Definition authenticateToken (authHeader : option string) : AuthOutcome :=
  let token := token_of authHeader in
  if negb (has_token token) then Denied 401 "Access token is required"
  else
    match jwt_verify (default EmptyString token) with
    | Throw name => on_error name
    | Ok decoded =>
        match userId_of decoded with
        | Throw name => on_error name
        | Ok userId =>
            match findById userId with
            | Throw name => on_error name
            | Ok None => Denied 401 "Invalid token - user not found"
            | Ok (Some user) => Proceed user
            end
        end
    end.

(** [optionalAuth]: [next()] is always called; the result is [req.user]
    at that point. *)
Definition optionalAuth (authHeader : option string) : option User :=
  let token := token_of authHeader in
  if has_token token then
    match jwt_verify (default EmptyString token) with
    | Throw _ => None
    | Ok decoded =>
        match userId_of decoded with
        | Throw _ => None
        | Ok userId =>
            match findById userId with
            | Ok (Some user) => Some user
            | _ => None
            end
        end
    end
  else None.

(** [verifyRefreshToken(token)]. *)
Definition verifyRefreshToken (token : string) : Result JSVal :=
  match jwt_verify token with
  | Throw name => Throw name
  | Ok decoded =>
      match decoded with
      | JUndefined | JNull => Throw "TypeError"
      | _ =>
          match get decoded "type" with
          | JStr "refresh" => Ok decoded
          | _ => Throw "Error"       (* new Error('Invalid token type') *)
          end
      end
  end.
End Middleware.

Arguments Proceed {User} _.
Arguments Denied {User} _ _.

End AuthTokens.

(* ===================================================================== *)
(** ** services/geminiService.js: the lookup tables *)
(* ===================================================================== *)

Module GeminiTables.

(** What a computed key reads from an object literal: a string of the
    literal, or a member inherited from [Object.prototype] (a function, or
    the prototype itself; truthy, and not a string). *)
Inductive Looked : Type :=
| Text (s : string)
| Inherited.

Definition prototype_members : list string :=
  ["constructor"; "hasOwnProperty"; "isPrototypeOf"; "propertyIsEnumerable";
   "toLocaleString"; "toString"; "valueOf"; "__proto__";
   "__defineGetter__"; "__defineSetter__"; "__lookupGetter__";
   "__lookupSetter__"].

Fixpoint own (key : string) (table : list (string * string)) : option string :=
  match table with
  | [] => None
  | (k, v) :: rest => if String.eqb key k then Some v else own key rest
  end.

(** [table[key] || fallback], for a table of non-empty strings. *)
Definition read_or (table : list (string * string)) (key fallback : string)
  : Looked :=
  match own key table with
  | Some s => if String.eqb s EmptyString then Text fallback else Text s
  | None =>
      if existsb (String.eqb key) prototype_members then Inherited
      else Text fallback
  end.

(** [toLowerCase] on the ASCII letters.  A character outside ASCII is
    kept: none lower-cases to a letter of a key of [mimeTypes] or of a
    member of [Object.prototype] written in lower case. *)
Definition lower (c : ascii) : ascii :=
  let n := nat_of_ascii c in
  if Nat.leb 65 n && Nat.leb n 90 then ascii_of_nat (n + 32) else c.

Fixpoint toLowerCase (s : string) : string :=
  match s with
  | EmptyString => EmptyString
  | String c rest => String (lower c) (toLowerCase rest)
  end.

Definition mimeTypes : list (string * string) :=
  [("pdf", "application/pdf");
   ("jpg", "image/jpeg");
   ("jpeg", "image/jpeg");
   ("png", "image/png");
   ("gif", "image/gif");
   ("bmp", "image/bmp");
   ("webp", "image/webp");
   ("image", "image/jpeg")].

(** [getMimeType(fileType)]. *)
Definition getMimeType (fileType : string) : Looked :=
  if GeminiService.occurs "/"%char fileType then Text fileType
  else read_or mimeTypes (toLowerCase fileType) "application/octet-stream".

Definition nl : string := String (ascii_of_nat 10) EmptyString.

(** A template literal that holds the given lines, each on a line of its
    own, after an opening line break. *)
Definition block (lines : list string) : string :=
  String.append nl (String.concat nl (lines ++ [EmptyString])).

Definition instructions : list (string * string) :=
  [("blood_test",
    block ["- Focus on blood parameters like hemoglobin, WBC, RBC, platelets, glucose, cholesterol, etc.";
           "- Explain what each parameter means for overall health";
           "- Highlight any values outside normal ranges";
           "- Suggest lifestyle changes for improving blood health"]);
   ("urine_test",
    block ["- Focus on urine parameters like protein, glucose, ketones, specific gravity, etc.";
           "- Explain what abnormal values might indicate";
           "- Suggest hydration and dietary considerations"]);
   ("x_ray",
    block ["- Describe what the X-ray shows in simple terms";
           "- Explain any abnormalities or concerns";
           "- Suggest follow-up imaging if needed"]);
   ("ct_scan",
    block ["- Explain the CT scan findings in layman's terms";
           "- Highlight any areas of concern";
           "- Suggest appropriate follow-up care"]);
   ("mri",
    block ["- Describe MRI findings in simple language";
           "- Explain any abnormalities";
           "- Suggest next steps for care"]);
   ("ultrasound",
    block ["- Explain ultrasound findings";
           "- Describe any abnormalities or concerns";
           "- Suggest follow-up care"]);
   ("ecg",
    block ["- Explain heart rhythm and electrical activity";
           "- Describe any abnormalities";
           "- Suggest cardiac care recommendations"]);
   ("prescription",
    block ["- Explain prescribed medications";
           "- Describe dosage and timing";
           "- Highlight important side effects and interactions"]);
   ("discharge_summary",
    block ["- Summarize the hospital stay";
           "- Explain diagnosis and treatment";
           "- Provide follow-up care instructions"]);
   ("consultation",
    block ["- Summarize the consultation notes";
           "- Explain doctor's recommendations";
           "- Highlight important follow-up points"])].

Definition generic_instructions : string :=
  block ["- Provide a general analysis of the medical document";
         "- Explain key findings in simple terms";
         "- Suggest appropriate follow-up care"].

(** [getReportTypeSpecificInstructions(reportType)]. *)
Definition getReportTypeSpecificInstructions (reportType : string) : Looked :=
  read_or instructions reportType generic_instructions.

End GeminiTables.

(* ===================================================================== *)
(** ** models/Vitals.js: the [age] virtual and [getTrend] *)
(* ===================================================================== *)

Module VitalsMethods.

Definition hour_ms : Z := 1000 * 60 * 60.

Section Age.
Variable Number_toString : Vitals.Number → string.

(** The [age] virtual, read at the clock reading [now]. *)
Definition age (now : Z) (d : Vitals.Doc) : string :=
  match Vitals.v_recordedAt d with
  | Some recordedAt =>
      let diffTime := Z.abs (now - recordedAt) in
      let diffHours := Auth.ceil_div diffTime hour_ms in
      if Z.ltb diffHours 24 then
        String.append (Number_toString (Vitals.Fin (inject_Z diffHours)))
          " hours ago"
      else
        let diffDays := Auth.ceil_div diffTime Vitals.day_ms in
        String.append (Number_toString (Vitals.Fin (inject_Z diffDays)))
          " days ago"
  | None =>       (* arithmetic on undefined: NaN < 24 is false *)
      String.append (Number_toString Vitals.NaN) " days ago"
  end.
End Age.

Definition same_type (t : option string) (d : Vitals.Doc) : bool :=
  match t, Vitals.v_type d with
  | Some a, Some b => String.eqb a b
  | _, _ => false
  end.

(** Filter [{user: this.user, type: this.type,
    recordedAt: {$lt: this.recordedAt}}]. *)
Definition earlier_reading (this d : Vitals.Doc) : bool :=
  Vitals.same_user (Vitals.v_user this) d
  && same_type (Vitals.v_type this) d
  && match Vitals.v_recordedAt d, Vitals.v_recordedAt this with
     | Some r, Some t => Z.ltb r t
     | _, _ => false
     end.

(** [value.numeric || value.systolic]. *)
Definition reading_value (d : Vitals.Doc) : option Vitals.Number :=
  if Vitals.truthy_number (Vitals.v_numeric d) then Vitals.v_numeric d
  else Vitals.v_systolic d.

(** [a > b] on two values that are numbers or [undefined]. *)
Definition greater (a b : option Vitals.Number) : bool :=
  match Vitals.to_number a, Vitals.to_number b with
  | Vitals.Fin x, Vitals.Fin y => negb (Qle_bool x y)
  | Vitals.Inf true, Vitals.Fin _ => true
  | Vitals.Inf true, Vitals.Inf false => true
  | Vitals.Fin _, Vitals.Inf false => true
  | _, _ => false
  end.

(** [getTrend()]: [previousReadings[0]] is the latest of the earlier
    readings. *)
Definition getTrend (this : Vitals.Doc) (coll : list Vitals.Doc) : string :=
  match Vitals.latest (earlier_reading this) coll None with
  | None => "no_data"
  | Some previous =>
      let currentValue := reading_value this in
      let previousValue := reading_value previous in
      if greater currentValue previousValue then "increasing"
      else if greater previousValue currentValue then "decreasing"
      else "stable"
  end.

(** Stage [$match: {user, isActive: true}]. *)
Definition active_of (u : option string) (d : Vitals.Doc) : bool :=
  Vitals.same_user u d && Vitals.v_isActive d.

(** The documents of the group of [type] (the [_id] of the group; a
    document without type is in the group of [None]). *)
Definition in_group (u : option string) (type : option string)
    (d : Vitals.Doc) : bool :=
  active_of u d && bool_decide (Vitals.v_type d = type).

(** Order of a sort by [{recordedAt: -1}]: [a] may come before [b]. *)
Definition newest_first (a b : Vitals.Doc) : Prop := Vitals.later b a = false.

#[global] Instance newest_first_dec : RelDecision newest_first.
Proof. intros a b. unfold newest_first. apply _. Defined.

(** The static [getLatestVitals(userId)]: match, sort, group by type
    keeping the first document of each group, sort again.  The first of a
    group after the sort is its latest document. *)
Definition getLatestVitals (u : option string) (coll : list Vitals.Doc)
  : list Vitals.Doc :=
  let types := remove_dups (map Vitals.v_type (List.filter (active_of u) coll)) in
  merge_sort newest_first
    (omap (λ type, Vitals.latest (in_group u type) coll None) types).

End VitalsMethods.

(* ===================================================================== *)
(** ** routes/vitals.js: trends and update *)
(* ===================================================================== *)

Module VitalsStore.

(** The collection with the [_id] of each document: [ids] and [docs] run
    in parallel, in insertion order. *)
Record Store : Type := {
  ids : list nat;
  docs : list Vitals.Doc;
  next_id : nat
}.

Fixpoint index_of (id : nat) (l : list nat) : option nat :=
  match l with
  | [] => None
  | x :: rest => if Nat.eqb x id then Some O else option_map S (index_of id rest)
  end.

(** [Vitals.findOne({_id: id, user})]: the position and the document. *)
Definition findOne (s : Store) (id : nat) (user : string)
  : option (nat * Vitals.Doc) :=
  match index_of id (ids s) with
  | Some i =>
      match docs s !! i with
      | Some d => if Vitals.same_user (Some user) d then Some (i, d) else None
      | None => None
      end
  | None => None
  end.

(** The static methods the model defines. *)
Definition statics : list string :=
  ["getVitalsByType"; "getLatestVitals"; "getVitalsStats"].

Section Trends.
(** What a static method of the model returns, by its name. *)
Variable call_static : string → list Vitals.Doc.

(** [GET /stats/trends]: the handler calls the static
    [getVitalsHistory]; calling a property that the model does not define
    throws, which the handler answers with the error reply. *)
Definition trends (type : option string) : Response (list Vitals.Doc) :=
  if negb (FileRoutes.given type) then
    reply 400 false "Type parameter is required" None
  else if existsb (String.eqb "getVitalsHistory") statics then
    reply 200 true EmptyString (Some (call_static "getVitalsHistory"))
  else reply 500 false "Failed to fetch vitals trends" None.
End Trends.

Definition set_recordedAt (d : Vitals.Doc) (t : option Z) : Vitals.Doc :=
  {| Vitals.v_user := Vitals.v_user d;
     Vitals.v_type := Vitals.v_type d;
     Vitals.v_numeric := Vitals.v_numeric d;
     Vitals.v_text := Vitals.v_text d;
     Vitals.v_systolic := Vitals.v_systolic d;
     Vitals.v_diastolic := Vitals.v_diastolic d;
     Vitals.v_unit := Vitals.v_unit d;
     Vitals.v_recordedAt := t;
     Vitals.v_notes := Vitals.v_notes d;
     Vitals.v_source := Vitals.v_source d;
     Vitals.v_isActive := Vitals.v_isActive d |}.

Definition set_notes (d : Vitals.Doc) (n : option string) : Vitals.Doc :=
  {| Vitals.v_user := Vitals.v_user d;
     Vitals.v_type := Vitals.v_type d;
     Vitals.v_numeric := Vitals.v_numeric d;
     Vitals.v_text := Vitals.v_text d;
     Vitals.v_systolic := Vitals.v_systolic d;
     Vitals.v_diastolic := Vitals.v_diastolic d;
     Vitals.v_unit := Vitals.v_unit d;
     Vitals.v_recordedAt := Vitals.v_recordedAt d;
     Vitals.v_notes := n;
     Vitals.v_source := Vitals.v_source d;
     Vitals.v_isActive := Vitals.v_isActive d |}.

Section Update.
(** [new Date(v)] ([None] for an invalid date), the cast of a value to the
    String type of the schema ([None] when it fails), and whether [save()]
    of a stored document accepts it once the paths below are modified. *)
Variable to_Date : JSVal → option Z.
Variable cast_String : JSVal → option string.
Variable accepts : Vitals.Doc → bool.

(** The assignments of the handler.  The schema declares [recordedAt] and
    [notes]; an assignment to [bloodPressure], [heartRate], [temperature],
    [weight], [height], [bloodSugar] or [oxygenSaturation] sets a property
    of the document object that is no path of the document.  The second
    component tells whether every cast succeeded. *)
Definition assign (vitals : Vitals.Doc) (body : JSVal) : Vitals.Doc * bool :=
  let recordedAt := get body "recordedAt" in
  let notes := get body "notes" in
  let '(v1, ok1) :=
    if truthy recordedAt then
      (set_recordedAt vitals (to_Date recordedAt),
       Vitals.present (to_Date recordedAt))
    else (vitals, true) in
  match notes with
  | JUndefined => (v1, ok1)
  | JNull => (set_notes v1 None, ok1)
  | _ => (set_notes v1 (cast_String notes), ok1 && Vitals.present (cast_String notes))
  end.

(** [vitals.save()] of a stored document at position [i]: validation,
    the pre-save hook (run on the collection as stored), the write. *)
Definition save_at (s : Store) (i : nat) (vitals : Vitals.Doc) : Store :=
  let docs1 := Vitals.pre_save vitals (docs s) in
  let grown := Nat.ltb (length (docs s)) (length docs1) in
  {| ids := if grown then ids s ++ [next_id s] else ids s;
     docs := <[i := vitals]> docs1;
     next_id := if grown then S (next_id s) else next_id s |}.

(** [PUT /:id]. *)
Definition update (user : string) (id : nat) (body : JSVal) (s : Store)
  : Response Vitals.Doc * Store :=
  match findOne s id user with
  | None => (reply 404 false "Vitals record not found" None, s)
  | Some (i, vitals) =>
      match body with
      | JUndefined | JNull =>      (* destructuring throws *)
          (reply 500 false "Failed to update vitals" None, s)
      | _ =>
          let '(vitals', casts) := assign vitals body in
          if casts && accepts vitals' then
            (reply 200 true "Vitals updated successfully" (Some vitals'),
             save_at s i vitals')
          else (reply 500 false "Failed to update vitals" None, s)
      end
  end.
End Update.

(** The fields of a reading that tell what was measured. *)
Definition measurement (d : Vitals.Doc)
  : option string * option Vitals.Number * option string
    * option Vitals.Number * option Vitals.Number * option string :=
  (Vitals.v_type d, Vitals.v_numeric d, Vitals.v_text d,
   Vitals.v_systolic d, Vitals.v_diastolic d, Vitals.v_unit d).

End VitalsStore.

(* ===================================================================== *)
(** ** Further requests and collaborators used in the examples *)
(* ===================================================================== *)

Module Fixtures2.

(** A token service that knows two tokens of user [u1]: an access token
    and a refresh token. *)
Definition verify (token : string) : AuthTokens.Result JSVal :=
  if String.eqb token "access.u1" then
    AuthTokens.Ok (JObj [("userId", JStr "u1")])
  else if String.eqb token "refresh.u1" then
    AuthTokens.Ok (JObj [("userId", JStr "u1"); ("type", JStr "refresh")])
  else AuthTokens.Throw "JsonWebTokenError".

Definition users (id : JSVal) : AuthTokens.Result (option string) :=
  match id with
  | JStr "u1" => AuthTokens.Ok (Some "u1")
  | _ => AuthTokens.Ok None
  end.

(** The model answers in prose, without any JSON. *)
Definition env_prose : Env :=
  with_analysis Fixtures.env0
    (λ _ _ _, Some ("The report looks normal.", 900))
    (JSON_parse Fixtures.env0) (snapshots_ok Fixtures.env0)
    (insight_ok Fixtures.env0).

Definition six_scans : list IncomingFile :=
  [Fixtures.scan; Fixtures.scan; Fixtures.scan; Fixtures.scan; Fixtures.scan;
   Fixtures.scan].

(** A second report, of another user, with one insight. *)
Definition report8 : File.Doc :=
  {| File._id := 8; File.user := "u2"; File.reportType := "X-Ray";
     File.reportDate := Some 1714521600000; File.doctorName := EmptyString;
     File.hospitalName := EmptyString; File.notes := EmptyString;
     File.files := [Fixtures.stored "c.pdf"];
     File.aiAnalysis := []; File.status := File.uploaded |}.

Definition db78 : DB :=
  {| db_files := [Fixtures.report7; report8];
     db_insights :=
       db_insights Fixtures.db7
       ++ [AiInsight.pre_save truthy
             (FileRoutes.new_insight "u2" 8 "X-Ray" Fixtures.analysis_ok)];
     db_next_id := 9 |}.

(** Readings of one user: steps on two days, the second day none. *)
Definition steps_day1 : Vitals.Doc := Fixtures.reading "steps" "steps" 8000 0.
Definition steps_day2 : Vitals.Doc :=
  Fixtures.reading "steps" "steps" 0 (24 * Fixtures.hour).
Definition steps_day3 : Vitals.Doc :=
  Fixtures.reading "steps" "steps" 9000 (48 * Fixtures.hour).

(** Readings of two types, the second pressure reading being the later
    one, and a reading that was deactivated. *)
Definition pressure_at (systolic diastolic : Q) (t : Z) (active : bool)
  : Vitals.Doc :=
  {| Vitals.v_user := Some "u1";
     Vitals.v_type := Some "blood_pressure";
     Vitals.v_numeric := Some (Vitals.Fin systolic);
     Vitals.v_text := None;
     Vitals.v_systolic := Some (Vitals.Fin systolic);
     Vitals.v_diastolic := Some (Vitals.Fin diastolic);
     Vitals.v_unit := Some "mmHg";
     Vitals.v_recordedAt := Some t;
     Vitals.v_notes := None;
     Vitals.v_source := "manual";
     Vitals.v_isActive := active |}.

Definition mixed_readings : list Vitals.Doc :=
  [pressure_at 120 80 0 true; steps_day1;
   pressure_at 130 85 (24 * Fixtures.hour) true;
   pressure_at 140 90 (48 * Fixtures.hour) false].

Definition vitals_store : VitalsStore.Store :=
  {| VitalsStore.ids := [11; 12]%nat;
     VitalsStore.docs := [Fixtures.height175; Fixtures.reading "weight" "kg" 70 0];
     VitalsStore.next_id := 13 |}.

Definition body_new_weight : JSVal :=
  JObj [("weight", JNum 82); ("notes", JStr "after breakfast")].

End Fixtures2.

(* ===================================================================== *)
(** * Theorems *)
(* ===================================================================== *)

(** ** The attempt limiter *)

Section Limiter.
Import Auth.
Variables maxAttempts windowMs : Z.
Variable key : string.

Lemma counted_counted (now c : Z) (l : list Z) :
  now - windowMs ≤ c →
  filter (λ t, c < t) (counted windowMs now l) = filter (λ t, c < t) l.
Proof.
  intros Hc. unfold counted. rewrite list_filter_filter.
  apply list_filter_iff. intros t; simpl. lia.
Qed.

(** The call, seen from the array of one key. *)
Lemma limit_call (attempts : gmap string (list Z)) (now : Z) :
  let still := counted windowMs now (default [] (attempts !! key)) in
  sensitiveOperationLimit maxAttempts windowMs attempts key now =
    if bool_decide (maxAttempts ≤ Z.of_nat (length still)) then
      (<[key := still]> attempts, Reject 429 (retryAfter_hint still windowMs now))
    else (<[key := still ++ [now]]> attempts, Next).
Proof.
  unfold sensitiveOperationLimit, counted.
  destruct (attempts !! key) as [times|] eqn:E; simpl;
    rewrite lookup_insert_eq; simpl;
    case_bool_decide; try reflexivity; by rewrite insert_insert_eq.
Qed.

Lemma limit_call_other (attempts : gmap string (list Z)) (k : string) (now : Z) :
  k ≠ key →
  (sensitiveOperationLimit maxAttempts windowMs attempts k now).1 !! key
  = attempts !! key.
Proof.
  intros Hne. rewrite (surjective_pairing (sensitiveOperationLimit _ _ _ _ _)).
  unfold sensitiveOperationLimit.
  destruct (attempts !! k) eqn:E; simpl; rewrite lookup_insert_eq; simpl;
    case_bool_decide; simpl; by rewrite ?lookup_insert_ne.
Qed.

Lemma serve_follows (reqs : list (string * Z)) :
  ∀ (attempts : gmap string (list Z)) (history : list Z) (lo : Z),
    tracks key lo attempts history →
    Forall (λ r, lo ≤ r.2 - windowMs) reqs →
    StronglySorted Z.le (reqs.*2) →
    follows_history maxAttempts windowMs key history
      (serve maxAttempts windowMs attempts reqs).
Proof.
  induction reqs as [|[k now] rest IH]; intros attempts history lo Htr Hlo Hs;
    simpl; [exact I|].
  apply Forall_cons in Hlo as [Hnow Hlo]. simpl in Hnow.
  simpl in Hs. apply StronglySorted_inv in Hs as [Hs Hge].
  destruct (sensitiveOperationLimit maxAttempts windowMs attempts k now)
    as [attempts' o] eqn:Ecall. simpl.
  destruct (String.eqb k key) eqn:Ek.
  - apply String.eqb_eq in Ek. subst k.
    pose proof (limit_call attempts now) as Hcall. simpl in Hcall.
    rewrite Ecall in Hcall.
    assert (Hcnt : counted windowMs now (default [] (attempts !! key))
                   = counted windowMs now history).
    { unfold counted. apply Htr. exact Hnow. }
    rewrite Hcnt in Hcall. unfold decision.
    assert (Hrest : Forall (λ r, now - windowMs ≤ r.2 - windowMs) rest).
    { rewrite Forall_fmap in Hge. eapply Forall_impl; [exact Hge|].
      intros r Hr. simpl in Hr. lia. }
    case_bool_decide; injection Hcall as -> ->; (split; [reflexivity|]); simpl;
      apply (IH _ _ (now - windowMs)); try assumption.
    + intros c Hc. rewrite lookup_insert_eq. simpl.
      rewrite counted_counted by lia. reflexivity.
    + intros c Hc. rewrite lookup_insert_eq. simpl.
      rewrite !filter_app. rewrite counted_counted by lia. reflexivity.
  - apply String.eqb_neq in Ek.
    apply (IH _ _ lo); try assumption.
    intros c Hc. pose proof (limit_call_other attempts k now Ek) as Ho.
    rewrite Ecall in Ho. simpl in Ho. rewrite Ho. by apply Htr.
Qed.

Lemma window_le_counted (a now : Z) (l : list Z) :
  now ≤ a + windowMs →
  (length (in_window windowMs a l) ≤ length (counted windowMs now l))%nat.
Proof.
  intros Ha. unfold in_window, counted.
  induction l as [|t l IH]; [reflexivity|].
  rewrite !filter_cons.
  repeat case_decide; simpl; lia.
Qed.

Lemma follows_window (log : list (string * Z * Outcome)) :
  0 ≤ maxAttempts →
  ∀ history,
    follows_history maxAttempts windowMs key history log →
    (∀ a, Z.of_nat (length (in_window windowMs a history)) ≤ maxAttempts) →
    ∀ a, Z.of_nat (length (in_window windowMs a (history ++ admitted key log)))
         ≤ maxAttempts.
Proof.
  intros Hmax. induction log as [|[[k now] o] rest IH]; intros history Hf Hw a;
    simpl in *.
  - rewrite app_nil_r. apply Hw.
  - destruct (String.eqb k key) eqn:Ek; simpl; [|by apply IH].
    destruct Hf as [Ho Hf]. unfold decision in Ho.
    case_bool_decide as Hfull; subst o; simpl in *; [by apply IH|].
    replace (history ++ now :: admitted key rest)
      with ((history ++ [now]) ++ admitted key rest)
      by (by rewrite <- app_assoc).
    apply IH; [exact Hf|]. clear a. intros a.
    unfold in_window. rewrite filter_app. rewrite length_app.
    rewrite filter_cons, filter_nil.
    case_decide as Hin; simpl.
    + pose proof (window_le_counted a now history) as Hle.
      unfold in_window in Hle. lia.
    + specialize (Hw a). unfold in_window in Hw. lia.
Qed.

Lemma follows_at (pre post : list (string * Z * Outcome)) (now : Z) (o : Outcome) :
  ∀ history,
    follows_history maxAttempts windowMs key history (pre ++ (key, now, o) :: post) →
    o = decision maxAttempts windowMs now (history ++ admitted key pre).
Proof.
  induction pre as [|[[k t] o'] pre IH]; intros history Hf; simpl in *.
  - rewrite String.eqb_refl in Hf. rewrite app_nil_r. tauto.
  - destruct (String.eqb k key) eqn:Ek; simpl; [|by apply IH].
    destruct Hf as [_ Hf]. destruct (is_next o'); simpl.
    + rewrite (IH _ Hf). by rewrite <- app_assoc.
    + by apply IH.
Qed.

End Limiter.

Lemma ceil_div_spec (x d : Z) :
  0 < d → (Auth.ceil_div x d - 1) * d < x ≤ Auth.ceil_div x d * d.
Proof.
  intros Hd. unfold Auth.ceil_div.
  pose proof (Z.div_mod (- x) d ltac:(lia)) as Hdm.
  pose proof (Z.mod_pos_bound (- x) d Hd) as Hb. nia.
Qed.

Lemma serve_requests (maxAttempts windowMs : Z) (reqs : list (string * Z)) :
  ∀ attempts, (Auth.serve maxAttempts windowMs attempts reqs).*1 = reqs.
Proof.
  induction reqs as [|[k now] rest IH]; intros attempts; simpl; [reflexivity|].
  destruct (Auth.sensitiveOperationLimit maxAttempts windowMs attempts k now).
  simpl. by rewrite IH.
Qed.

Lemma admitted_bounds (key : string) (lo : Z) (log : list (string * Z * Auth.Outcome)) :
  Forall (λ e, lo ≤ e.1.2) log → Forall (Z.le lo) (Auth.admitted key log).
Proof.
  induction 1 as [|[[k t] o] log Hx _ IH]; simpl; [constructor|].
  destruct (String.eqb k key && Auth.is_next o); [constructor|]; assumption.
Qed.

Lemma admitted_sorted (key : string) (log : list (string * Z * Auth.Outcome)) :
  StronglySorted Z.le (log.*1.*2) → StronglySorted Z.le (Auth.admitted key log).
Proof.
  induction log as [|[[k t] o] log IH]; simpl; intros Hs; [constructor|].
  apply StronglySorted_inv in Hs as [Hs Hge].
  destruct (String.eqb k key && Auth.is_next o); [|by apply IH].
  constructor; [by apply IH|].
  apply admitted_bounds. rewrite !Forall_fmap in Hge. exact Hge.
Qed.

Lemma counted_head_oldest (windowMs now oldest : Z) (history : list Z) :
  StronglySorted Z.le history →
  head (Auth.counted windowMs now history) = Some oldest →
  Forall (Z.le oldest) (Auth.counted windowMs now history).
Proof.
  unfold Auth.counted. intros Hs.
  induction Hs as [|t l Hs IH Hge]; simpl; [constructor|].
  rewrite filter_cons. case_decide; simpl; [|exact IH].
  intros [= ->]. constructor; [lia|].
  apply Forall_forall. intros x Hx. apply list_elem_of_filter in Hx as [_ Hx].
  rewrite Forall_forall in Hge. by apply Hge.
Qed.

(** C8. Requests served in clock order by
    [sensitiveOperationLimit(maxAttempts, windowMs)]: for each key, no
    half-open window of [windowMs] milliseconds holds more than
    [maxAttempts] admitted requests; a request is rejected, with status 429,
    exactly when [maxAttempts] admitted attempts of its key lie less than
    [windowMs] before it, and is admitted otherwise; the [retryAfter] of a
    rejection is the number of seconds, rounded up, until the oldest of
    these attempts is [windowMs] old. *)
Theorem sensitiveOperationLimit_sliding_window
    (maxAttempts windowMs : Z) (key : string) (reqs : list (string * Z)) :
  0 ≤ maxAttempts →
  StronglySorted Z.le (reqs.*2) →
  let log := Auth.serve maxAttempts windowMs ∅ reqs in
  (∀ a, Z.of_nat (length (Auth.in_window windowMs a (Auth.admitted key log)))
        ≤ maxAttempts)
  ∧ (∀ pre now o post,
       log = pre ++ (key, now, o) :: post →
       let still := Auth.counted windowMs now (Auth.admitted key pre) in
       if bool_decide (maxAttempts ≤ Z.of_nat (length still)) then
         o = Auth.Reject 429 (Auth.retryAfter_hint still windowMs now)
         ∧ (0 < maxAttempts →
            ∃ oldest,
              head still = Some oldest
              ∧ Forall (Z.le oldest) still
              ∧ o = Auth.Reject 429
                      (Some (Auth.ceil_div (oldest + windowMs - now) 1000)))
       else o = Auth.Next).
Proof.
  intros Hmax Hsorted log.
  assert (Hf : Auth.follows_history maxAttempts windowMs key [] log).
  { apply (serve_follows maxAttempts windowMs key reqs ∅ []
             (match reqs with [] => 0 | r :: _ => r.2 - windowMs end)).
    - intros c _. by rewrite lookup_empty.
    - destruct reqs as [|r rest]; [constructor|].
      simpl in Hsorted. apply StronglySorted_inv in Hsorted as [_ Hge].
      constructor; [simpl; lia|].
      rewrite Forall_fmap in Hge. eapply Forall_impl; [exact Hge|].
      intros x Hx. simpl in *. lia.
    - exact Hsorted. }
  split.
  - intros a.
    apply (follows_window maxAttempts windowMs key log Hmax [] Hf).
    intros a'. simpl. lia.
  - intros pre now o post Hlog still.
    rewrite Hlog in Hf.
    pose proof (follows_at maxAttempts windowMs key pre post now o [] Hf) as Ho.
    simpl in Ho. unfold Auth.decision in Ho. fold still in Ho.
    case_bool_decide as Hfull; [|exact Ho].
    split; [exact Ho|]. intros Hpos.
    destruct still as [|oldest more] eqn:Estill; [simpl in Hfull; lia|].
    exists oldest. split; [reflexivity|]. split; [|exact Ho].
    rewrite <- Estill. apply counted_head_oldest.
    + apply admitted_sorted.
      assert (Hreq : log.*1 = reqs) by apply serve_requests.
      rewrite Hlog in Hreq. rewrite <- Hreq in Hsorted.
      rewrite !fmap_app in Hsorted.
      apply StronglySorted_app_1_l in Hsorted. exact Hsorted.
    + subst still. by rewrite Estill.
Qed.

Lemma sensitiveOperationLimit_sliding_window_witness :
  0 ≤ 2
  ∧ StronglySorted Z.le ([("u", 0); ("v", 5); ("u", 10); ("u", 20); ("u", 1005)].*2)
  ∧ (∀ a, Z.of_nat (length (Auth.in_window 1000 a
            (Auth.admitted "u"
               (Auth.serve 2 1000 ∅
                  [("u", 0); ("v", 5); ("u", 10); ("u", 20); ("u", 1005)]))))
          ≤ 2).
Proof.
  split; [lia|]. split; [simpl; repeat (constructor; try lia)|].
  refine (proj1 (sensitiveOperationLimit_sliding_window 2 1000 "u"
            [("u", 0); ("v", 5); ("u", 10); ("u", 20); ("u", 1005)] _ _)).
  - lia.
  - simpl; repeat (constructor; try lia).
Defined.

(** ** Parsing the model's answer *)

(** Unfolding of [String.append] on a literal prefix. *)
Ltac sapp :=
  repeat first
    [ progress change (String.append EmptyString ?x) with x in *
    | progress change (String.append (String ?c ?s) ?x)
        with (String c (String.append s x)) in * ];
  simpl.

Section JsonMatch.
Import GeminiService.

Notation "a +++ b" := (String.append a b) (at level 60, right associativity).


Lemma append_assoc (a b c : string) : (a +++ b) +++ c = a +++ b +++ c.
Proof. induction a as [|x a IH]; sapp; [reflexivity|by rewrite IH]. Qed.

Lemma greedy_none (s : string) :
  greedy_to_close s = None ↔ occurs close_brace s = false.
Proof.
  induction s as [|c s IH]; simpl; [tauto|].
  destruct (greedy_to_close s) as [m|].
  - split; [discriminate|]. intros H. apply orb_false_elim in H as [_ H].
    apply IH in H. discriminate.
  - destruct (Ascii.eqb c close_brace); simpl; [split; discriminate|].
    split; intros _; [by apply IH|reflexivity].
Qed.

Lemma greedy_last (body post : string) :
  occurs close_brace post = false →
  greedy_to_close (body +++ "}" +++ post) = Some (body +++ "}").
Proof.
  intros Hpost. induction body as [|c body IH]; sapp.
  - apply greedy_none in Hpost. by rewrite Hpost.
  - by rewrite IH.
Qed.

Lemma greedy_some (mid post : string) :
  greedy_to_close (mid +++ "}" +++ post) ≠ None.
Proof.
  induction mid as [|c mid IH]; sapp.
  - destruct (greedy_to_close post); discriminate.
  - destruct (greedy_to_close _); [discriminate|congruence].
Qed.

Lemma match_json_first_to_last (pre body post : string) :
  occurs open_brace pre = false →
  occurs close_brace post = false →
  match_json (pre +++ "{" +++ body +++ "}" +++ post) = Some ("{" +++ body +++ "}").
Proof.
  intros Hpre Hpost. induction pre as [|c pre IH]; sapp.
  - pose proof (greedy_last body post Hpost) as H. sapp. by rewrite H.
  - simpl in Hpre. apply orb_false_elim in Hpre as [Hc Hpre].
    rewrite Hc. by apply IH.
Qed.

Lemma match_json_finds (pre mid post : string) :
  match_json (pre +++ "{" +++ mid +++ "}" +++ post) ≠ None.
Proof.
  induction pre as [|c pre IH]; sapp.
  - pose proof (greedy_some mid post) as H. sapp.
    destruct (greedy_to_close _); [discriminate|congruence].
  - destruct (Ascii.eqb c open_brace); [|exact IH].
    destruct (greedy_to_close _); [discriminate|exact IH].
Qed.

Lemma greedy_whole (body : string) :
  greedy_to_close (body +++ "}") = Some (body +++ "}").
Proof. induction body as [|c body IH]; sapp; [reflexivity|by rewrite IH]. Qed.

Lemma match_json_whole (body : string) :
  match_json ("{" +++ body +++ "}") = Some ("{" +++ body +++ "}").
Proof. sapp. by rewrite greedy_whole. Qed.

Lemma greedy_shape (s m : string) :
  greedy_to_close s = Some m →
  ∃ body post, m = body +++ "}" ∧ s = m +++ post.
Proof.
  revert m. induction s as [|c s IH]; simpl; intros m; [discriminate|].
  destruct (greedy_to_close s) as [m'|] eqn:E.
  - intros [= <-]. destruct (IH m' eq_refl) as (body & post & -> & Hs).
    exists (String c body), post. sapp. split; [reflexivity|]. by rewrite Hs at 1.
  - destruct (Ascii.eqb c close_brace) eqn:Ec; [|discriminate].
    intros [= <-]. apply Ascii.eqb_eq in Ec. subst c.
    exists EmptyString, s. split; reflexivity.
Qed.

Lemma match_json_shape (text m : string) :
  match_json text = Some m →
  ∃ pre body post, text = pre +++ m +++ post ∧ m = "{" +++ body +++ "}".
Proof.
  induction text as [|c text IH]; simpl; [discriminate|].
  destruct (Ascii.eqb c open_brace) eqn:Ec.
  - destruct (greedy_to_close text) as [m'|] eqn:E.
    + intros [= <-]. apply Ascii.eqb_eq in Ec. subst c.
      destruct (greedy_shape _ _ E) as (body & post & -> & Ht).
      exists EmptyString, body, post. sapp. split; [by rewrite Ht at 1|reflexivity].
    + intros H. destruct (IH H) as (pre & body & post & -> & Hm).
      exists (String c pre), body, post. split; [reflexivity|exact Hm].
  - intros H. destruct (IH H) as (pre & body & post & -> & Hm).
    exists (String c pre), body, post. split; [reflexivity|exact Hm].
Qed.

End JsonMatch.

(** C3 (as amended). [parseGeminiResponse]: the extraction step takes the
    text from its first opening brace through its last closing brace; it
    finds nothing exactly when no closing brace follows an opening one.
    When the extracted text parses, the result is the parsed value, so a
    text that is one JSON object is returned as parsed; when nothing is
    extracted or the parse throws, the result is the fallback structure:
    the first 500 characters of the text followed by "..." as English
    summary, empty lists, one generic doctor question, confidence 70 and
    the two default disclaimer blocks. *)
Theorem parseGeminiResponse_greedy_extraction
    (JSON_parse : string → option JSVal) (text : string) :
  (∀ pre body post,
     GeminiService.occurs GeminiService.open_brace pre = false →
     GeminiService.occurs GeminiService.close_brace post = false →
     text = String.append pre (String.append "{" (String.append body (String.append "}" post))) →
     GeminiService.match_json text = Some (String.append "{" (String.append body "}")))
  ∧ (GeminiService.match_json text = None ↔
     ¬ ∃ pre mid post,
         text = String.append pre (String.append "{" (String.append mid (String.append "}" post))))
  ∧ (∀ jsonStr parsed,
       GeminiService.match_json text = Some jsonStr →
       JSON_parse jsonStr = Some parsed →
       GeminiService.parseGeminiResponse JSON_parse text = parsed)
  ∧ (∀ body parsed,
       text = String.append "{" (String.append body "}") →
       JSON_parse text = Some parsed →
       GeminiService.parseGeminiResponse JSON_parse text = parsed)
  ∧ ((GeminiService.match_json text = None
      ∨ ∃ jsonStr, GeminiService.match_json text = Some jsonStr
                   ∧ JSON_parse jsonStr = None) →
     GeminiService.parseGeminiResponse JSON_parse text
     = GeminiService.createFallbackResponse text)
  ∧ (let fallback := GeminiService.createFallbackResponse text in
     get (get fallback "summary") "english"
       = JStr (String.append (String.substring 0 500 text) "...")
     ∧ get fallback "keyFindings" = JArr []
     ∧ get fallback "abnormalValues" = JArr []
     ∧ get fallback "recommendations"
       = JObj [("lifestyle", JArr []); ("medical", JArr [])]
     ∧ get fallback "riskFactors" = JArr []
     ∧ get fallback "followUpSuggestions" = JArr []
     ∧ get fallback "doctorQuestions" = JArr [GeminiService.generic_question]
     ∧ get fallback "confidence" = JNum 70
     ∧ get fallback "disclaimers" = GeminiService.disclaimers_default).
Proof.
  split; [|split; [|split; [|split; [|split]]]].
  - intros pre body post Hpre Hpost ->. by apply match_json_first_to_last.
  - split.
    + intros Hnone (pre & mid & post & ->). by apply (match_json_finds pre mid post).
    + intros Hno. destruct (GeminiService.match_json text) as [m|] eqn:E; [|reflexivity].
      exfalso. apply Hno. destruct (match_json_shape _ _ E) as (pre & body & post & -> & ->).
      exists pre, body, post. f_equal.
      by rewrite !append_assoc.
  - intros jsonStr parsed Hm Hp. unfold GeminiService.parseGeminiResponse.
    by rewrite Hm, Hp.
  - intros body parsed -> Hp. unfold GeminiService.parseGeminiResponse.
    by rewrite match_json_whole, Hp.
  - intros [Hnone | (jsonStr & Hm & Hp)]; unfold GeminiService.parseGeminiResponse.
    + by rewrite Hnone.
    + by rewrite Hm, Hp.
  - repeat split.
Qed.

Lemma parseGeminiResponse_greedy_extraction_witness :
  JSON_parse Fixtures.env0 "{}" = Some (JObj [])
  ∧ GeminiService.parseGeminiResponse (JSON_parse Fixtures.env0) "{}" = JObj []
  ∧ GeminiService.parseGeminiResponse (JSON_parse Fixtures.env0) "no object here"
    = GeminiService.createFallbackResponse "no object here".
Proof.
  pose proof (parseGeminiResponse_greedy_extraction (JSON_parse Fixtures.env0) "{}")
    as (_ & _ & _ & Hwhole & _).
  pose proof (parseGeminiResponse_greedy_extraction (JSON_parse Fixtures.env0)
                "no object here") as (_ & _ & _ & _ & Hfall & _).
  split; [reflexivity|]. split.
  - exact (Hwhole EmptyString (JObj []) eq_refl eq_refl).
  - apply Hfall. left. reflexivity.
Defined.

(** C3, the extraction step as worded: on a text holding two objects the
    pattern takes both and what lies between them, where the first
    balanced object is the first of the two. *)
Lemma match_json_is_not_first_balanced :
  GeminiService.match_json "{} {}" = Some "{} {}"
  ∧ GeminiService.first_balanced_object "{} {}" = Some "{}"
  ∧ GeminiService.match_json "note {a} and {b}." = Some "{a} and {b}"
  ∧ GeminiService.first_balanced_object "note {a} and {b}." = Some "{a}".
Proof. repeat split. Qed.

(** ** The download route *)

(** C10. [GET /:id/download] on an owned record with K stored files,
    whatever [parseInt] reads from the index: a missing index, or one that
    [parseInt] reads as NaN, is served as index 0 (a redirect to the first
    stored file, or 404 "File index out of range" when there is none); an
    index that parses to an integer of at least K is answered 404 "File
    index out of range"; a negative one passes that test and is answered
    500; an index from 0 to K-1 redirects to the URL of that stored file. *)
Theorem download_index_bounds
    (parseInt : string → option Z)
    (env : Env) (db : DB) (user : string) (id : nat) (file : File.Doc) :
  store_ok env FindFile = true →
  find_file db id user = Some file →
  let K := Z.of_nat (length (File.files file)) in
  let index0 :=
    match File.files file with
    | entry :: _ => FileRoutes.Redirect (File.url entry)
    | [] => FileRoutes.Json (reply 404 false "File index out of range" None)
    end in
  FileRoutes.download_route parseInt env db user id None = index0
  ∧ (∀ s, parseInt s = None →
       FileRoutes.download_route parseInt env db user id (Some s) = index0)
  ∧ (∀ s n, parseInt s = Some n → K ≤ n →
       FileRoutes.download_route parseInt env db user id (Some s)
       = FileRoutes.Json (reply 404 false "File index out of range" None))
  ∧ (∀ s n, parseInt s = Some n → n < 0 →
       FileRoutes.download_route parseInt env db user id (Some s)
       = FileRoutes.Json (reply 500 false "Failed to download file" None))
  ∧ (∀ s n entry, parseInt s = Some n →
       File.files file !! Z.to_nat n = Some entry → 0 ≤ n →
       FileRoutes.download_route parseInt env db user id (Some s)
       = FileRoutes.Redirect (File.url entry)).
Proof.
  intros Hstore Hfind K index0. unfold FileRoutes.download_route.
  rewrite Hstore, Hfind. simpl.
  assert (H0 : (if Z.of_nat (length (File.files file)) <=? 0
                then FileRoutes.Json (reply 404 false "File index out of range" None)
                else match File.files file !! Z.to_nat 0 with
                     | Some entry => FileRoutes.Redirect (File.url entry)
                     | None => FileRoutes.Json (reply 500 false "Failed to download file" None)
                     end) = index0).
  { subst index0. destruct (File.files file) as [|entry rest]; reflexivity. }
  split; [exact H0|]. split; [|split; [|split]].
  - intros s Hs. unfold FileRoutes.fileIndex_of. rewrite Hs. exact H0.
  - intros s n Hs Hn. unfold FileRoutes.fileIndex_of. rewrite Hs. simpl.
    destruct (Z.leb_spec (Z.of_nat (length (File.files file))) n); [reflexivity|].
    subst K. lia.
  - intros s n Hs Hn. unfold FileRoutes.fileIndex_of. rewrite Hs. simpl.
    destruct (Z.leb_spec (Z.of_nat (length (File.files file))) n); [lia|].
    destruct (Z.ltb_spec n 0); [reflexivity|lia].
  - intros s n entry Hs Hentry Hn. unfold FileRoutes.fileIndex_of. rewrite Hs. simpl.
    pose proof (lookup_lt_Some _ _ _ Hentry) as Hlt.
    destruct (Z.leb_spec (Z.of_nat (length (File.files file))) n); [lia|].
    destruct (Z.ltb_spec n 0); [lia|].
    rewrite Hentry. reflexivity.
Qed.

Lemma download_index_bounds_witness :
  store_ok Fixtures.env0 FindFile = true
  ∧ find_file Fixtures.db7 7 "u1" = Some Fixtures.report7
  ∧ FileRoutes.download_route Fixtures.parseInt Fixtures.env0 Fixtures.db7 "u1" 7
      (Some "-1")
    = FileRoutes.Json (reply 500 false "Failed to download file" None).
Proof.
  split; [reflexivity|]. split; [reflexivity|].
  refine (proj1 (proj2 (proj2 (proj2
            (download_index_bounds Fixtures.parseInt Fixtures.env0 Fixtures.db7
               "u1" 7 Fixtures.report7 eq_refl eq_refl)))) "-1" (-1) eq_refl _).
  lia.
Defined.

(** ** The delete route *)

Lemma find_file_by_id (db : DB) (id : nat) (user : string) (file : File.Doc) :
  find_file db id user = Some file → File._id file = id.
Proof.
  unfold find_file. intros H. apply find_some in H as [_ H].
  apply andb_prop in H as [H _]. by apply Nat.eqb_eq.
Qed.

Lemma find_after_filter (id : nat) (coll : list File.Doc) :
  List.find (λ f, Nat.eqb (File._id f) id)
    (List.filter (λ f, negb (Nat.eqb (File._id f) id)) coll) = None.
Proof.
  induction coll as [|f coll IH]; simpl; [reflexivity|].
  destruct (Nat.eqb (File._id f) id) eqn:E; simpl; [exact IH|].
  by rewrite E.
Qed.

Lemma filter_after_filter (id : nat) (coll : list AiInsight.Doc) :
  List.filter (λ i, Nat.eqb (AiInsight.file i) id)
    (List.filter (λ i, negb (Nat.eqb (AiInsight.file i) id)) coll) = [].
Proof.
  induction coll as [|i coll IH]; simpl; [reflexivity|].
  destruct (Nat.eqb (AiInsight.file i) id) eqn:E; simpl; [exact IH|].
  by rewrite E.
Qed.

(** C6. [DELETE /:id]: whenever the reply reports success, the record is
    gone and no insight refers to it any more.  The reply and the store do
    not depend on what the storage deletions do: with the record found and
    the store carrying out its operations, the reply is the success reply
    for every behaviour of the storage service, and a deletion was
    requested for every stored file. *)
Theorem delete_cascades
    (env : Env) (db : DB) (user : string) (id : nat) :
  let '(resp, db', requested) := FileRoutes.delete_route env db user id in
  (success resp = true →
     file_by_id db' id = None ∧ insights_of db' id = [])
  ∧ (∀ delete,
       let '(resp2, db2, _) :=
         FileRoutes.delete_route (with_storage_delete env delete) db user id in
       resp2 = resp ∧ db2 = db')
  ∧ (∀ file,
       find_file db id user = Some file →
       store_ok env FindFile = true → store_ok env DeleteFile = true →
       store_ok env DeleteInsights = true →
       resp = reply 200 true "File deleted successfully" None
       ∧ requested.*1 = map File.cloudinaryId (File.files file)).
Proof.
  unfold FileRoutes.delete_route. simpl.
  destruct (store_ok env FindFile) eqn:Hfind; simpl.
  2: { split; [discriminate|]. split; [by intros _|]. by intros f0 _ [=]. }
  destruct (find_file db id user) as [file|] eqn:Ef; simpl.
  2: { split; [discriminate|]. split; [by intros _|]. by intros f0 [=]. }
  destruct (store_ok env DeleteFile) eqn:Hdel; simpl.
  2: { split; [discriminate|]. split; [by intros _|]. by intros f0 _ _ [=]. }
  destruct (store_ok env DeleteInsights) eqn:Hins; simpl.
  2: { split; [discriminate|]. split; [by intros _|]. by intros f0 _ _ _ [=]. }
  split; [|split].
  - intros _. unfold file_by_id, insights_of. simpl.
    split; [apply find_after_filter|apply filter_after_filter].
  - by intros _.
  - intros file' [= <-] _ _ _. split; [reflexivity|].
    rewrite <- list_fmap_compose. reflexivity.
Qed.

Lemma delete_cascades_witness :
  find_file Fixtures.db7 7 "u1" = Some Fixtures.report7
  ∧ length (insights_of Fixtures.db7 7) = 2%nat
  ∧ Forall (λ r, r.2 = false) (FileRoutes.delete_route Fixtures.env0 Fixtures.db7 "u1" 7).2
  ∧ (let '(resp, db', _) := FileRoutes.delete_route Fixtures.env0 Fixtures.db7 "u1" 7 in
     success resp = true → file_by_id db' 7 = None ∧ insights_of db' 7 = []).
Proof.
  split; [reflexivity|]. split; [reflexivity|].
  split; [repeat constructor|].
  pose proof (delete_cascades Fixtures.env0 Fixtures.db7 "u1" 7) as H.
  destruct (FileRoutes.delete_route Fixtures.env0 Fixtures.db7 "u1" 7) as [[resp db'] requested].
  exact (proj1 H).
Defined.

(** ** The upload route *)

Section Upload.
Import FileRoutes.

Lemma multer_accepts (n : nat) (files : list IncomingFile) :
  (length files ≤ n)%nat →
  forallb within_policy files = true →
  multer_array n files = Accepted files.
Proof.
  revert n. induction files as [|f files IH]; intros n Hn Hall; simpl; [reflexivity|].
  simpl in Hn, Hall. apply andb_prop in Hall as [Hf Hall].
  unfold within_policy in Hf. apply andb_prop in Hf as [Hmime Hsize].
  destruct n as [|n]; [lia|]. unfold fileFilter. rewrite Hmime.
  destruct (Z.ltb_spec fileSize_limit (size_bytes f)) as [Hlt|_];
    [apply Z.leb_le in Hsize; lia|].
  rewrite IH; [reflexivity|lia|exact Hall].
Qed.

Lemma multer_aborts (n : nat) (files : list IncomingFile) :
  forallb within_policy files = false →
  ∃ e, multer_array n files = Aborted e.
Proof.
  revert n. induction files as [|f files IH]; intros n Hex; simpl in *; [discriminate|].
  destruct n as [|n]; [eauto|]. unfold fileFilter.
  destruct (image_or_pdf (mimetype f)) eqn:Hmime; simpl; [|eauto].
  destruct (Z.ltb_spec fileSize_limit (size_bytes f)) as [Hlt|Hle]; [eauto|].
  unfold within_policy in Hex. rewrite Hmime in Hex. simpl in Hex.
  apply Z.leb_le in Hle. rewrite Hle in Hex. simpl in Hex.
  destruct (IH n Hex) as [e ->]. eauto.
Qed.

Lemma process_files_stored (env : Env) (reportType : string)
    (files : list IncomingFile) :
  ∀ position,
    map File.originalName (process_files env reportType position files).1
    = map originalname (storable env position files)
    ∧ (length (process_files env reportType position files).1 ≤ length files)%nat.
Proof.
  induction files as [|f files IH]; intros position; simpl; [split; reflexivity|].
  destruct (IH (S position)) as [Hnames Hlen].
  destruct (process_files env reportType (S position) files) as [stored promises].
  simpl in *.
  destruct (uploadToCloudinary env position f) as [r|]; simpl.
  - destruct (image_or_pdf (mimetype f)); simpl; (split; [by rewrite Hnames|lia]).
  - split; [exact Hnames|lia].
Qed.

Lemma storable_all (env : Env) (files : list IncomingFile) :
  ∀ position,
    (∀ i f, files !! i = Some f →
            is_Some (uploadToCloudinary env (position + i) f)) →
    storable env position files = files.
Proof.
  induction files as [|f files IH]; intros position Hall; simpl; [reflexivity|].
  destruct (Hall 0%nat f eq_refl) as [r Hr]. rewrite Nat.add_0_r in Hr.
  rewrite Hr. f_equal. apply IH. intros i g Hg.
  replace (S position + i)%nat with (position + S i)%nat by lia.
  by apply Hall.
Qed.

Lemma process_files_storage (env : Env)
    (generate : string → string → string → option (string * Z))
    (parse : string → option JSVal) (snapshots : list JSVal → bool)
    (insights : AiInsight.Doc → bool) (reportType : string)
    (files : list IncomingFile) :
  ∀ position,
    (process_files (with_analysis env generate parse snapshots insights)
       reportType position files).1
    = (process_files env reportType position files).1.
Proof.
  induction files as [|f files IH]; intros position; simpl; [reflexivity|].
  specialize (IH (S position)).
  destruct (process_files (with_analysis _ _ _ _ _) reportType (S position) files)
    as [stored' promises'].
  destruct (process_files env reportType (S position) files) as [stored promises].
  simpl in IH. subst stored'.
  destruct (uploadToCloudinary env position f); simpl; [|reflexivity].
  destruct (image_or_pdf (mimetype f)); reflexivity.
Qed.

End Upload.

(** C1 (as amended). [POST /upload] with report type and date given.  A
    request in which some attached file is outside the policy of the upload
    middleware (a MIME type that is neither [image/*] nor
    [application/pdf], or more than 10MB) is refused as a whole: the handler
    does not run, the reply is the error reply, nothing is stored.  A
    request of one to five files that are all within the policy, whose
    record passes validation, is answered with success, and the record and
    the count in the reply hold exactly the files whose storage upload
    succeeded, all of them when every upload succeeds. *)
Theorem upload_refuses_or_stores
    (env : Env) (db : DB) (req : FileRoutes.UploadRequest) :
  let out := FileRoutes.upload_route env db req in
  let files := FileRoutes.parts req in
  let stored :=
    (FileRoutes.process_files env
       (FileRoutes.text_of (FileRoutes.body_reportType req)) 0 files).1 in
  let record := FileRoutes.new_file_record env db req stored in
  (forallb FileRoutes.within_policy files = false →
     FileRoutes.response out = reply 500 false "Something went wrong!" None
     ∧ FileRoutes.store out = db
     ∧ FileRoutes.scheduled out = None)
  ∧ (forallb FileRoutes.within_policy files = true →
     (1 ≤ length files ≤ 5)%nat →
     FileRoutes.given (FileRoutes.body_reportType req) = true →
     FileRoutes.given (FileRoutes.body_reportDate req) = true →
     File.validate record = true →
     store_ok env SaveFile = true →
     FileRoutes.response out
     = reply 200 true "Files uploaded successfully" (Some (record, length stored))
     ∧ File.files record = stored
     ∧ map File.originalName stored
       = map originalname (FileRoutes.storable env 0 files)
     ∧ ((∀ i f, files !! i = Some f → is_Some (uploadToCloudinary env i f)) →
        map File.originalName stored = map originalname files
        ∧ length stored = length files)).
Proof.
  intros out files stored record. split.
  - intros Hbad. subst out. unfold FileRoutes.upload_route.
    destruct (multer_aborts 5 files Hbad) as [e He]. fold files. rewrite He.
    repeat split.
  - intros Hok Hlen Htype Hdate Hvalid Hsave. subst out.
    unfold FileRoutes.upload_route. fold files.
    rewrite (multer_accepts 5 files) by (lia || assumption).
    unfold FileRoutes.upload_handler.
    destruct files as [|f0 rest] eqn:Efiles; [simpl in Hlen; lia|].
    rewrite Htype, Hdate. simpl negb. simpl orb. cbv iota.
    subst record stored.
    destruct (FileRoutes.process_files env
                (FileRoutes.text_of (FileRoutes.body_reportType req)) 0 (f0 :: rest))
      as [uploadedFiles promises] eqn:Ep.
    simpl fst in *. rewrite Hvalid, Hsave. simpl.
    split; [reflexivity|]. split; [reflexivity|].
    pose proof (process_files_stored env
                  (FileRoutes.text_of (FileRoutes.body_reportType req))
                  (f0 :: rest) 0%nat) as [Hnames _].
    rewrite Ep in Hnames. simpl fst in Hnames.
    split; [exact Hnames|]. intros Hall.
    rewrite (storable_all env (f0 :: rest) 0%nat) in Hnames by exact Hall.
    split; [exact Hnames|].
    apply (f_equal length) in Hnames. by rewrite !length_map in Hnames.
Qed.

Lemma upload_refuses_or_stores_witness :
  forallb FileRoutes.within_policy [Fixtures.pdf; Fixtures.scan] = true
  ∧ FileRoutes.response
      (FileRoutes.upload_route Fixtures.env0 Fixtures.db0
         (Fixtures.upload_of [Fixtures.pdf; Fixtures.scan]))
    = reply 200 true "Files uploaded successfully"
        (Some (FileRoutes.new_file_record Fixtures.env0 Fixtures.db0
                 (Fixtures.upload_of [Fixtures.pdf; Fixtures.scan])
                 (FileRoutes.process_files Fixtures.env0 "Blood Test" 0
                    [Fixtures.pdf; Fixtures.scan]).1,
               2%nat)).
Proof.
  split; [reflexivity|].
  refine (proj1 (proj2 (upload_refuses_or_stores Fixtures.env0 Fixtures.db0
                  (Fixtures.upload_of [Fixtures.pdf; Fixtures.scan]))
                  eq_refl _ eq_refl eq_refl eq_refl eq_refl)).
  simpl. lia.
Defined.

(** C1, as worded: one PDF and one [.txt] file with report type and date
    are answered with the error reply, and no record is created. *)
Lemma upload_pdf_and_txt_is_refused :
  FileRoutes.within_policy Fixtures.pdf = true
  ∧ FileRoutes.within_policy Fixtures.txt = false
  ∧ FileRoutes.response
      (FileRoutes.upload_route Fixtures.env0 Fixtures.db0
         (Fixtures.upload_of [Fixtures.pdf; Fixtures.txt]))
    = reply 500 false "Something went wrong!" None
  ∧ FileRoutes.store
      (FileRoutes.upload_route Fixtures.env0 Fixtures.db0
         (Fixtures.upload_of [Fixtures.pdf; Fixtures.txt]))
    = Fixtures.db0.
Proof. repeat split. Qed.

(** C7. The reply of [POST /upload] and the store it leaves are the same
    for every behaviour of the analysis collaborators (the model call,
    [JSON.parse], the casting of its output): the analyses only enter the
    continuation that runs after the reply.  A reply that carries data is
    the success reply, with the created record (status [uploaded], no
    analysis yet), which is the one appended to the store, and the number
    of its stored files. *)
Theorem upload_reply_ignores_analysis
    (env : Env) (db : DB) (req : FileRoutes.UploadRequest)
    (generate : string → string → string → option (string * Z))
    (parse : string → option JSVal) (snapshots : list JSVal → bool)
    (insights : AiInsight.Doc → bool) :
  let out := FileRoutes.upload_route env db req in
  let out' :=
    FileRoutes.upload_route (with_analysis env generate parse snapshots insights)
      db req in
  FileRoutes.response out' = FileRoutes.response out
  ∧ FileRoutes.store out' = FileRoutes.store out
  ∧ (∀ record count,
       data (FileRoutes.response out) = Some (record, count) →
       FileRoutes.response out
       = reply 200 true "Files uploaded successfully" (Some (record, count))
       ∧ File.status record = File.uploaded
       ∧ File.aiAnalysis record = []
       ∧ count = length (File.files record)
       ∧ db_files (FileRoutes.store out) = db_files db ++ [record])
  ∧ (∀ record,
       db_files (FileRoutes.store out) = db_files db ++ [record] →
       FileRoutes.response out
       = reply 200 true "Files uploaded successfully"
           (Some (record, length (File.files record)))).
Proof.
  assert (Hfresh : ∀ record : File.Doc, db_files db ≠ db_files db ++ [record]).
  { intros record H. apply (f_equal length) in H. rewrite length_app in H.
    simpl in H. lia. }
  intros out out'. subst out out'. unfold FileRoutes.upload_route.
  destruct (FileRoutes.multer_array 5 (FileRoutes.parts req)) as [files|e];
    [|repeat split; (discriminate || (intros record H; by apply Hfresh in H))].
  unfold FileRoutes.upload_handler.
  destruct files as [|f0 rest];
    [repeat split; (discriminate || (intros record H; by apply Hfresh in H))|].
  destruct (negb (FileRoutes.given (FileRoutes.body_reportType req))
            || negb (FileRoutes.given (FileRoutes.body_reportDate req)));
    [repeat split; (discriminate || (intros record H; by apply Hfresh in H))|].
  pose proof (process_files_storage env generate parse snapshots insights
                (FileRoutes.text_of (FileRoutes.body_reportType req))
                (f0 :: rest) 0%nat) as Hsame.
  destruct (FileRoutes.process_files (with_analysis _ _ _ _ _) _ 0 (f0 :: rest))
    as [stored' promises'].
  destruct (FileRoutes.process_files env _ 0 (f0 :: rest)) as [stored promises].
  simpl in Hsame. subst stored'.
  change (FileRoutes.new_file_record (with_analysis env generate parse snapshots insights) db req stored)
    with (FileRoutes.new_file_record env db req stored).
  change (store_ok (with_analysis env generate parse snapshots insights) SaveFile)
    with (store_ok env SaveFile).
  destruct (File.validate (FileRoutes.new_file_record env db req stored)
            && store_ok env SaveFile); simpl;
    [|repeat split; (discriminate || (intros record H; by apply Hfresh in H))].
  split; [reflexivity|]. split; [reflexivity|]. split.
  - intros record count [= <- <-]. repeat split.
  - intros record H. apply app_inj_tail in H as [_ <-]. reflexivity.
Qed.

Lemma upload_reply_ignores_analysis_witness :
  FileRoutes.response
    (FileRoutes.upload_route
       (with_analysis Fixtures.env0 (λ _ _ _, None) (λ _, None) (λ _, false)
          (λ _, false))
       Fixtures.db0 (Fixtures.upload_of [Fixtures.pdf]))
  = FileRoutes.response
      (FileRoutes.upload_route Fixtures.env0 Fixtures.db0
         (Fixtures.upload_of [Fixtures.pdf]))
  ∧ status
      (FileRoutes.response
         (FileRoutes.upload_route Fixtures.env0 Fixtures.db0
            (Fixtures.upload_of [Fixtures.pdf]))) = 200.
Proof.
  split; [|reflexivity].
  exact (proj1 (upload_reply_ignores_analysis Fixtures.env0 Fixtures.db0
                  (Fixtures.upload_of [Fixtures.pdf])
                  (λ _ _ _, None) (λ _, None) (λ _, false) (λ _, false))).
Defined.

(** ** The continuation that stores the analyses *)

Section Completion.
Import FileRoutes.
Variable env : Env.
Variables (user : string) (fileId : nat) (reportType : string).

Lemma create_insights_files (l : list JSVal) :
  ∀ db, db_files (create_insights env user fileId reportType l db) = db_files db.
Proof.
  induction l as [|a l IH]; intros db; simpl; [reflexivity|].
  destruct (has_summary a); [|apply IH].
  unfold save_insight.
  destruct (insight_ok env _ && store_ok env SaveInsight); [|reflexivity].
  by rewrite IH.
Qed.

Lemma create_insights_all (l : list JSVal) :
  store_ok env SaveInsight = true →
  Forall (λ a, has_summary a = true →
               insight_ok env (new_insight user fileId reportType a) = true) l →
  ∀ db,
    db_insights (create_insights env user fileId reportType l db)
    = db_insights db
      ++ map (λ a, AiInsight.pre_save (nested_truthy env)
                     (new_insight user fileId reportType a))
           (List.filter has_summary l).
Proof.
  intros Hstore. induction 1 as [|a l Ha _ IH]; intros db; simpl;
    [by rewrite app_nil_r|].
  destruct (has_summary a) eqn:Es; [|apply IH].
  unfold save_insight. rewrite (Ha eq_refl), Hstore. simpl.
  rewrite IH. simpl. by rewrite <- app_assoc.
Qed.

Lemma create_insights_none (l : list JSVal) :
  Forall (λ a, has_summary a = false) l →
  ∀ db, create_insights env user fileId reportType l db = db.
Proof.
  induction 1 as [|a l Ha _ IH]; intros db; simpl; [reflexivity|].
  rewrite Ha. apply IH.
Qed.

End Completion.

Lemma pre_save_file (reads : JSVal → bool) (i : AiInsight.Doc) :
  AiInsight.file (AiInsight.pre_save reads i) = AiInsight.file i.
Proof.
  unfold AiInsight.pre_save.
  repeat match goal with |- context [if ?b then _ else _] => destruct b end;
    reflexivity.
Qed.

Lemma insights_of_app (db : DB) (id : nat) (more : list AiInsight.Doc) :
  Forall (λ i, AiInsight.file i = id) more →
  List.filter (λ i, Nat.eqb (AiInsight.file i) id) (db_insights db ++ more)
  = insights_of db id ++ more.
Proof.
  intros Hall. unfold insights_of. rewrite List.filter_app. f_equal.
  induction Hall as [|i more Hi _ IH]; simpl; [reflexivity|].
  apply Nat.eqb_eq in Hi. rewrite Hi. by rewrite IH.
Qed.

Lemma find_replace_file (d : File.Doc) (coll : list File.Doc) (x : File.Doc) :
  List.find (λ f, Nat.eqb (File._id f) (File._id d)) coll = Some x →
  List.find (λ f, Nat.eqb (File._id f) (File._id d)) (FileRoutes.replace_file d coll)
  = Some d.
Proof.
  induction coll as [|f coll IH]; simpl; [discriminate|].
  destruct (Nat.eqb (File._id f) (File._id d)) eqn:E.
  - intros _. by rewrite Nat.eqb_refl.
  - intros H. rewrite E. by apply IH.
Qed.

(** C2 (as amended). The continuation run on a record that is in the store
    with status [uploaded]: afterwards the record is [analyzed] exactly when
    at least one analysis is not null and the save of the record succeeds,
    and it then holds the non-null analyses; one insight is created for
    each non-null analysis with a non-empty summary, as long as the insight
    saves succeed; when no non-null analysis has a summary, no insight is
    created, whatever the status; when the record is not saved, the store
    is unchanged. *)
Theorem completion_status_and_insights
    (env : Env) (fileRecord stored : File.Doc) (analyses : list JSVal) (db : DB) :
  file_by_id db (File._id fileRecord) = Some stored →
  File.status stored = File.uploaded →
  let fileId := File._id fileRecord in
  let valid := List.filter (λ a, negb (FileRoutes.is_null a)) analyses in
  let db' := FileRoutes.complete_analysis env fileRecord analyses db in
  let saved :=
    valid ≠ [] ∧ snapshots_ok env valid = true ∧ store_ok env SaveFile = true in
  (∃ record,
     file_by_id db' fileId = Some record
     ∧ (File.status record = File.analyzed ↔ saved)
     ∧ (saved → File.aiAnalysis record = valid))
  ∧ (saved →
     store_ok env SaveInsight = true →
     Forall (λ a, FileRoutes.has_summary a = true →
                  insight_ok env
                    (FileRoutes.new_insight (File.user fileRecord) fileId
                       (File.reportType fileRecord) a) = true) valid →
     insights_of db' fileId
     = insights_of db fileId
       ++ map (λ a, AiInsight.pre_save (nested_truthy env)
                      (FileRoutes.new_insight (File.user fileRecord) fileId
                         (File.reportType fileRecord) a))
            (List.filter FileRoutes.has_summary valid))
  ∧ (Forall (λ a, FileRoutes.has_summary a = false) valid →
     db_insights db' = db_insights db)
  ∧ (¬ saved → db' = db).
Proof.
  intros Hin Hstatus fileId valid db' saved.
  assert (Hkeep : ∃ record, file_by_id db fileId = Some record
                  ∧ File.status record ≠ File.analyzed).
  { exists stored. split; [exact Hin|]. rewrite Hstatus. discriminate. }
  subst db' saved. unfold FileRoutes.complete_analysis. fold valid.
  destruct valid as [|a0 rest] eqn:Ev.
  { destruct Hkeep as (record & Hr & Hne).
    split; [|split; [|split]]; try tauto.
    exists record. split; [exact Hr|]. split; [|tauto].
    split; [contradiction|]. intros (Hnil & _). congruence. }
  assert (Hnonnil : a0 :: rest ≠ []) by discriminate.
  revert Hnonnil. generalize (a0 :: rest). clear Ev a0 rest. intros l Hl.
  unfold FileRoutes.save_analysis.
  change (File.aiAnalysis (File.set_analysis fileRecord l)) with l.
  change (File._id (File.set_analysis fileRecord l)) with fileId.
  fold fileId in Hin. rewrite Hin.
  destruct (snapshots_ok env l) eqn:Hsnap; simpl andb; cbv iota.
  2: { destruct Hkeep as (record & Hr & Hne).
       split; [|split; [|split]]; try (intros (_ & ? & _); discriminate);
         try reflexivity.
       exists record. split; [exact Hr|]. split; [|intros (_ & ? & _); discriminate].
       split; [contradiction|]. intros (_ & ? & _); discriminate. }
  destruct (store_ok env SaveFile) eqn:Hstore; cbv iota.
  2: { destruct Hkeep as (record & Hr & Hne).
       split; [|split; [|split]]; try (intros (_ & _ & ?); discriminate);
         try reflexivity.
       exists record. split; [exact Hr|]. split; [|intros (_ & _ & ?); discriminate].
       split; [contradiction|]. intros (_ & _ & ?); discriminate. }
  set (db1 := {| db_files := FileRoutes.replace_file (File.set_analysis fileRecord l) (db_files db);
                 db_insights := db_insights db; db_next_id := db_next_id db |}).
  split; [|split; [|split]].
  - exists (File.set_analysis fileRecord l). split.
    + unfold file_by_id. rewrite create_insights_files. simpl.
      apply (find_replace_file (File.set_analysis fileRecord l) (db_files db) stored).
      exact Hin.
    + split; [|reflexivity]. split; [by intros _|reflexivity].
  - intros _ Hins Hacc. unfold fileId in *. unfold insights_of at 1.
    rewrite (create_insights_all env (File.user fileRecord) (File._id fileRecord)
               (File.reportType fileRecord) l Hins Hacc db1).
    change (db_insights db1) with (db_insights db).
    apply insights_of_app. apply Forall_forall. intros i Hi.
    apply list_elem_of_fmap in Hi as (a & -> & _). by rewrite pre_save_file.
  - intros Hnone. by rewrite create_insights_none.
  - intros Hns. exfalso. apply Hns. by repeat split.
Qed.

Lemma completion_status_and_insights_witness :
  let out := FileRoutes.upload_route Fixtures.env0 Fixtures.db0
               (Fixtures.upload_of [Fixtures.pdf]) in
  ∃ fileRecord analyses,
    FileRoutes.scheduled out = Some (fileRecord, analyses)
    ∧ file_by_id (FileRoutes.store out) (File._id fileRecord) = Some fileRecord
    ∧ File.status fileRecord = File.uploaded
    ∧ db_insights (FileRoutes.complete_analysis Fixtures.env0 fileRecord analyses
                     (FileRoutes.store out))
      = db_insights (FileRoutes.store out).
Proof.
  simpl. eexists _, _. split; [reflexivity|]. split; [reflexivity|].
  split; [reflexivity|].
  refine (proj1 (proj2 (proj2 (completion_status_and_insights Fixtures.env0 _ _ _ _ _ _))) _).
  - reflexivity.
  - reflexivity.
  - repeat constructor.
Defined.

(** C2, as worded: after the upload of one PDF whose analysis is the empty
    object, the record is [analyzed] and no insight refers to it. *)
Lemma analyzed_without_insight :
  option_map File.status (file_by_id Fixtures.db_after_pdf 0) = Some File.analyzed
  ∧ insights_of Fixtures.db_after_pdf 0 = []
  ∧ option_map File.aiAnalysis (file_by_id Fixtures.db_after_pdf 0)
    = Some [JObj [("processingTime", JNum 1200);
                  ("fileUrl", JStr "https://res.cloudinary.com/demo/report.pdf");
                  ("reportType", JStr "Blood Test")]].
Proof. repeat split. Qed.

(** ** Insights created from an analysis *)

Lemma assoc_remove_key_ne (k k' : string) (fs : list (string * JSVal)) :
  k ≠ k' → assoc k' (remove_key k fs) = assoc k' fs.
Proof.
  intros Hne. induction fs as [|[k0 v0] fs IH]; simpl; [reflexivity|].
  destruct (String.eqb k k0) eqn:E; simpl.
  - apply String.eqb_eq in E. subst k0.
    rewrite IH. apply String.eqb_neq in Hne. rewrite String.eqb_sym in Hne.
    by rewrite Hne.
  - by rewrite IH.
Qed.

Lemma get_set_field_eq (o : JSVal) (k : string) (v : JSVal) :
  get (set_field o k v) k = v.
Proof.
  unfold set_field. simpl. induction (spread o) as [|[k0 v0] fs IH]; simpl.
  - by rewrite String.eqb_refl.
  - destruct (String.eqb k k0) eqn:E; simpl; [by rewrite String.eqb_refl|].
    by rewrite E.
Qed.

Lemma get_set_field_ne (o : JSVal) (k k' : string) (v : JSVal) :
  k ≠ k' → get (set_field o k v) k' = get (JObj (spread o)) k'.
Proof.
  intros Hne. unfold set_field. simpl.
  induction (spread o) as [|[k0 v0] fs IH]; simpl.
  - apply String.eqb_neq in Hne. rewrite String.eqb_sym in Hne. by rewrite Hne.
  - destruct (String.eqb k k0) eqn:E; simpl.
    + apply String.eqb_eq in E. subst k0.
      apply String.eqb_neq in Hne. rewrite String.eqb_sym in Hne. rewrite Hne.
      apply assoc_remove_key_ne. by apply String.eqb_neq; rewrite String.eqb_sym.
    + by rewrite IH.
Qed.

Lemma get_spread (o : JSVal) (k : string) : get (JObj (spread o)) k = get o k.
Proof. destruct o; reflexivity. Qed.

Lemma pre_save_id (reads : JSVal → bool) (d : AiInsight.Doc) :
  reads (get (AiInsight.disclaimers d) "aiDisclaimer") = true →
  reads (get (AiInsight.disclaimers d) "medicalDisclaimer") = true →
  AiInsight.pre_save reads d = d.
Proof.
  intros Hai Hmd. unfold AiInsight.pre_save. rewrite Hai. cbn [negb]. cbv zeta.
  by rewrite Hmd.
Qed.

(** With blocks read as their stored values, the hook leaves both set. *)
Lemma pre_save_present (reads : JSVal → bool) (d : AiInsight.Doc) :
  (∀ v, reads v = truthy v) →
  truthy (get (AiInsight.disclaimers (AiInsight.pre_save reads d)) "aiDisclaimer") = true
  ∧ truthy (get (AiInsight.disclaimers (AiInsight.pre_save reads d)) "medicalDisclaimer")
    = true.
Proof.
  intros Hreads. unfold AiInsight.pre_save. cbv zeta. rewrite !Hreads.
  destruct (truthy (get (AiInsight.disclaimers d) "aiDisclaimer")) eqn:Eai;
    cbn [negb].
  - destruct (truthy (get (AiInsight.disclaimers d) "medicalDisclaimer")) eqn:Emd;
      cbn [negb]; [by rewrite Eai, Emd|].
    cbn [AiInsight.disclaimers AiInsight.set_disclaimers]. split.
    + by rewrite get_set_field_ne, get_spread, Eai.
    + by rewrite get_set_field_eq.
  - cbn [AiInsight.disclaimers AiInsight.set_disclaimers].
    rewrite get_set_field_ne, get_spread by discriminate.
    destruct (truthy (get (AiInsight.disclaimers d) "medicalDisclaimer")) eqn:Emd;
      cbn [negb AiInsight.disclaimers AiInsight.set_disclaimers]; split.
    + by rewrite get_set_field_eq.
    + by rewrite get_set_field_ne, get_spread, Emd.
    + by rewrite get_set_field_ne, get_spread, get_set_field_eq.
    + by rewrite get_set_field_eq.
Qed.

(** C9 (as amended). The insight saved for an analysis, for every reading
    of a disclaimer block under which a block that is set reads truthy:
    when the analysis carries no [disclaimers] value, both blocks are the
    two fixed default blocks; when it carries both blocks, they are kept as
    supplied, whatever they hold.  A list field that the analysis lacks is
    the empty list ([recommendations]: two empty lists), a missing (or zero)
    confidence is 85, and the model identifier is the fixed one.  When a
    block reads as its stored value, both blocks are set after the hook. *)
Theorem insight_defaults
    (env : Env) (user : string) (fileId : nat) (reportType : string)
    (analysis : JSVal) :
  (∀ v, truthy v = true → nested_truthy env v = true) →
  let insight :=
    AiInsight.pre_save (nested_truthy env)
      (FileRoutes.new_insight user fileId reportType analysis) in
  let supplied := get analysis "disclaimers" in
  (truthy supplied = false →
     AiInsight.disclaimers insight = GeminiService.disclaimers_default)
  ∧ (truthy (get supplied "aiDisclaimer") = true →
     truthy (get supplied "medicalDisclaimer") = true →
     AiInsight.disclaimers insight = supplied)
  ∧ (truthy (get analysis "keyFindings") = false →
     AiInsight.keyFindings insight = JArr [])
  ∧ (truthy (get analysis "abnormalValues") = false →
     AiInsight.abnormalValues insight = JArr [])
  ∧ (truthy (get analysis "doctorQuestions") = false →
     AiInsight.doctorQuestions insight = JArr [])
  ∧ (truthy (get analysis "recommendations") = false →
     AiInsight.recommendations insight
     = JObj [("lifestyle", JArr []); ("medical", JArr [])])
  ∧ (truthy (get analysis "riskFactors") = false →
     AiInsight.riskFactors insight = JArr [])
  ∧ (truthy (get analysis "followUpSuggestions") = false →
     AiInsight.followUpSuggestions insight = JArr [])
  ∧ (truthy (get analysis "confidence") = false →
     AiInsight.confidence insight = JNum 85)
  ∧ AiInsight.model insight = "gemini-2.5-flash"
  ∧ (∀ db db',
       FileRoutes.save_insight env
         (FileRoutes.new_insight user fileId reportType analysis) db = Some db' →
       db_insights db' = db_insights db ++ [insight])
  ∧ ((∀ v, nested_truthy env v = truthy v) →
     truthy (get (AiInsight.disclaimers insight) "aiDisclaimer") = true
     ∧ truthy (get (AiInsight.disclaimers insight) "medicalDisclaimer") = true).
Proof.
  intros Hreads insight supplied.
  assert (Hother : ∀ d,
            AiInsight.keyFindings (AiInsight.pre_save (nested_truthy env) d)
            = AiInsight.keyFindings d
            ∧ AiInsight.abnormalValues (AiInsight.pre_save (nested_truthy env) d)
              = AiInsight.abnormalValues d
            ∧ AiInsight.doctorQuestions (AiInsight.pre_save (nested_truthy env) d)
              = AiInsight.doctorQuestions d
            ∧ AiInsight.recommendations (AiInsight.pre_save (nested_truthy env) d)
              = AiInsight.recommendations d
            ∧ AiInsight.riskFactors (AiInsight.pre_save (nested_truthy env) d)
              = AiInsight.riskFactors d
            ∧ AiInsight.followUpSuggestions (AiInsight.pre_save (nested_truthy env) d)
              = AiInsight.followUpSuggestions d
            ∧ AiInsight.confidence (AiInsight.pre_save (nested_truthy env) d)
              = AiInsight.confidence d
            ∧ AiInsight.model (AiInsight.pre_save (nested_truthy env) d)
              = AiInsight.model d).
  { intros d. unfold AiInsight.pre_save.
    repeat match goal with |- context [if ?b then _ else _] => destruct b end;
      repeat split. }
  destruct (Hother (FileRoutes.new_insight user fileId reportType analysis))
    as (Hk & Ha & Hd & Hr & Hrf & Hf & Hc & Hm).
  fold insight in Hk, Ha, Hd, Hr, Hrf, Hf, Hc, Hm.
  split; [|split].
  - intros Hnone. subst insight. unfold supplied in *.
    assert (Hdis : AiInsight.disclaimers
                     (FileRoutes.new_insight user fileId reportType analysis)
                   = GeminiService.disclaimers_default).
    { unfold FileRoutes.new_insight, or_else. simpl. by rewrite Hnone. }
    rewrite pre_save_id; [exact Hdis| |]; rewrite Hdis; by apply Hreads.
  - intros Hai Hmd. subst insight. unfold supplied in *.
    assert (Hs : truthy (get analysis "disclaimers") = true).
    { destruct (get analysis "disclaimers"); try discriminate; reflexivity. }
    assert (Hdis : AiInsight.disclaimers
                     (FileRoutes.new_insight user fileId reportType analysis)
                   = get analysis "disclaimers").
    { unfold FileRoutes.new_insight, or_else. simpl. by rewrite Hs. }
    rewrite pre_save_id; [exact Hdis| |]; rewrite Hdis; by apply Hreads.
  - rewrite Hk, Ha, Hd, Hr, Hrf, Hf, Hc, Hm.
    unfold FileRoutes.new_insight, or_else. simpl.
    repeat split; try (intros ->; reflexivity).
    + intros db db'. unfold FileRoutes.save_insight.
      destruct (insight_ok env _ && store_ok env SaveInsight); [|discriminate].
      intros [= <-]. reflexivity.
    + by apply pre_save_present.
    + by apply pre_save_present.
Qed.

Lemma insight_defaults_witness :
  (∀ v, truthy v = true → nested_truthy Fixtures.env0 v = true)
  ∧ truthy (get Fixtures.analysis_ok "disclaimers") = false
  ∧ truthy (get Fixtures.analysis_ok "confidence") = false
  ∧ AiInsight.disclaimers
      (AiInsight.pre_save (nested_truthy Fixtures.env0)
         (FileRoutes.new_insight "u1" 7 "Blood Test" Fixtures.analysis_ok))
    = GeminiService.disclaimers_default
  ∧ AiInsight.confidence
      (AiInsight.pre_save (nested_truthy Fixtures.env0)
         (FileRoutes.new_insight "u1" 7 "Blood Test" Fixtures.analysis_ok))
    = JNum 85.
Proof.
  assert (Hreads : ∀ v, truthy v = true → nested_truthy Fixtures.env0 v = true)
    by (intros v Hv; exact Hv).
  pose proof (insight_defaults Fixtures.env0 "u1" 7 "Blood Test"
                Fixtures.analysis_ok Hreads) as H.
  split; [exact Hreads|]. split; [reflexivity|]. split; [reflexivity|].
  split; [exact (proj1 H eq_refl)|].
  exact (proj1 (proj2 (proj2 (proj2 (proj2 (proj2 (proj2 (proj2 (proj2 H))))))))
           eq_refl).
Defined.

(** C9, as worded: an analysis that supplies its two disclaimer blocks
    without text is saved (the schema accepts it) with both blocks empty,
    whether a block that is not set reads falsy or truthy. *)
Lemma insight_with_blank_disclaimers :
  let blank :=
    FileRoutes.new_insight "u1" 7 "Blood Test" Fixtures.analysis_blank_disclaimers in
  let insight := AiInsight.pre_save truthy blank in
  option_map db_insights (FileRoutes.save_insight Fixtures.env0 blank Fixtures.db0)
  = Some [insight]
  ∧ AiInsight.pre_save (λ _, true) blank = insight
  ∧ AiInsight.block_nonempty (get (AiInsight.disclaimers insight) "aiDisclaimer") = false
  ∧ AiInsight.block_nonempty (get (AiInsight.disclaimers insight) "medicalDisclaimer") = false
  ∧ AiInsight.block_nonempty GeminiService.aiDisclaimer_default = true
  ∧ AiInsight.block_nonempty GeminiService.medicalDisclaimer_default = true.
Proof. repeat split. Qed.

(** ** Vitals *)

(** C4. [POST /api/vitals] answers no request with success: the document
    the handler builds has no [type], no [unit] and no [value], which the
    schema requires, so the save is rejected (or the request is refused for
    its missing [recordedAt]) and nothing is stored.  This holds for the
    body the handler reads ([bloodPressure: {systolic, diastolic}]) and for
    the body of the scenario alike. *)
Theorem vitals_create_never_succeeds
    (to_Date : JSVal → option Z) (cast_String : JSVal → option string)
    (user : string) (body : JSVal) (coll : list Vitals.Doc) :
  let '(resp, coll') := VitalsRoutes.create to_Date cast_String user body coll in
  success resp = false
  ∧ (status resp = 400 ∨ status resp = 500)
  ∧ data resp = None
  ∧ coll' = coll.
Proof.
  assert (Hsave : ∀ recordedAt notes,
            Vitals.save (VitalsRoutes.new_vitals to_Date cast_String user recordedAt notes) coll
            = None).
  { intros recordedAt notes. unfold Vitals.save, Vitals.validate. reflexivity. }
  unfold VitalsRoutes.create.
  destruct body; try (repeat split; by right);
    (destruct (truthy (get _ "recordedAt")); simpl negb; cbv iota;
     [rewrite Hsave; repeat split; by right | repeat split; by left]).
Qed.

(** C4 at two request bodies: the shape the handler reads and the shape of
    the scenario are both answered 500, and nothing is stored. *)
Lemma vitals_create_at_blood_pressure :
  VitalsRoutes.create Fixtures.any_date Fixtures.string_cast "u1"
    Fixtures.body_bloodPressure []
  = (reply 500 false "Failed to record vitals" None, [])
  ∧ VitalsRoutes.create Fixtures.any_date Fixtures.string_cast "u1"
      Fixtures.body_typed []
    = (reply 500 false "Failed to record vitals" None, []).
Proof. split; reflexivity. Qed.

(** The scenario on the model alone: the reading formats as expected, but
    the schema asks a numeric value of every type that is not a subjective
    scale, blood pressure included. *)
Lemma pressure_reading_on_the_schema (Number_toString : Vitals.Number → string) :
  Number_toString (Vitals.Fin 120) = "120" →
  Number_toString (Vitals.Fin 80) = "80" →
  Vitals.formattedValue Number_toString Fixtures.pressure_120_80 = "120/80 mmHg"
  ∧ Vitals.numeric_required Fixtures.pressure_120_80 = true
  ∧ Vitals.validate Fixtures.pressure_120_80 = false.
Proof.
  intros H120 H80. unfold Vitals.formattedValue. simpl. rewrite H120, H80.
  repeat split.
Qed.

Lemma pressure_reading_on_the_schema_witness :
  Fixtures.print_number (Vitals.Fin 120) = "120"
  ∧ Vitals.formattedValue Fixtures.print_number Fixtures.pressure_120_80
    = "120/80 mmHg".
Proof.
  split; [reflexivity|].
  exact (proj1 (pressure_reading_on_the_schema Fixtures.print_number eq_refl eq_refl)).
Defined.

Section BmiUpsert.
Import Vitals.
Variable u : option string.
Variable t : Z.
Variable v : Number.
Hypothesis user_given : present u = true.

Local Abbreviation P := (bmi_in_window u t).
Local Abbreviation f := (apply_bmi_update u (Some t) v).
Local Abbreviation B := (is_bmi_of u).

Lemma same_user_self (d : Doc) : v_user d = u → same_user u d = true.
Proof.
  intros H. unfold same_user. rewrite H. clear H.
  destruct u as [a|]; [apply String.eqb_refl|discriminate user_given].
Qed.

Lemma window_is_bmi (d : Doc) : P d = true → B d = true.
Proof.
  unfold bmi_in_window, is_bmi_of. intros H.
  apply andb_prop in H as [H _]. exact H.
Qed.

Lemma updated_in_window (d : Doc) : P (f d) = true ∧ B (f d) = true.
Proof.
  assert (Hb : B (f d) = true).
  { unfold is_bmi_of. rewrite same_user_self by reflexivity. reflexivity. }
  split; [|exact Hb].
  unfold bmi_in_window. unfold is_bmi_of in Hb. rewrite Hb. simpl.
  unfold day_ms. apply andb_true_intro. split; apply Z.leb_le; lia.
Qed.

Lemma fresh_in_window : P (fresh_bmi u (Some t) v) = true ∧ B (fresh_bmi u (Some t) v) = true.
Proof.
  assert (Hb : B (fresh_bmi u (Some t) v) = true).
  { unfold is_bmi_of. rewrite same_user_self by reflexivity. reflexivity. }
  split; [|exact Hb].
  unfold bmi_in_window. unfold is_bmi_of in Hb. rewrite Hb. simpl.
  unfold day_ms. apply andb_true_intro. split; apply Z.leb_le; lia.
Qed.

Lemma update_first_none (coll : list Doc) :
  update_first P f coll = None → List.filter P coll = [].
Proof.
  induction coll as [|d coll IH]; simpl; [reflexivity|].
  destruct (P d); [discriminate|].
  destruct (update_first P f coll); [discriminate|]. intros _. by apply IH.
Qed.

Lemma update_first_some (coll coll' : list Doc) :
  update_first P f coll = Some coll' →
  length (List.filter P coll') = length (List.filter P coll)
  ∧ length (List.filter P coll) ≠ 0%nat
  ∧ length (List.filter B coll') = length (List.filter B coll)
  ∧ ∃ d, f d ∈ coll'.
Proof.
  revert coll'. induction coll as [|d coll IH]; simpl; intros coll'; [discriminate|].
  destruct (P d) eqn:Ed.
  - intros [= <-]. simpl. destruct (updated_in_window d) as [Hp Hb].
    rewrite Hp, Hb, (window_is_bmi d Ed). simpl.
    repeat split; try lia. exists d. by left.
  - destruct (update_first P f coll) as [c|] eqn:Eu; [|discriminate].
    intros [= <-]. destruct (IH c eq_refl) as (H1 & H2 & H3 & d' & Hd').
    simpl. rewrite Ed. destruct (B d); simpl; repeat split; try lia;
      exists d'; by right.
Qed.

(** The upsert by its effect on the BMI rows. *)
Lemma upsert_counts (coll : list Doc) :
  let coll' := findOneAndUpdate_bmi u t v coll in
  bmi_count u t coll' = Nat.max 1 (bmi_count u t coll)
  ∧ length (List.filter B coll')
    = (length (List.filter B coll)
       + match bmi_count u t coll with O => 1 | S _ => 0 end)%nat
  ∧ ∃ d, d ∈ coll' ∧ B d = true ∧ v_recordedAt d = Some t
         ∧ v_numeric d = Some v ∧ v_unit d = Some "kg/m²"
         ∧ v_source d = "calculated".
Proof.
  unfold findOneAndUpdate_bmi, bmi_count.
  destruct (update_first P f coll) as [c|] eqn:Eu.
  - destruct (update_first_some coll c Eu) as (H1 & H2 & H3 & d & Hd).
    rewrite H1, H3.
    destruct (length (List.filter P coll)) as [|n]; [congruence|].
    repeat split; try lia.
    exists (f d). destruct (updated_in_window d) as [_ Hb].
    repeat split; assumption.
  - pose proof (update_first_none coll Eu) as Hnone. rewrite Hnone.
    rewrite !List.filter_app, !length_app. simpl.
    destruct fresh_in_window as [Hp Hb]. rewrite Hp, Hb, Hnone. simpl.
    repeat split; try lia.
    exists (fresh_bmi u (Some t) v). repeat split; try assumption.
    apply elem_of_app. right. by left.
Qed.

End BmiUpsert.

Lemma latest_satisfies (p : Vitals.Doc → bool) (coll : list Vitals.Doc) :
  ∀ best h,
    (∀ b, best = Some b → p b = true) →
    Vitals.latest p coll best = Some h → p h = true.
Proof.
  induction coll as [|d coll IH]; simpl; intros best h Hbest H; [by apply Hbest|].
  destruct (p d) eqn:Ed; [|by apply (IH best)].
  destruct best as [b|]; apply (IH _ h) in H; try exact H.
  - intros b' [= <-]. destruct (Vitals.later d b); [exact Ed|by apply Hbest].
  - by intros b' [= <-].
Qed.

Lemma latest_found (p : Vitals.Doc → bool) (coll : list Vitals.Doc) :
  ∀ best, (is_Some best ∨ Exists (λ d, p d = true) coll) →
          is_Some (Vitals.latest p coll best).
Proof.
  induction coll as [|d coll IH]; simpl; intros best [Hb|Hex]; try exact Hb.
  - by apply Exists_nil in Hex.
  - destruct (p d); [|by apply IH; left].
    destruct best; apply IH; left; eauto.
  - destruct (p d) eqn:Ed.
    + destruct best; apply IH; left; eauto.
    + apply IH. right. apply Exists_cons in Hex as [Hd|Hex]; [congruence|exact Hex].
Qed.

(** [latest] returns the most recent of the matching documents. *)
Lemma latest_is_most_recent (p : Vitals.Doc → bool) (coll : list Vitals.Doc) :
  ∀ best h,
    Vitals.latest p coll best = Some h →
    (∀ b, best = Some b → Vitals.later b h = false)
    ∧ (∀ d, d ∈ coll → p d = true → Vitals.later d h = false).
Proof.
  assert (Hirr : ∀ a, Vitals.later a a = false).
  { intros a. unfold Vitals.later. destruct (Vitals.v_recordedAt a); [|reflexivity].
    apply Z.ltb_irrefl. }
  assert (Htrans : ∀ a b c, Vitals.later a b = false → Vitals.later b c = false →
                            Vitals.later a c = false).
  { intros a b c. unfold Vitals.later.
    destruct (Vitals.v_recordedAt a), (Vitals.v_recordedAt b),
      (Vitals.v_recordedAt c); try discriminate; try reflexivity.
    rewrite !Z.ltb_ge. lia. }
  assert (Htotal : ∀ a b, Vitals.later a b = true → Vitals.later b a = false).
  { intros a b. unfold Vitals.later.
    destruct (Vitals.v_recordedAt a), (Vitals.v_recordedAt b);
      try discriminate; try reflexivity.
    rewrite Z.ltb_lt, Z.ltb_ge. lia. }
  induction coll as [|d coll IH]; simpl; intros best h H.
  - subst best. split; [intros b [= ->]; apply Hirr|].
    intros d Hd. by apply elem_of_nil in Hd.
  - destruct (p d) eqn:Ed.
    + destruct best as [b|].
      * apply IH in H as [Hb Hc]. specialize (Hb _ eq_refl).
        destruct (Vitals.later d b) eqn:Edb.
        -- split.
           ++ intros b' [= <-]. apply (Htrans _ d); [by apply Htotal|exact Hb].
           ++ intros x Hx Hpx. apply elem_of_cons in Hx as [->|Hx]; [exact Hb|by apply Hc].
        -- split.
           ++ intros b' [= <-]. exact Hb.
           ++ intros x Hx Hpx. apply elem_of_cons in Hx as [->|Hx]; [|by apply Hc].
              by apply (Htrans _ b).
      * apply IH in H as [Hb Hc]. specialize (Hb _ eq_refl).
        split; [discriminate|].
        intros x Hx Hpx. apply elem_of_cons in Hx as [->|Hx]; [exact Hb|by apply Hc].
    + apply IH in H as [Hb Hc]. split; [exact Hb|].
      intros x Hx Hpx. apply elem_of_cons in Hx as [->|Hx]; [congruence|by apply Hc].
Qed.

Lemma ndiv_finite (a b : Q) :
  Qeq_bool b 0 = false →
  Vitals.ndiv (Vitals.Fin a) (Vitals.Fin b) = Vitals.double (a / b).
Proof. intros H. unfold Vitals.ndiv. by rewrite H. Qed.

(** The steps of the BMI computation, each rounded to a double, as long
    as they stay finite and the squared height is not zero. *)
Lemma bmi_value_steps (w hh m s b t : Q) :
  Vitals.double (hh / 100) = Vitals.Fin m →
  Vitals.double (m * m) = Vitals.Fin s →
  ¬ (s == 0)%Q →
  Vitals.double (w / s) = Vitals.Fin b →
  Vitals.double (b * 10) = Vitals.Fin t →
  Vitals.bmi_value (Vitals.Fin w) (Some (Vitals.Fin hh))
  = Vitals.double (inject_Z (Qfloor (t + (1 # 2))) / 10).
Proof.
  intros Hm Hs Hnz Hb Ht. unfold Vitals.bmi_value, Vitals.to_number.
  rewrite (ndiv_finite hh 100) by reflexivity. rewrite Hm.
  change (Vitals.nmul (Vitals.Fin m) (Vitals.Fin m)) with (Vitals.double (m * m)).
  rewrite Hs.
  assert (Hsq : Qeq_bool s 0 = false).
  { apply not_true_is_false. intros Hz. by apply Qeq_bool_eq in Hz. }
  rewrite (ndiv_finite w s Hsq), Hb.
  change (Vitals.nmul (Vitals.Fin b) (Vitals.Fin 10)) with (Vitals.double (b * 10)).
  rewrite Ht. cbn [Vitals.round]. by rewrite ndiv_finite.
Qed.

Lemma validate_user (d : Vitals.Doc) :
  Vitals.validate d = true → Vitals.present (Vitals.v_user d) = true.
Proof.
  unfold Vitals.validate. intros H.
  repeat (apply andb_prop in H as [H _]). exact H.
Qed.






(* ===================================================================== *)
(** * Further properties of the code *)
(* ===================================================================== *)

(** ** The attempt limiter: identities, the hint, the size of the map *)

Lemma limit_call_agree (maxAttempts windowMs : Z) (key : string) (now : Z)
    (a1 a2 : gmap string (list Z)) :
  a1 !! key = a2 !! key →
  (Auth.sensitiveOperationLimit maxAttempts windowMs a1 key now).2
  = (Auth.sensitiveOperationLimit maxAttempts windowMs a2 key now).2
  ∧ (Auth.sensitiveOperationLimit maxAttempts windowMs a1 key now).1 !! key
    = (Auth.sensitiveOperationLimit maxAttempts windowMs a2 key now).1 !! key.
Proof.
  intros H.
  rewrite (limit_call maxAttempts windowMs key a1 now).
  rewrite (limit_call maxAttempts windowMs key a2 now).
  cbv zeta. rewrite H.
  case_bool_decide; simpl; by rewrite !lookup_insert_eq.
Qed.

(** X1. The limiter keeps identities apart: in any sequence of requests,
    the requests of one key are answered exactly as if the requests of all
    other keys had never been made. *)
Theorem limiter_keys_do_not_interfere
    (maxAttempts windowMs : Z) (key : string) (reqs : list (string * Z)) :
  filter (λ e, e.1.1 = key) (Auth.serve maxAttempts windowMs ∅ reqs)
  = Auth.serve maxAttempts windowMs ∅ (filter (λ r, r.1 = key) reqs).
Proof.
  (* the two runs keep the same array for [key] *)
  enough (Hrun : ∀ a1 a2 : gmap string (list Z),
            a1 !! key = a2 !! key →
            filter (λ e, e.1.1 = key) (Auth.serve maxAttempts windowMs a1 reqs)
            = Auth.serve maxAttempts windowMs a2 (filter (λ r, r.1 = key) reqs))
    by (by apply Hrun).
  induction reqs as [|[k now] rest IH]; intros a1 a2 H; [reflexivity|].
  simpl Auth.serve at 1.
  destruct (Auth.sensitiveOperationLimit maxAttempts windowMs a1 k now)
    as [a1' o1] eqn:E1.
  rewrite !filter_cons. simpl.
  destruct (decide (k = key)) as [->|Hne].
  - simpl.
    destruct (Auth.sensitiveOperationLimit maxAttempts windowMs a2 key now)
      as [a2' o2] eqn:E2.
    destruct (limit_call_agree maxAttempts windowMs key now a1 a2 H) as [Ho Ha].
    rewrite E1, E2 in Ho, Ha. simpl in Ho, Ha. subst o2.
    f_equal. by apply IH.
  - apply IH.
    pose proof (limit_call_other maxAttempts windowMs key a1 k now Hne) as Hk.
    rewrite E1 in Hk. simpl in Hk. by rewrite Hk.
Qed.

Lemma ceil_div_mono (x y d : Z) :
  0 < d → x ≤ y → Auth.ceil_div x d ≤ Auth.ceil_div y d.
Proof.
  intros Hd Hxy.
  pose proof (ceil_div_spec x d Hd). pose proof (ceil_div_spec y d Hd). nia.
Qed.

Lemma ceil_div_pos (x d : Z) : 0 < d → 0 < x → 1 ≤ Auth.ceil_div x d.
Proof. intros Hd Hx. pose proof (ceil_div_spec x d Hd). nia. Qed.

(** A rejection, seen from the array of the key. *)
Lemma limit_rejects (maxAttempts windowMs : Z) (key : string) (now : Z)
    (attempts attempts' : gmap string (list Z)) (status : Z) (hint : option Z) :
  Auth.sensitiveOperationLimit maxAttempts windowMs attempts key now
  = (attempts', Auth.Reject status hint) →
  let still := Auth.counted windowMs now (default [] (attempts !! key)) in
  status = 429
  ∧ hint = Auth.retryAfter_hint still windowMs now
  ∧ maxAttempts ≤ Z.of_nat (length still)
  ∧ attempts' = <[key := still]> attempts.
Proof.
  rewrite (limit_call maxAttempts windowMs key attempts now). cbv zeta.
  case_bool_decide; [|discriminate].
  intros [= <- <- <-]. done.
Qed.

(** The arrays of the map never grow beyond [maxAttempts]. *)
Lemma limit_call_bounded (maxAttempts windowMs : Z) (k : string) (now : Z)
    (attempts : gmap string (list Z)) :
  (∀ key, Z.of_nat (length (default [] (attempts !! key))) ≤ Z.max 0 maxAttempts) →
  ∀ key,
    Z.of_nat (length (default []
      ((Auth.sensitiveOperationLimit maxAttempts windowMs attempts k now).1 !! key)))
    ≤ Z.max 0 maxAttempts.
Proof.
  intros Hinv key.
  destruct (decide (k = key)) as [->|Hne].
  - rewrite (limit_call maxAttempts windowMs key attempts now). cbv zeta.
    pose proof (length_filter (λ time, now - windowMs < time)
                  (default [] (attempts !! key))) as Hlen.
    specialize (Hinv key). unfold Auth.counted.
    case_bool_decide; simpl; rewrite lookup_insert_eq; simpl.
    + lia.
    + rewrite length_app. simpl. lia.
  - rewrite (limit_call_other maxAttempts windowMs key attempts k now Hne).
    apply Hinv.
Qed.

Lemma attempts_after_bounded (maxAttempts windowMs : Z) (reqs : list (string * Z)) :
  ∀ attempts : gmap string (list Z),
    (∀ key, Z.of_nat (length (default [] (attempts !! key))) ≤ Z.max 0 maxAttempts) →
    ∀ key,
      Z.of_nat (length (default []
        (Throttle.attempts_after maxAttempts windowMs attempts reqs !! key)))
      ≤ Z.max 0 maxAttempts.
Proof.
  induction reqs as [|[k now] rest IH]; intros attempts Hinv; [exact Hinv|].
  simpl. apply IH. by apply limit_call_bounded.
Qed.

Lemma attempts_after_empty_bounded (maxAttempts windowMs : Z)
    (reqs : list (string * Z)) (key : string) :
  Z.of_nat (length (default []
    (Throttle.attempts_after maxAttempts windowMs ∅ reqs !! key)))
  ≤ Z.max 0 maxAttempts.
Proof.
  apply attempts_after_bounded. intros k. rewrite lookup_empty. simpl. lia.
Qed.

(** X2. With a limit of at least one attempt, every rejection by the
    limiter, at a clock reading that is not before the attempts it has
    recorded for the key, has status 429 and carries a [retryAfter] that is
    a number, of at least one second and at most the window length in
    seconds, rounded up.  With a limit of zero or less, every request
    served by the limiter (started on the empty map) is rejected with
    status 429 and a [retryAfter] that is NaN. *)
Theorem limiter_retry_after_bounds (maxAttempts windowMs : Z) :
  (0 < maxAttempts →
   ∀ (attempts attempts' : gmap string (list Z)) (key : string)
     (now status : Z) (hint : option Z),
     Forall (λ t, t ≤ now) (default [] (attempts !! key)) →
     Auth.sensitiveOperationLimit maxAttempts windowMs attempts key now
     = (attempts', Auth.Reject status hint) →
     status = 429 ∧ ∃ n, hint = Some n ∧ 1 ≤ n ≤ Auth.ceil_div windowMs 1000)
  ∧ (maxAttempts ≤ 0 →
     ∀ (reqs : list (string * Z)) (key : string) (now : Z),
       (Auth.sensitiveOperationLimit maxAttempts windowMs
          (Throttle.attempts_after maxAttempts windowMs ∅ reqs) key now).2
       = Auth.Reject 429 None).
Proof.
  split.
  - intros Hmax attempts attempts' key now status hint Hpast Hcall.
    apply limit_rejects in Hcall as (-> & Hhint & Hfull & _).
    split; [reflexivity|].
    unfold Auth.retryAfter_hint in Hhint.
    destruct (Auth.counted windowMs now (default [] (attempts !! key)))
      as [|oldest tl] eqn:E; [simpl in Hfull; lia|].
    exists (Auth.ceil_div (oldest + windowMs - now) 1000).
    split; [exact Hhint|].
    assert (Hin : oldest ∈ Auth.counted windowMs now (default [] (attempts !! key))).
    { rewrite E. apply list_elem_of_here. }
    unfold Auth.counted in Hin. apply list_elem_of_filter in Hin as [Hnew Hmem].
    rewrite Forall_forall in Hpast. specialize (Hpast _ Hmem). simpl in Hpast.
    split.
    + apply ceil_div_pos; lia.
    + apply ceil_div_mono; lia.
  - intros Hmax reqs key now.
    pose proof (attempts_after_empty_bounded maxAttempts windowMs reqs key) as Hinv.
    rewrite (limit_call maxAttempts windowMs key _ now). cbv zeta.
    destruct (default [] (Throttle.attempts_after maxAttempts windowMs ∅ reqs !! key))
      as [|time times]; [|simpl in Hinv; lia].
    unfold Auth.counted. rewrite filter_nil.
    case_bool_decide as Hfull; [reflexivity|]. simpl in Hfull. lia.
Qed.

Lemma limiter_retry_after_bounds_witness :
  Auth.sensitiveOperationLimit 2 900000 {[ "u" := [0; 1000] ]} "u" 60000
  = ({[ "u" := [0; 1000] ]}, Auth.Reject 429 (Some 840))
  ∧ (∃ n, Some 840 = Some n ∧ 1 ≤ n ≤ Auth.ceil_div 900000 1000)
  ∧ Auth.sensitiveOperationLimit 0 900000 ∅ "u" 60000
    = ({[ "u" := [] ]}, Auth.Reject 429 None).
Proof.
  assert (Hcall :
    Auth.sensitiveOperationLimit 2 900000 {[ "u" := [0; 1000] ]} "u" 60000
    = ({[ "u" := [0; 1000] ]}, Auth.Reject 429 (Some 840))).
  { unfold Auth.sensitiveOperationLimit. rewrite lookup_singleton_eq. simpl.
    rewrite lookup_insert_eq. simpl. rewrite insert_singleton_eq.
    reflexivity. }
  split; [exact Hcall|]. split.
  - refine (proj2 (proj1 (limiter_retry_after_bounds 2 900000) _
                     {[ "u" := [0; 1000] ]} _ "u" 60000 429 (Some 840) _ Hcall)).
    + lia.
    + rewrite lookup_singleton_eq. simpl. repeat constructor; lia.
  - unfold Auth.sensitiveOperationLimit. rewrite lookup_empty.
    rewrite lookup_insert_eq. reflexivity.
Defined.

(** X3. The hint of a rejection is enough: when the limiter, after any
    sequence of requests, rejects a request with [retryAfter] n, the next
    request of the same key is let through if it comes n seconds later or
    more, whatever requests of other keys were served in between (they leave
    the array of the key as it is). *)
Theorem limiter_retry_after_is_enough
    (maxAttempts windowMs : Z) (reqs : list (string * Z)) (key : string)
    (now now' n : Z) (attempts1 attempts2 : gmap string (list Z)) :
  Auth.sensitiveOperationLimit maxAttempts windowMs
    (Throttle.attempts_after maxAttempts windowMs ∅ reqs) key now
  = (attempts1, Auth.Reject 429 (Some n)) →
  attempts2 !! key = attempts1 !! key →
  now + 1000 * n ≤ now' →
  (Auth.sensitiveOperationLimit maxAttempts windowMs attempts2 key now').2
  = Auth.Next.
Proof.
  intros Hcall Hsame Hlater.
  rewrite (proj1 (limit_call_agree maxAttempts windowMs key now' _ _ Hsame)).
  clear attempts2 Hsame.
  pose proof (attempts_after_empty_bounded maxAttempts windowMs reqs key) as Hinv.
  apply limit_rejects in Hcall as (_ & Hhint & Hfull & ->).
  set (times := default [] (Throttle.attempts_after maxAttempts windowMs ∅ reqs !! key)) in *.
  pose proof (length_filter (λ time, now - windowMs < time) times) as Hlen.
  fold (Auth.counted windowMs now times) in Hlen.
  destruct (Auth.counted windowMs now times) as [|oldest tl] eqn:E;
    [discriminate|].
  simpl in Hhint. injection Hhint as ->.
  rewrite (limit_call maxAttempts windowMs key _ now'). cbv zeta.
  rewrite lookup_insert_eq. simpl default.
  pose proof (ceil_div_spec (oldest + windowMs - now) 1000 ltac:(lia)) as Hc.
  assert (Hdrop : (length (Auth.counted windowMs now' (oldest :: tl)) ≤ length tl)%nat).
  { unfold Auth.counted. rewrite filter_cons. case_decide; [lia|].
    apply length_filter. }
  simpl in Hfull, Hlen.
  case_bool_decide; [lia|reflexivity].
Qed.

Lemma limiter_retry_after_is_enough_witness :
  Auth.sensitiveOperationLimit 2 900000
    (Throttle.attempts_after 2 900000 ∅ [("u", 0); ("u", 1000)]) "u" 60000
  = (Throttle.attempts_after 2 900000 ∅ [("u", 0); ("u", 1000)],
     Auth.Reject 429 (Some 840))
  ∧ (Auth.sensitiveOperationLimit 2 900000
       (Throttle.attempts_after 2 900000 ∅ [("u", 0); ("u", 1000)]) "u"
       (60000 + 1000 * 840)).2
    = Auth.Next.
Proof.
  assert (Hmap : Throttle.attempts_after 2 900000 ∅ [("u", 0); ("u", 1000)]
                 = {[ "u" := [0; 1000] ]}).
  { simpl. unfold Auth.sensitiveOperationLimit.
    rewrite lookup_empty. simpl. rewrite !lookup_insert_eq. simpl.
    rewrite !insert_insert_eq. rewrite insert_empty. reflexivity. }
  assert (Hcall :
    Auth.sensitiveOperationLimit 2 900000
      (Throttle.attempts_after 2 900000 ∅ [("u", 0); ("u", 1000)]) "u" 60000
    = (Throttle.attempts_after 2 900000 ∅ [("u", 0); ("u", 1000)],
       Auth.Reject 429 (Some 840))).
  { rewrite Hmap. unfold Auth.sensitiveOperationLimit.
    rewrite lookup_singleton_eq. simpl.
    rewrite lookup_insert_eq. simpl. rewrite insert_singleton_eq.
    reflexivity. }
  split; [exact Hcall|].
  apply (limiter_retry_after_is_enough 2 900000 [("u", 0); ("u", 1000)] "u"
           60000 (60000 + 1000 * 840) 840 _ _ Hcall eq_refl).
  lia.
Defined.

Lemma stored_were_admitted (maxAttempts windowMs : Z) (key : string)
    (reqs : list (string * Z)) :
  ∀ (attempts : gmap string (list Z)) (t : Z),
    t ∈ default [] (Throttle.attempts_after maxAttempts windowMs attempts reqs !! key) →
    t ∈ default [] (attempts !! key)
    ∨ t ∈ Auth.admitted key (Auth.serve maxAttempts windowMs attempts reqs).
Proof.
  induction reqs as [|[k now] rest IH]; intros attempts t Ht; [by left|].
  simpl in Ht |- *.
  destruct (Auth.sensitiveOperationLimit maxAttempts windowMs attempts k now)
    as [attempts' o] eqn:E.
  simpl in Ht. simpl Auth.admitted.
  apply IH in Ht as [Ht|Ht].
  - destruct (decide (k = key)) as [->|Hne].
    + rewrite String.eqb_refl.
      rewrite (limit_call maxAttempts windowMs key attempts now) in E.
      cbv zeta in E. unfold Auth.counted in E.
      case_bool_decide; injection E as <- <-;
        rewrite lookup_insert_eq in Ht; simpl in Ht |- *.
      * apply list_elem_of_filter in Ht as [_ Ht]. by left.
      * apply elem_of_app in Ht as [Ht|Ht].
        -- apply list_elem_of_filter in Ht as [_ Ht]. by left.
        -- apply list_elem_of_singleton in Ht as ->. right. apply list_elem_of_here.
    + pose proof (limit_call_other maxAttempts windowMs key attempts k now Hne) as Hk.
      rewrite E in Hk. simpl in Hk. rewrite Hk in Ht. by left.
  - right. destruct (String.eqb k key && Auth.is_next o); [|exact Ht].
    by apply list_elem_of_further.
Qed.

(** X4. What the limiter keeps: after any sequence of requests the array
    of a key holds at most [maxAttempts] time stamps, each of them the clock
    reading of a request of that key that was let through. *)
Theorem limiter_keeps_admitted_attempts_only
    (maxAttempts windowMs : Z) (reqs : list (string * Z)) (key : string) :
  let times :=
    default [] (Throttle.attempts_after maxAttempts windowMs ∅ reqs !! key) in
  Z.of_nat (length times) ≤ Z.max 0 maxAttempts
  ∧ ∀ t, t ∈ times →
         t ∈ Auth.admitted key (Auth.serve maxAttempts windowMs ∅ reqs).
Proof.
  split; [apply attempts_after_empty_bounded|].
  intros t Ht. apply stored_were_admitted in Ht as [Ht|Ht]; [|exact Ht].
  rewrite lookup_empty in Ht. simpl in Ht. by apply elem_of_nil in Ht.
Qed.

(** ** The token checks *)

Lemma split_no_separator (sep : ascii) (s : string) :
  GeminiService.occurs sep s = false → AuthTokens.split sep s = [s].
Proof.
  induction s as [|c s IH]; simpl; [reflexivity|].
  intros H. apply orb_false_elim in H as [Hc Hs].
  rewrite Hc, (IH Hs). reflexivity.
Qed.

Lemma split_at_separator (sep : ascii) (a b : string) :
  GeminiService.occurs sep a = false →
  AuthTokens.split sep (String.append a (String sep b))
  = a :: AuthTokens.split sep b.
Proof.
  induction a as [|c a IH]; intros H; sapp.
  - by rewrite Ascii.eqb_refl.
  - simpl in H. apply orb_false_elim in H as [Hc Ha].
    rewrite Hc, (IH Ha). reflexivity.
Qed.

Lemma append_not_empty (a b : string) (c : ascii) :
  String.eqb (String.append a (String c b)) EmptyString = false.
Proof. destruct a; reflexivity. Qed.

(** The token of a header of two words, and of one with more words. *)
Lemma token_of_two_words (scheme token : string) :
  GeminiService.occurs " "%char scheme = false →
  GeminiService.occurs " "%char token = false →
  AuthTokens.token_of (Some (String.append scheme (String " " token)))
  = Some token.
Proof.
  intros Hs Ht. unfold AuthTokens.token_of.
  rewrite append_not_empty, (split_at_separator _ _ _ Hs).
  by rewrite (split_no_separator _ _ Ht).
Qed.

Lemma token_of_more_words (scheme token rest : string) :
  GeminiService.occurs " "%char scheme = false →
  GeminiService.occurs " "%char token = false →
  AuthTokens.token_of
    (Some (String.append scheme
             (String " " (String.append token (String " " rest)))))
  = Some token.
Proof.
  intros Hs Ht. unfold AuthTokens.token_of.
  rewrite append_not_empty, (split_at_separator _ _ _ Hs).
  by rewrite (split_at_separator _ _ _ Ht).
Qed.

Lemma token_of_one_word (word : string) :
  GeminiService.occurs " "%char word = false →
  AuthTokens.has_token (AuthTokens.token_of (Some word)) = false.
Proof.
  intros H. unfold AuthTokens.token_of.
  destruct (String.eqb word EmptyString) eqn:E.
  - apply String.eqb_eq in E as ->. reflexivity.
  - by rewrite (split_no_separator _ _ H).
Qed.

(** X5. [optionalAuth] never refuses a request, and it identifies the
    caller exactly when [authenticateToken] would let the same request
    through, as the same user. *)
Theorem optionalAuth_agrees_with_authenticateToken
    (User : Type) (jwt_verify : string → AuthTokens.Result JSVal)
    (findById : JSVal → AuthTokens.Result (option User))
    (authHeader : option string) :
  AuthTokens.optionalAuth User jwt_verify findById authHeader
  = match AuthTokens.authenticateToken User jwt_verify findById authHeader with
    | AuthTokens.Proceed user => Some user
    | AuthTokens.Denied _ _ => None
    end.
Proof.
  assert (Herr : ∀ name,
            match AuthTokens.on_error User name with
            | AuthTokens.Proceed user => Some user
            | AuthTokens.Denied _ _ => None
            end = None).
  { intros name. unfold AuthTokens.on_error.
    by repeat destruct (String.eqb _ _). }
  unfold AuthTokens.optionalAuth, AuthTokens.authenticateToken.
  destruct (AuthTokens.has_token (AuthTokens.token_of authHeader)); simpl;
    [|reflexivity].
  destruct (jwt_verify _) as [decoded|name]; [|by rewrite Herr].
  destruct (AuthTokens.userId_of decoded) as [userId|name]; [|by rewrite Herr].
  destruct (findById userId) as [[user|]|name]; [reflexivity|reflexivity|].
  by rewrite Herr.
Qed.

(** X6. [authenticateToken] does not look at the kind of token: a token
    that [verifyRefreshToken] accepts as a refresh token is also accepted
    as an access token, for the user its payload names. *)
Theorem refresh_token_passes_authenticateToken
    (User : Type) (jwt_verify : string → AuthTokens.Result JSVal)
    (findById : JSVal → AuthTokens.Result (option User))
    (token : string) (decoded : JSVal) (user : User) :
  token ≠ EmptyString →
  GeminiService.occurs " "%char token = false →
  AuthTokens.verifyRefreshToken jwt_verify token = AuthTokens.Ok decoded →
  findById (get decoded "userId") = AuthTokens.Ok (Some user) →
  get decoded "type" = JStr "refresh"
  ∧ AuthTokens.authenticateToken User jwt_verify findById
      (Some (String.append "Bearer " token))
    = AuthTokens.Proceed user.
Proof.
  intros Hne Hsp Hrefresh Huser.
  unfold AuthTokens.verifyRefreshToken in Hrefresh.
  destruct (jwt_verify token) as [d|name] eqn:Hverify; [|discriminate].
  assert (Hd : d = decoded ∧ get d "type" = JStr "refresh"
               ∧ AuthTokens.userId_of d = AuthTokens.Ok (get d "userId")).
  { destruct d; try discriminate;
      (destruct (get _ "type") as [| |?|?|s|?|?] eqn:Ht; try discriminate;
       destruct (decide (s = "refresh")) as [->|Hs];
       [injection Hrefresh as <-; done|];
       exfalso; revert Hrefresh; clear -Hs;
       repeat (destruct s as [|[[] [] [] [] [] [] [] []] s]; try discriminate);
       congruence). }
  destruct Hd as (-> & Htype & Hid).
  split; [exact Htype|].
  unfold AuthTokens.authenticateToken.
  change (String.append "Bearer " token)
    with (String.append "Bearer" (String " " token)).
  rewrite (token_of_two_words "Bearer" token eq_refl Hsp). simpl.
  destruct (String.eqb token EmptyString) eqn:E;
    [by apply String.eqb_eq in E|].
  simpl. by rewrite Hverify, Hid, Huser.
Qed.

Lemma refresh_token_passes_authenticateToken_witness :
  AuthTokens.verifyRefreshToken Fixtures2.verify "refresh.u1"
  = AuthTokens.Ok (JObj [("userId", JStr "u1"); ("type", JStr "refresh")])
  ∧ AuthTokens.authenticateToken string Fixtures2.verify Fixtures2.users
      (Some "Bearer refresh.u1")
    = AuthTokens.Proceed "u1".
Proof.
  split; [reflexivity|].
  apply (refresh_token_passes_authenticateToken string Fixtures2.verify
           Fixtures2.users "refresh.u1"
           (JObj [("userId", JStr "u1"); ("type", JStr "refresh")]) "u1");
    [discriminate|reflexivity|reflexivity|reflexivity].
Defined.

(** X7. [authenticateToken] takes the second word of the [authorization]
    header as the token: the first word (the scheme) is not looked at, and
    neither is anything after a second space; a header of one word, or no
    header, is answered 401 "Access token is required". *)
Theorem authenticateToken_reads_second_word
    (User : Type) (jwt_verify : string → AuthTokens.Result JSVal)
    (findById : JSVal → AuthTokens.Result (option User))
    (scheme token rest : string) :
  GeminiService.occurs " "%char scheme = false →
  GeminiService.occurs " "%char token = false →
  let auth := AuthTokens.authenticateToken User jwt_verify findById in
  auth (Some (String.append scheme (String " " token)))
  = auth (Some (String.append "Bearer " token))
  ∧ auth (Some (String.append scheme
                  (String " " (String.append token (String " " rest)))))
    = auth (Some (String.append "Bearer " token))
  ∧ auth (Some scheme) = AuthTokens.Denied 401 "Access token is required"
  ∧ auth None = AuthTokens.Denied 401 "Access token is required".
Proof.
  intros Hs Ht auth. unfold auth, AuthTokens.authenticateToken.
  change (String.append "Bearer " token)
    with (String.append "Bearer" (String " " token)).
  rewrite (token_of_two_words "Bearer" token eq_refl Ht).
  rewrite (token_of_two_words scheme token Hs Ht).
  rewrite (token_of_more_words scheme token rest Hs Ht).
  rewrite (token_of_one_word scheme Hs).
  done.
Qed.

Lemma authenticateToken_reads_second_word_witness :
  AuthTokens.authenticateToken string Fixtures2.verify Fixtures2.users
    (Some "Basic access.u1 trailing words")
  = AuthTokens.Proceed "u1"
  ∧ AuthTokens.authenticateToken string Fixtures2.verify Fixtures2.users
      (Some "Bearer access.u1")
    = AuthTokens.Proceed "u1".
Proof.
  split; [|reflexivity].
  exact (proj1 (proj2 (authenticateToken_reads_second_word string
           Fixtures2.verify Fixtures2.users "Basic" "access.u1"
           "trailing words" eq_refl eq_refl))).
Defined.

(** ** The MIME type and the instructions sent to the model *)








Lemma prefix_occurs (c : ascii) (p : string) :
  GeminiService.occurs c p = true →
  ∀ s, String.prefix p s = true → GeminiService.occurs c s = true.
Proof.
  induction p as [|a p IH]; [discriminate|].
  intros Hp [|b s]; [discriminate|]. cbn [String.prefix].
  destruct (Ascii.ascii_dec a b) as [<-|]; [|discriminate].
  intros Hs. simpl in Hp |- *.
  destruct (Ascii.eqb a c); [reflexivity|]. simpl in Hp |- *. by apply IH.
Qed.

Lemma image_or_pdf_slash (mime : string) :
  FileRoutes.image_or_pdf mime = true → GeminiService.occurs "/"%char mime = true.
Proof.
  unfold FileRoutes.image_or_pdf, FileRoutes.startsWith.
  intros H. apply orb_prop in H as [H|H].
  - by apply (prefix_occurs "/" "image/").
  - apply String.eqb_eq in H as ->. reflexivity.
Qed.

(** X9. A file that the filter of the upload route lets through keeps its
    MIME type on the way to the model: [getMimeType] returns the
    [mimetype] of the file as it is. *)
Theorem accepted_file_keeps_its_mime_type (file : IncomingFile) :
  FileRoutes.fileFilter file = None →
  GeminiTables.getMimeType (mimetype file) = GeminiTables.Text (mimetype file).
Proof.
  unfold FileRoutes.fileFilter.
  destruct (FileRoutes.image_or_pdf (mimetype file)) eqn:E; [|discriminate].
  intros _. unfold GeminiTables.getMimeType.
  by rewrite (image_or_pdf_slash _ E).
Qed.

Lemma accepted_file_keeps_its_mime_type_witness :
  FileRoutes.fileFilter Fixtures.scan = None
  ∧ GeminiTables.getMimeType "image/png" = GeminiTables.Text "image/png".
Proof.
  split; [reflexivity|].
  exact (accepted_file_keeps_its_mime_type Fixtures.scan eq_refl).
Defined.

Lemma instructions_of_accepted_types (reportType : string) :
  existsb (String.eqb reportType) File.reportType_enum = true →
  GeminiTables.getReportTypeSpecificInstructions reportType
  = GeminiTables.Text GeminiTables.generic_instructions.
Proof.
  intros H. apply existsb_exists in H as (t & Hin & Heq).
  apply String.eqb_eq in Heq as ->. simpl in Hin.
  repeat (destruct Hin as [<-|Hin]; [by vm_compute|]).
  destruct Hin.
Qed.

(** X10. The instruction blocks for particular report types are out of
    reach of an upload: their keys ([blood_test], [x_ray], ...) are none of
    the report types the file schema accepts ([Blood Test], [X-Ray], ...),
    so for every upload that is answered with success
    [getReportTypeSpecificInstructions] yields the generic block. *)
Theorem accepted_upload_gets_generic_instructions
    (env : Env) (db : DB) (req : FileRoutes.UploadRequest) :
  success (FileRoutes.response (FileRoutes.upload_route env db req)) = true →
  existsb (String.eqb (FileRoutes.text_of (FileRoutes.body_reportType req)))
    File.reportType_enum = true
  ∧ GeminiTables.getReportTypeSpecificInstructions
      (FileRoutes.text_of (FileRoutes.body_reportType req))
    = GeminiTables.Text GeminiTables.generic_instructions.
Proof.
  intros Hok.
  assert (Henum :
    existsb (String.eqb (FileRoutes.text_of (FileRoutes.body_reportType req)))
      File.reportType_enum = true).
  { unfold FileRoutes.upload_route in Hok.
    destruct (FileRoutes.multer_array 5 (FileRoutes.parts req)) as [files|e];
      [|discriminate].
    unfold FileRoutes.upload_handler in Hok.
    destruct files as [|f files]; [discriminate|].
    destruct (negb _ || negb _); [discriminate|].
    destruct (FileRoutes.process_files _ _ _ _) as [uploaded promises].
    destruct (File.validate _ && _) eqn:E; [|discriminate].
    apply andb_prop in E as [E _]. unfold File.validate in E.
    apply andb_prop in E as [E _]. apply andb_prop in E as [E _].
    apply andb_prop in E as [_ E]. exact E. }
  split; [exact Henum|by apply instructions_of_accepted_types].
Qed.

Lemma accepted_upload_gets_generic_instructions_witness :
  success (FileRoutes.response
             (FileRoutes.upload_route Fixtures.env0 Fixtures.db0
                (Fixtures.upload_of [Fixtures.pdf]))) = true
  ∧ GeminiTables.getReportTypeSpecificInstructions "Blood Test"
    = GeminiTables.Text GeminiTables.generic_instructions
  ∧ GeminiTables.own "blood_test" GeminiTables.instructions ≠ None.
Proof.
  split; [reflexivity|]. split; [|discriminate].
  exact (proj2 (accepted_upload_gets_generic_instructions Fixtures.env0
                  Fixtures.db0 (Fixtures.upload_of [Fixtures.pdf]) eq_refl)).
Defined.

(** ** The analysis of one stored file *)

Lemma get_put_eq (k : string) (v : JSVal) (fs : list (string * JSVal)) :
  get (JObj (put k v fs)) k = v.
Proof. exact (get_set_field_eq (JObj fs) k v). Qed.

Lemma get_put_ne (k k' : string) (v : JSVal) (fs : list (string * JSVal)) :
  k ≠ k' → get (JObj (put k v fs)) k' = get (JObj fs) k'.
Proof. intros H. exact (get_set_field_ne (JObj fs) k k' v H). Qed.

(** X11. [analyzeMedicalReportFromUrl] resolves exactly when the download
    and the model call do.  Its result always carries the [reportType] and
    the [fileUrl] of the call and the elapsed time as [processingTime],
    whatever the model's answer says about these three keys; every other
    key reads as in the parsed answer. *)
Theorem analysis_carries_the_request
    (env : Env) (fileUrl fileType reportType : string) :
  match GeminiAdapter.analyzeMedicalReportFromUrl env fileUrl fileType reportType with
  | None => generateContent env fileUrl fileType reportType = None
  | Some result =>
      ∃ text elapsed,
        generateContent env fileUrl fileType reportType = Some (text, elapsed)
        ∧ get result "reportType" = JStr reportType
        ∧ get result "fileUrl" = JStr fileUrl
        ∧ get result "processingTime" = JNum (inject_Z elapsed)
        ∧ ∀ k, k ≠ "reportType" → k ≠ "fileUrl" → k ≠ "processingTime" →
               get result k
               = get (GeminiService.parseGeminiResponse (JSON_parse env) text) k
  end.
Proof.
  unfold GeminiAdapter.analyzeMedicalReportFromUrl.
  destruct (generateContent env fileUrl fileType reportType)
    as [[text elapsed]|]; [|reflexivity].
  exists text, elapsed. split; [reflexivity|].
  split; [apply get_put_eq|].
  split; [rewrite get_put_ne by discriminate; apply get_put_eq|].
  split; [rewrite !get_put_ne by discriminate; apply get_put_eq|].
  intros k H1 H2 H3.
  rewrite !get_put_ne by congruence. apply get_spread.
Qed.

Lemma append_length (a b : string) :
  String.length (String.append a b) = (String.length a + String.length b)%nat.
Proof. induction a as [|c a IH]; sapp; [reflexivity|]. by rewrite IH. Qed.

Lemma substring_length_le (n : nat) (s : string) :
  (String.length (String.substring 0 n s) ≤ n)%nat.
Proof.
  revert s. induction n as [|n IH]; intros [|c s]; simpl; try lia.
  specialize (IH s). lia.
Qed.

(** X12. An answer of the model in which no closing brace follows an
    opening one still gives an analysis that the upload route turns into an
    insight: the queued analysis is not null and passes the summary guard;
    the insight built from it has the first 500 characters of the answer and
    three dots as English summary (at most 503 characters), the one generic
    question, confidence 70 and the two default disclaimer blocks, which
    the pre-save hook leaves as they are. *)
Theorem prose_answer_still_gives_an_insight
    (env : Env) (user : string) (fileId : nat)
    (url mime reportType text : string) (elapsed : Z) :
  generateContent env url mime reportType = Some (text, elapsed) →
  GeminiService.match_json text = None →
  (∀ v, truthy v = true → nested_truthy env v = true) →
  let analysis := FileRoutes.queued_analysis env url mime reportType in
  let insight := FileRoutes.new_insight user fileId reportType analysis in
  FileRoutes.is_null analysis = false
  ∧ FileRoutes.has_summary analysis = true
  ∧ (∃ english,
       get (AiInsight.summary insight) "english" = JStr english
       ∧ english = String.append (String.substring 0 500 text) "..."
       ∧ (String.length english ≤ 503)%nat)
  ∧ AiInsight.doctorQuestions insight = JArr [GeminiService.generic_question]
  ∧ AiInsight.confidence insight = JNum 70
  ∧ AiInsight.disclaimers insight = GeminiService.disclaimers_default
  ∧ AiInsight.processingTime insight = JNum (inject_Z elapsed)
  ∧ AiInsight.pre_save (nested_truthy env) insight = insight.
Proof.
  intros Hgen Hnone Hreads analysis insight.
  assert (Ha : analysis
               = JObj (put "reportType" (JStr reportType)
                        (put "fileUrl" (JStr url)
                          (put "processingTime" (JNum (inject_Z elapsed))
                            (spread (GeminiService.createFallbackResponse text)))))).
  { unfold analysis, FileRoutes.queued_analysis,
      GeminiAdapter.analyzeMedicalReportFromUrl.
    rewrite Hgen. unfold GeminiService.parseGeminiResponse.
    by rewrite Hnone. }
  assert (Hget : ∀ k, k ≠ "reportType" → k ≠ "fileUrl" → k ≠ "processingTime" →
                      get analysis k
                      = get (GeminiService.createFallbackResponse text) k).
  { intros k H1 H2 H3. rewrite Ha.
    rewrite !get_put_ne by congruence. apply get_spread. }
  assert (Htime : get analysis "processingTime" = JNum (inject_Z elapsed)).
  { rewrite Ha. rewrite !get_put_ne by discriminate. apply get_put_eq. }
  assert (Hdis : AiInsight.disclaimers insight = GeminiService.disclaimers_default).
  { unfold insight, FileRoutes.new_insight. simpl.
    rewrite Hget by discriminate. reflexivity. }
  split; [by rewrite Ha|].
  split.
  { unfold FileRoutes.has_summary. rewrite Hget by discriminate.
    by rewrite Ha. }
  split.
  { eexists. unfold insight, FileRoutes.new_insight. simpl.
    rewrite Hget by discriminate. split; [reflexivity|]. split; [reflexivity|].
    rewrite append_length. simpl.
    pose proof (substring_length_le 500 text). lia. }
  split. { unfold insight, FileRoutes.new_insight. simpl.
           rewrite Hget by discriminate. reflexivity. }
  split. { unfold insight, FileRoutes.new_insight. simpl.
           rewrite Hget by discriminate. reflexivity. }
  split; [exact Hdis|].
  split.
  { unfold insight, FileRoutes.new_insight. simpl. rewrite Htime.
    unfold or_else. simpl.
    destruct (Qeq_bool (inject_Z elapsed) 0) eqn:E; [|reflexivity].
    simpl. apply Qeq_bool_eq in E.
    assert (elapsed = 0) as -> by (by apply (inject_Z_injective elapsed 0)).
    reflexivity. }
  apply pre_save_id; rewrite Hdis; by apply Hreads.
Qed.

Lemma prose_answer_still_gives_an_insight_witness :
  GeminiService.match_json "The report looks normal." = None
  ∧ AiInsight.summary
      (FileRoutes.new_insight "u1" 0 "Blood Test"
         (FileRoutes.queued_analysis Fixtures2.env_prose
            "https://res.cloudinary.com/demo/report.pdf" "application/pdf"
            "Blood Test"))
    = GeminiService.bilingual "The report looks normal...."
        "AI analysis complete. Please consult your doctor for detailed explanation."
  ∧ FileRoutes.has_summary
      (FileRoutes.queued_analysis Fixtures2.env_prose
         "https://res.cloudinary.com/demo/report.pdf" "application/pdf"
         "Blood Test") = true.
Proof.
  split; [reflexivity|]. split; [reflexivity|].
  refine (proj1 (proj2 (prose_answer_still_gives_an_insight Fixtures2.env_prose
            "u1" 0 "https://res.cloudinary.com/demo/report.pdf"
            "application/pdf" "Blood Test" "The report looks normal." 900
            eq_refl eq_refl _))).
  intros v Hv. exact Hv.
Defined.

(** ** The file routes: what they leave alone *)

(** X13. [GET /:id/download] redirects a caller only to a stored file of a
    record that the caller owns: the location of every redirect is the URL
    of an entry of [files] of a record with the requested id whose [user]
    is the caller, whatever [parseInt] reads from the index. *)
Theorem download_serves_own_files_only
    (parseInt : string → option Z) (env : Env) (db : DB) (user : string)
    (id : nat) (index : option string) (location : string) :
  FileRoutes.download_route parseInt env db user id index
  = FileRoutes.Redirect location →
  ∃ file entry,
    file ∈ db_files db ∧ File._id file = id ∧ File.user file = user
    ∧ entry ∈ File.files file ∧ File.url entry = location.
Proof.
  unfold FileRoutes.download_route.
  destruct (negb (store_ok env FindFile)); [discriminate|].
  destruct (find_file db id user) as [file|] eqn:Hfind; [|discriminate].
  destruct (Z.leb _ _); [discriminate|].
  destruct (Z.ltb _ 0); [discriminate|].
  destruct (File.files file !! _) as [entry|] eqn:Hentry; [|discriminate].
  intros [= <-]. exists file, entry.
  unfold find_file in Hfind. apply List.find_some in Hfind as [Hin Hp].
  apply andb_prop in Hp as [Hid Hu].
  apply Nat.eqb_eq in Hid. apply String.eqb_eq in Hu.
  repeat split; try assumption.
  - by apply list_elem_of_In.
  - by apply list_elem_of_lookup_2 in Hentry.
Qed.

Lemma download_serves_own_files_only_witness :
  FileRoutes.download_route Fixtures.parseInt Fixtures.env0 Fixtures2.db78
    "u1" 7 (Some "1")
  = FileRoutes.Redirect "https://res.cloudinary.com/demo/b.pdf"
  ∧ FileRoutes.download_route Fixtures.parseInt Fixtures.env0 Fixtures2.db78
      "u1" 8 (Some "0")
    = FileRoutes.Json (reply 404 false "File not found" None)
  ∧ ∃ file entry,
      file ∈ db_files Fixtures2.db78 ∧ File._id file = 7%nat
      ∧ File.user file = "u1"
      ∧ entry ∈ File.files file
      ∧ File.url entry = "https://res.cloudinary.com/demo/b.pdf".
Proof.
  split; [reflexivity|]. split; [reflexivity|].
  exact (download_serves_own_files_only Fixtures.parseInt Fixtures.env0
           Fixtures2.db78 "u1" 7
           (Some "1") "https://res.cloudinary.com/demo/b.pdf" eq_refl).
Defined.

Lemma filter_idempotent {A} (p : A → bool) (l : list A) :
  List.filter p (List.filter p l) = List.filter p l.
Proof.
  induction l as [|x l IH]; simpl; [reflexivity|].
  destruct (p x) eqn:E; simpl; by rewrite ?E, IH.
Qed.

(** X14. [DELETE /:id] touches nothing but the record asked for and the
    insights that refer to it: whatever the outcome, the other records
    and the insights of other records are in the store as before, in the
    same order.  When the caller owns no record with this id, the store is
    unchanged, no storage deletion is requested and the reply is no success.
    Every storage deletion that is requested names a stored file of the
    caller's record. *)
Theorem delete_leaves_the_rest
    (env : Env) (db : DB) (user : string) (id : nat) :
  let '(resp, db', requested) := FileRoutes.delete_route env db user id in
  List.filter (λ f, negb (Nat.eqb (File._id f) id)) (db_files db')
  = List.filter (λ f, negb (Nat.eqb (File._id f) id)) (db_files db)
  ∧ List.filter (λ i, negb (Nat.eqb (AiInsight.file i) id)) (db_insights db')
    = List.filter (λ i, negb (Nat.eqb (AiInsight.file i) id)) (db_insights db)
  ∧ db_next_id db' = db_next_id db
  ∧ (find_file db id user = None →
       db' = db ∧ requested = [] ∧ success resp = false)
  ∧ (∀ c, c ∈ requested.*1 →
       ∃ file entry,
         find_file db id user = Some file
         ∧ entry ∈ File.files file ∧ File.cloudinaryId entry = c).
Proof.
  unfold FileRoutes.delete_route.
  destruct (negb (store_ok env FindFile)).
  { repeat split; try reflexivity. intros c Hc. by apply elem_of_nil in Hc. }
  destruct (find_file db id user) as [file|] eqn:Hfind.
  2:{ repeat split; try reflexivity. intros c Hc. by apply elem_of_nil in Hc. }
  assert (Hreq : ∀ c,
            c ∈ (map (λ fileData,
                        (File.cloudinaryId fileData,
                         deleteFromCloudinary env (File.cloudinaryId fileData)))
                     (File.files file)).*1 →
            ∃ file0 entry,
              Some file = Some file0
              ∧ entry ∈ File.files file0 ∧ File.cloudinaryId entry = c).
  { intros c Hc. apply list_elem_of_fmap in Hc as ([c' b] & -> & Hc).
    apply list_elem_of_fmap in Hc as (entry & [= -> ->] & Hin).
    by exists file, entry. }
  destruct (negb (store_ok env DeleteFile)); [|destruct (negb (store_ok env DeleteInsights))];
    simpl; rewrite ?filter_idempotent;
    (split; [reflexivity|]); (split; [reflexivity|]); (split; [reflexivity|]);
    (split; [discriminate|exact Hreq]).
Qed.

Lemma delete_leaves_the_rest_witness :
  find_file Fixtures2.db78 7 "u2" = None
  ∧ FileRoutes.delete_route Fixtures.env0 Fixtures2.db78 "u2" 7
    = (reply 404 false "File not found" None, Fixtures2.db78, [])
  ∧ db_files (FileRoutes.delete_route Fixtures.env0 Fixtures2.db78 "u1" 7).1.2
    = [Fixtures2.report8]
  ∧ length (db_insights
              (FileRoutes.delete_route Fixtures.env0 Fixtures2.db78 "u1" 7).1.2)
    = 1%nat.
Proof.
  split; [reflexivity|].
  pose proof (delete_leaves_the_rest Fixtures.env0 Fixtures2.db78 "u2" 7) as H.
  destruct (FileRoutes.delete_route Fixtures.env0 Fixtures2.db78 "u2" 7)
    as [[resp db'] requested] eqn:E.
  destruct H as (_ & _ & _ & Hnone & _).
  destruct (Hnone eq_refl) as (-> & -> & _).
  split; [|split; reflexivity].
  vm_compute in E. injection E as <-. reflexivity.
Defined.

Lemma multer_too_many (files : list IncomingFile) :
  ∀ n, (n < length files)%nat → ∃ e, FileRoutes.multer_array n files = FileRoutes.Aborted e.
Proof.
  induction files as [|f files IH]; intros n Hn; simpl in Hn; [lia|].
  simpl. destruct n as [|n]; [by eexists|].
  destruct (FileRoutes.fileFilter f); [by eexists|].
  destruct (Z.ltb _ _); [by eexists|].
  destruct (IH n ltac:(lia)) as [e ->]. by eexists.
Qed.

(** X15. [POST /upload] takes at most five files: a request with more
    than five file parts is refused as a whole, whatever the files are; the
    handler does not run, the reply is the error reply of the application,
    nothing is stored and no analysis is scheduled. *)
Theorem upload_of_more_than_five_files_is_refused
    (env : Env) (db : DB) (req : FileRoutes.UploadRequest) :
  (5 < length (FileRoutes.parts req))%nat →
  FileRoutes.upload_route env db req
  = {| FileRoutes.response := reply 500 false "Something went wrong!" None;
       FileRoutes.store := db;
       FileRoutes.scheduled := None |}.
Proof.
  intros H. unfold FileRoutes.upload_route.
  by destruct (multer_too_many _ 5%nat H) as [e ->].
Qed.

Lemma upload_of_more_than_five_files_is_refused_witness :
  forallb FileRoutes.within_policy Fixtures2.six_scans = true
  ∧ FileRoutes.response
      (FileRoutes.upload_route Fixtures.env0 Fixtures.db0
         (Fixtures.upload_of Fixtures2.six_scans))
    = reply 500 false "Something went wrong!" None.
Proof.
  split; [reflexivity|].
  rewrite (upload_of_more_than_five_files_is_refused Fixtures.env0 Fixtures.db0
             (Fixtures.upload_of Fixtures2.six_scans)); [reflexivity|].
  simpl. lia.
Defined.

Lemma multer_accepted (parts : list IncomingFile) :
  ∀ n files,
    FileRoutes.multer_array n parts = FileRoutes.Accepted files →
    files = parts
    ∧ Forall (λ f, FileRoutes.image_or_pdf (mimetype f) = true) files.
Proof.
  induction parts as [|f parts IH]; intros n files; simpl.
  - intros [= <-]. by split.
  - destruct n as [|n]; [discriminate|].
    unfold FileRoutes.fileFilter.
    destruct (FileRoutes.image_or_pdf (mimetype f)) eqn:E; [|discriminate].
    destruct (Z.ltb _ _); [discriminate|].
    destruct (FileRoutes.multer_array n parts) as [files'|] eqn:E';
      [|discriminate].
    intros [= <-]. destruct (IH n files' E') as [-> Hall].
    split; [reflexivity|]. by constructor.
Qed.

Lemma process_files_promises (env : Env) (reportType : string)
    (files : list IncomingFile) :
  Forall (λ f, FileRoutes.image_or_pdf (mimetype f) = true) files →
  ∀ position,
    (FileRoutes.process_files env reportType position files).2
    = map (λ entry, FileRoutes.queued_analysis env (File.url entry)
                      (File.mimeType entry) reportType)
          (FileRoutes.process_files env reportType position files).1.
Proof.
  induction 1 as [|f files Hf _ IH]; intros position; simpl; [reflexivity|].
  specialize (IH (S position)).
  destruct (FileRoutes.process_files env reportType (S position) files)
    as [stored promises].
  simpl in IH.
  destruct (uploadToCloudinary env position f) as [r|]; [|exact IH].
  rewrite Hf. simpl. by rewrite IH.
Qed.

(** X16. The analyses that [POST /upload] schedules are, in order, one for
    each stored file of the new record, each requested with the URL and
    the MIME type of that stored file and the report type of the record; a
    successful upload schedules nothing only when no file was stored. *)
Theorem upload_queues_one_analysis_per_stored_file
    (env : Env) (db : DB) (req : FileRoutes.UploadRequest) :
  let out := FileRoutes.upload_route env db req in
  (∀ record analyses,
     FileRoutes.scheduled out = Some (record, analyses) →
     db_files (FileRoutes.store out) = db_files db ++ [record]
     ∧ analyses
       = map (λ entry, FileRoutes.queued_analysis env (File.url entry)
                         (File.mimeType entry) (File.reportType record))
             (File.files record))
  ∧ (∀ record count,
       data (FileRoutes.response out) = Some (record, count) →
       FileRoutes.scheduled out = None →
       File.files record = [] ∧ count = 0%nat).
Proof.
  intros out. unfold out, FileRoutes.upload_route.
  destruct (FileRoutes.multer_array 5 (FileRoutes.parts req)) as [files|e] eqn:Hm;
    [|split; intros; discriminate].
  apply multer_accepted in Hm as [_ Hall].
  unfold FileRoutes.upload_handler.
  destruct files as [|f files]; [split; intros; discriminate|].
  destruct (negb _ || negb _); [split; intros; discriminate|].
  pose proof (process_files_promises env
                (FileRoutes.text_of (FileRoutes.body_reportType req))
                (f :: files) Hall 0%nat) as Hp.
  destruct (FileRoutes.process_files env _ 0 (f :: files))
    as [uploaded promises].
  simpl in Hp.
  destruct (File.validate _ && _); [|split; intros; discriminate].
  simpl. split.
  - intros record analyses.
    destruct promises as [|a promises]; [discriminate|].
    intros [= <- <-]. split; [reflexivity|]. exact Hp.
  - intros record count [= <- <-].
    destruct promises as [|a promises]; [|discriminate].
    intros _. destruct uploaded; [by split|discriminate].
Qed.

Lemma create_insights_more (env : Env) (user : string) (fileId : nat)
    (reportType : string) (l : list JSVal) :
  ∀ db,
    let db' := FileRoutes.create_insights env user fileId reportType l db in
    db_next_id db' = db_next_id db
    ∧ ∃ more,
        db_insights db' = db_insights db ++ more
        ∧ Forall (λ i, AiInsight.file i = fileId ∧ AiInsight.user i = user) more
        ∧ (length more ≤ length l)%nat.
Proof.
  induction l as [|a l IH]; intros db; simpl.
  - split; [reflexivity|]. exists []. by rewrite app_nil_r.
  - destruct (FileRoutes.has_summary a).
    + unfold FileRoutes.save_insight.
      destruct (insight_ok env _ && store_ok env SaveInsight).
      * match goal with
        | |- context [FileRoutes.create_insights _ _ _ _ _ ?d] =>
            destruct (IH d) as (Hn & more & Hi & Hall & Hlen)
        end.
        simpl in Hn, Hi. split; [exact Hn|].
        eexists (_ :: more). rewrite Hi, <- app_assoc. simpl.
        split; [reflexivity|]. split; [|simpl; lia].
        constructor; [|exact Hall].
        unfold AiInsight.pre_save, AiInsight.set_disclaimers.
        by repeat destruct (negb _).
      * split; [reflexivity|]. exists []. rewrite app_nil_r.
        split; [reflexivity|]. split; [constructor|simpl; lia].
    + destruct (IH db) as (Hn & more & Hi & Hall & Hlen).
      split; [exact Hn|]. exists more. repeat split; try assumption. lia.
Qed.

Lemma filter_replace_file (d : File.Doc) (coll : list File.Doc) :
  List.filter (λ f, negb (Nat.eqb (File._id f) (File._id d)))
    (FileRoutes.replace_file d coll)
  = List.filter (λ f, negb (Nat.eqb (File._id f) (File._id d))) coll.
Proof.
  unfold FileRoutes.replace_file.
  induction coll as [|f coll IH]; simpl; [reflexivity|].
  destruct (Nat.eqb (File._id f) (File._id d)) eqn:E; simpl.
  - by rewrite Nat.eqb_refl.
  - by rewrite E, IH.
Qed.

Lemma ids_replace_file (d : File.Doc) (coll : list File.Doc) :
  map File._id (FileRoutes.replace_file d coll) = map File._id coll.
Proof.
  unfold FileRoutes.replace_file.
  induction coll as [|f coll IH]; simpl; [reflexivity|].
  rewrite IH. destruct (Nat.eqb (File._id f) (File._id d)) eqn:E; [|reflexivity].
  apply Nat.eqb_eq in E. by rewrite E.
Qed.

(** X17. The continuation that stores the analyses of an upload changes
    nothing but the record of that upload and adds nothing but insights of
    it: the store holds the same records in the same order, every other
    record is as before, no insight is removed or changed, and the insights
    added, at most one for each scheduled analysis, all refer to the record
    and belong to its user. *)
Theorem completion_leaves_the_rest
    (env : Env) (fileRecord : File.Doc) (analyses : list JSVal) (db : DB) :
  let db' := FileRoutes.complete_analysis env fileRecord analyses db in
  map File._id (db_files db') = map File._id (db_files db)
  ∧ List.filter (λ f, negb (Nat.eqb (File._id f) (File._id fileRecord)))
      (db_files db')
    = List.filter (λ f, negb (Nat.eqb (File._id f) (File._id fileRecord)))
        (db_files db)
  ∧ db_next_id db' = db_next_id db
  ∧ ∃ more,
      db_insights db' = db_insights db ++ more
      ∧ Forall (λ i, AiInsight.file i = File._id fileRecord
                     ∧ AiInsight.user i = File.user fileRecord) more
      ∧ (length more ≤ length analyses)%nat.
Proof.
  intros db'. unfold db', FileRoutes.complete_analysis.
  assert (Hsame : ∀ d : DB,
            map File._id (db_files d) = map File._id (db_files d)
            ∧ List.filter (λ f, negb (Nat.eqb (File._id f) (File._id fileRecord)))
                (db_files d)
              = List.filter (λ f, negb (Nat.eqb (File._id f) (File._id fileRecord)))
                  (db_files d)
            ∧ db_next_id d = db_next_id d
            ∧ ∃ more,
                db_insights d = db_insights d ++ more
                ∧ Forall (λ i, AiInsight.file i = File._id fileRecord
                               ∧ AiInsight.user i = File.user fileRecord) more
                ∧ (length more ≤ length analyses)%nat).
  { intros d. repeat split. exists []. rewrite app_nil_r.
    repeat split; [constructor|simpl; lia]. }
  pose proof (List.filter_length_le (λ a, negb (FileRoutes.is_null a)) analyses)
    as Hvalid.
  destruct (List.filter _ analyses) as [|a valid] eqn:Ev; [apply Hsame|].
  unfold FileRoutes.save_analysis.
  destruct (snapshots_ok env _ && store_ok env SaveFile); [|apply Hsame].
  destruct (file_by_id db _); [|apply Hsame].
  match goal with
  | |- context [FileRoutes.create_insights ?e ?u ?i ?r ?l ?d] =>
      pose proof (create_insights_more e u i r l d) as Hc;
      pose proof (create_insights_files e u i r l d) as Hf
  end.
  cbv zeta in Hc. destruct Hc as (Hn & more & Hi & Hall & Hlen).
  rewrite Hf. simpl in Hn, Hi |- *.
  split; [apply (ids_replace_file (File.set_analysis fileRecord (a :: valid)))|].
  split; [apply (filter_replace_file (File.set_analysis fileRecord (a :: valid)))|].
  split; [exact Hn|].
  exists more. repeat split; try assumption. lia.
Qed.

(** ** Vitals: the BMI value, what a save leaves alone, age and trend *)

(** *** The rounding error of a double *)

(** The integer chosen by [round_half_even] is within one half of the
    quotient. *)
Lemma round_half_even_spec (n d : Z) :
  0 ≤ n → 0 < d →
  0 ≤ Vitals.round_half_even n d
  ∧ - d ≤ 2 * (Vitals.round_half_even n d * d - n) ≤ d.
Proof.
  intros Hn Hd. unfold Vitals.round_half_even.
  pose proof (Z.div_mod n d ltac:(lia)) as Hdm.
  pose proof (Z.mod_pos_bound n d Hd) as Hm.
  pose proof (Z.div_pos n d Hn Hd) as Hq.
  destruct (Z.compare_spec (2 * (n mod d)) d) as [E|E|E];
    [destruct (Z.even (n / d))|..]; split; nia.
Qed.

Lemma scaled_step (n d e : Z) :
  2 ^ 53 * Vitals.scaled_den d e ≤ Vitals.scaled_num n e →
  2 ^ 52 * Vitals.scaled_den d (e + 1) ≤ Vitals.scaled_num n (e + 1).
Proof.
  unfold Vitals.scaled_den, Vitals.scaled_num.
  destruct (Z.le_gt_cases 0 e) as [He|He].
  - rewrite (Z.max_r 0 e), (Z.max_r 0 (e + 1)), (Z.max_l 0 (- e)),
      (Z.max_l 0 (- (e + 1))) by lia.
    rewrite Z.pow_add_r by lia. change (2 ^ 53) with (2 ^ 52 * 2). lia.
  - rewrite (Z.max_l 0 e), (Z.max_l 0 (e + 1)), (Z.max_r 0 (- e)),
      (Z.max_r 0 (- (e + 1))) by lia.
    replace (- e) with (- (e + 1) + 1) at 1 by lia.
    rewrite Z.pow_add_r by lia. change (2 ^ 53) with (2 ^ 52 * 2). lia.
Qed.

(** The exponent taken from the binary logarithms leaves at least 53
    bits before the point. *)
Lemma scaled_log2 (n d : Z) :
  0 < n → 0 < d →
  let e0 := Z.log2 n - Z.log2 d - 53 in
  2 ^ 52 * Vitals.scaled_den d e0 ≤ Vitals.scaled_num n e0.
Proof.
  intros Hn Hd e0.
  destruct (Z.log2_spec n Hn) as [Hn1 _]. destruct (Z.log2_spec d Hd) as [_ Hd2].
  pose proof (Z.log2_nonneg n). pose proof (Z.log2_nonneg d).
  unfold Vitals.scaled_den, Vitals.scaled_num.
  destruct (Z.le_gt_cases 0 e0) as [He|He].
  - rewrite (Z.max_r 0 e0), (Z.max_l 0 (- e0)) by lia.
    assert (E : 2 ^ Z.log2 n = 2 ^ 52 * 2 ^ Z.succ (Z.log2 d) * 2 ^ e0).
    { rewrite <- !Z.pow_add_r by lia. f_equal. lia. }
    pose proof (Z.pow_pos_nonneg 2 e0 ltac:(lia) He).
    nia.
  - rewrite (Z.max_l 0 e0), (Z.max_r 0 (- e0)) by lia.
    assert (E : 2 ^ Z.log2 n * 2 ^ (- e0) = 2 ^ 52 * 2 ^ Z.succ (Z.log2 d)).
    { rewrite <- !Z.pow_add_r by lia. f_equal. lia. }
    pose proof (Z.pow_pos_nonneg 2 (- e0) ltac:(lia) ltac:(lia)).
    nia.
Qed.

(** The exponent of the last place: the significand has 53 bits, unless
    the number is below the normal ones. *)
Lemma ulp_exponent_spec (n d : Z) :
  0 < n → 0 < d →
  let e := Vitals.ulp_exponent n d in
  -1074 ≤ e
  ∧ (e = -1074 ∨ 2 ^ 52 * Vitals.scaled_den d e ≤ Vitals.scaled_num n e).
Proof.
  intros Hn Hd. unfold Vitals.ulp_exponent.
  pose proof (scaled_log2 n d Hn Hd) as H0. cbv zeta in H0.
  set (e0 := Z.log2 n - Z.log2 d - 53) in *.
  set (e1 := if _ <=? _ then e0 + 1 else e0).
  assert (H1 : 2 ^ 52 * Vitals.scaled_den d e1 ≤ Vitals.scaled_num n e1).
  { subst e1. destruct (Z.leb_spec (2 ^ 53 * Vitals.scaled_den d e0)
                          (Vitals.scaled_num n e0)) as [Hle|_]; [|exact H0].
    by apply scaled_step. }
  cbv zeta. split; [lia|].
  destruct (Z.le_gt_cases (-1074) e1) as [He|He].
  - right. by rewrite Z.max_l.
  - left. lia.
Qed.

Lemma Qpos_cancel (a b : Q) : (0 < a)%Q → (0 <= a * b)%Q → (0 <= b)%Q.
Proof. intros Ha Hab. nra. Qed.

(** Rounding to a double, up to [2 ^ 1000]: the result is finite and
    differs from the exact value by at most the fraction [2 ^ -53] of it,
    and by at most [2 ^ -1075] below the normal numbers. *)
Lemma double_error (q : Q) :
  (0 <= q)%Q → (q <= inject_Z (2 ^ 1000))%Q →
  ∃ x, Vitals.double q = Vitals.Fin x
       ∧ (0 <= x)%Q
       ∧ (q - (q * (1 # 2 ^ 53) + (1 # 2 ^ 1075)) <= x)%Q
       ∧ (x <= q + (q * (1 # 2 ^ 53) + (1 # 2 ^ 1075)))%Q.
Proof.
  intros Hq Hmax. destruct q as [[|n|n] d].
  - exists 0%Q. split; [reflexivity|]. split; [apply Qle_refl|].
    split; vm_compute; discriminate.
  - unfold Vitals.double, Vitals.double_pos. cbn [Qnum Qden].
    destruct (ulp_exponent_spec (Zpos n) (Zpos d) eq_refl eq_refl) as [Hmin Hnorm].
    set (e := Vitals.ulp_exponent (Z.pos n) (Z.pos d)) in *.
    unfold Vitals.scaled_num, Vitals.scaled_den in *.
    set (P := 2 ^ Z.max 0 e) in *. set (M := 2 ^ Z.max 0 (- e)) in *.
    assert (HP : 0 < P) by (apply Z.pow_pos_nonneg; lia).
    assert (HM : 0 < M) by (apply Z.pow_pos_nonneg; lia).
    destruct (round_half_even_spec (Z.pos n * M) (Z.pos d * P) ltac:(lia) ltac:(lia))
      as [Hm0 Hm].
    set (m := Vitals.round_half_even (Z.pos n * M) (Z.pos d * P)) in *.
    (* the same facts on rationals *)
    set (r := (inject_Z P / inject_Z M)%Q).
    set (y := (inject_Z (Z.pos n * M) / inject_Z (Z.pos d * P))%Q).
    assert (Hpos : ∀ z, 0 < z → (0 < inject_Z z)%Q).
    { intros z Hz. unfold Qlt. simpl. lia. }
    pose proof (Hpos P HP) as HPq. pose proof (Hpos M HM) as HMq.
    pose proof (Hpos (Z.pos d * P) ltac:(lia)) as HDq.
    assert (Hr : (0 < r)%Q).
    { unfold r. apply Qlt_shift_div_l; [exact HMq|]. by rewrite Qmult_0_l. }
    assert (Hnz : ∀ z : Q, (0 < z)%Q → ¬ (z == 0)%Q).
    { intros z Hz E. rewrite E in Hz. by apply Qlt_irrefl in Hz. }
    pose proof (Hnz _ HPq) as HPnz. pose proof (Hnz _ HMq) as HMnz.
    pose proof (Hnz _ (Hpos (Z.pos d) eq_refl)) as Hdnz.
    assert (Hqy : (Z.pos n # d == y * r)%Q).
    { unfold y, r. rewrite (Qmake_Qdiv (Z.pos n) d), !inject_Z_mult.
      field. auto. }
    assert (Hxr : (inject_Z (m * P) / inject_Z M == inject_Z m * r)%Q).
    { unfold r. rewrite inject_Z_mult. field. auto. }
    assert (Hmy : (- (1 # 2) <= inject_Z m - y)%Q ∧ (inject_Z m - y <= 1 # 2)%Q).
    { set (D := (inject_Z (Z.pos d) * inject_Z P)%Q).
      set (N := (inject_Z (Z.pos n) * inject_Z M)%Q).
      assert (HD : (0 < D)%Q) by (unfold D; rewrite <- inject_Z_mult; exact HDq).
      assert (Hy : (y * D == N)%Q).
      { unfold y, D, N. rewrite !inject_Z_mult. field. auto. }
      destruct Hm as [Hlo Hhi].
      assert (Hlo' : (- D <= 2 * (inject_Z m * D - N))%Q).
      { unfold D, N, Qminus. change 2%Q with (inject_Z 2).
        rewrite <- !inject_Z_mult, <- !inject_Z_opp, <- inject_Z_plus,
          <- inject_Z_mult, <- Zle_Qle. lia. }
      assert (Hhi' : (2 * (inject_Z m * D - N) <= D)%Q).
      { unfold D, N, Qminus. change 2%Q with (inject_Z 2).
        rewrite <- !inject_Z_mult, <- inject_Z_opp, <- inject_Z_plus,
          <- inject_Z_mult, <- Zle_Qle. lia. }
      assert (H1 : (0 <= D * (inject_Z m - y + (1 # 2)))%Q) by nra.
      assert (H2 : (0 <= D * ((1 # 2) - (inject_Z m - y)))%Q) by nra.
      apply Qpos_cancel in H1, H2; try exact HD. split; lra. }
    assert (Hh0 : (0 <= (1 # 2 ^ 53))%Q) by discriminate.
    assert (Ht0 : (0 <= (1 # 2 ^ 1075))%Q) by discriminate.
    assert (Hmq : (0 <= inject_Z m)%Q) by (unfold Qle; simpl; lia).
    assert (Hnear : (y * r - r * (1 # 2) <= inject_Z m * r)%Q
                    ∧ (inject_Z m * r <= y * r + r * (1 # 2))%Q).
    { destruct Hmy as [Hlo Hhi]. split; nra. }
    assert (Hulp : (r * (1 # 2) <= y * r * (1 # 2 ^ 53) + (1 # 2 ^ 1075))%Q).
    { destruct Hnorm as [He|Hn].
      - assert (Er : (r * (1 # 2) == (1 # 2 ^ 1075))%Q).
        { unfold r. subst P M. rewrite He. reflexivity. }
        rewrite Er. assert (0 <= y * r * (1 # 2 ^ 53))%Q; [|lra].
        rewrite <- Hqy. by apply Qmult_le_0_compat.
      - assert (Hy52 : (inject_Z (2 ^ 52) <= y)%Q).
        { rewrite Zle_Qle, !inject_Z_mult in Hn.
          assert (Hy : (y * inject_Z (Z.pos d * P)
                        == inject_Z (Z.pos n) * inject_Z M)%Q).
          { unfold y. rewrite !inject_Z_mult. field. auto. }
          rewrite inject_Z_mult in Hy, HDq.
          set (D := (inject_Z (Z.pos d) * inject_Z P)%Q) in *.
          assert (H1 : (0 <= D * (y - inject_Z (2 ^ 52)))%Q) by nra.
          apply Qpos_cancel in H1; [lra|exact HDq]. }
        assert (Hc : (inject_Z (2 ^ 52) * (1 # 2 ^ 53) == 1 # 2)%Q) by reflexivity.
        assert (H1 : (0 <= (y - inject_Z (2 ^ 52)) * (r * (1 # 2 ^ 53)))%Q).
        { apply Qmult_le_0_compat; [lra|]. apply Qmult_le_0_compat; lra. }
        set (c := inject_Z (2 ^ 52)) in *. set (h := (1 # 2 ^ 53)) in *.
        assert (H2 : ((y - c) * (r * h) == y * r * h - r * (c * h))%Q) by ring.
        rewrite H2, Hc in H1. lra. }
    assert (Hx : (m * P # Z.to_pos M == inject_Z m * r)%Q).
    { rewrite <- Hxr, (Qmake_Qdiv (m * P) (Z.to_pos M)), Z2Pos.id by exact HM.
      reflexivity. }
    destruct (Z.leb_spec (2 ^ 1024 * M) (m * P)) as [Hover|_].
    { exfalso.
      assert (Hbig : (inject_Z (2 ^ 1024) <= inject_Z m * r)%Q).
      { rewrite Zle_Qle, !inject_Z_mult in Hover.
        assert (Er : (inject_Z m * r * inject_Z M == inject_Z m * inject_Z P)%Q).
        { unfold r. field. auto. }
        assert (H1 : (0 <= inject_Z M * (inject_Z m * r - inject_Z (2 ^ 1024)))%Q)
          by nra.
        apply Qpos_cancel in H1; [lra|exact HMq]. }
      assert (Hc : (inject_Z (2 ^ 1000)
                    + (inject_Z (2 ^ 1000) * (1 # 2 ^ 53) + (1 # 2 ^ 1075))
                    < inject_Z (2 ^ 1024))%Q) by reflexivity.
      rewrite Hqy in Hmax.
      assert (H1 : (y * r * (1 # 2 ^ 53) <= inject_Z (2 ^ 1000) * (1 # 2 ^ 53))%Q)
        by (apply Qmult_le_compat_r; assumption).
      destruct Hnear as [_ Hhi]. lra. }
    exists (Qred (m * P # Z.to_pos M)). split; [reflexivity|].
    rewrite Qred_correct, Hx, Hqy. destruct Hnear as [Hlo Hhi].
    split; [by apply Qmult_le_0_compat; [|apply Qlt_le_weak]|].
    split; lra.
  - exfalso. apply (Qle_not_lt _ _ Hq). reflexivity.
Qed.

(** The same with decimal margins, up to [10 ^ 9]. *)
Lemma double_coarse (q : Q) :
  (0 <= q)%Q → (q <= 1000000000)%Q →
  ∃ x, Vitals.double q = Vitals.Fin x
       ∧ (0 <= x)%Q
       ∧ (q - (q * (1 # 1000000000000000)
               + (1 # 1000000000000000000000000000000)) <= x)%Q
       ∧ (x <= q + (q * (1 # 1000000000000000)
                    + (1 # 1000000000000000000000000000000)))%Q.
Proof.
  intros H0 H1.
  destruct (double_error q H0) as (x & Ex & Hx0 & Hlo & Hhi).
  { eapply Qle_trans; [exact H1|]. discriminate. }
  exists x. split; [exact Ex|]. split; [exact Hx0|].
  assert (Hu : ((1 # 2 ^ 53) <= (1 # 1000000000000000))%Q) by discriminate.
  assert (Ht : ((1 # 2 ^ 1075)
                <= (1 # 1000000000000000000000000000000))%Q) by discriminate.
  assert (Hq : (q * (1 # 2 ^ 53) <= q * (1 # 1000000000000000))%Q).
  { rewrite !(Qmult_comm q). by apply Qmult_le_compat_r. }
  split; lra.
Qed.

(** X18. For a weight from 0 to 1000 kg and a height from 1 to 1000 cm,
    the BMI that the pre-save hook stores is finite, is the double nearest
    to [k / 10] for an integer [k] that is not negative, and lies within
    0.05 + 0.000001 of [w / (h/100)²].  (The hook computes on doubles, so
    the margin 0.05 of a rounding to one decimal is not kept exactly: for
    80 kg and 160 cm it stores the double nearest to 31.2, which lies more
    than 0.05 below 31.25.) *)
Theorem bmi_is_rounded_to_one_decimal (w h : Q) :
  (0 <= w)%Q → (w <= 1000)%Q → (1 <= h)%Q → (h <= 1000)%Q →
  ∃ (x : Q) (k : Z),
    Vitals.bmi_value (Vitals.Fin w) (Some (Vitals.Fin h)) = Vitals.Fin x
    ∧ Vitals.double (inject_Z k / 10) = Vitals.Fin x
    ∧ 0 ≤ k
    ∧ (w / ((h / 100) * (h / 100)) - ((1 # 20) + (1 # 1000000)) <= x)%Q
    ∧ (x <= w / ((h / 100) * (h / 100)) + ((1 # 20) + (1 # 1000000)))%Q.
Proof.
  intros Hw0 Hw1 Hh0 Hh1.
  set (mu := (h / 100)%Q).
  assert (Hmu : (mu * 100 == h)%Q) by (unfold mu; field).
  destruct (double_coarse mu) as (m & Em & Hm0 & Hmlo & Hmhi); [lra|lra|].
  set (M2 := (mu * mu)%Q).
  assert (HM2 : (1 # 10000 <= M2)%Q ∧ (M2 <= 100)%Q) by (unfold M2; split; nra).
  assert (Hp : (M2 * (1 - (5 # 1000000000000000)) <= m * m)%Q
               ∧ (m * m <= M2 * (1 + (5 # 1000000000000000)))%Q).
  { unfold M2. split; nra. }
  destruct Hp as [Hplo Hphi]. destruct HM2 as [HM2lo HM2hi].
  destruct (double_coarse (m * m)) as (s & Es & Hs0 & Hslo & Hshi); [nra|lra|].
  assert (Hs : (M2 * (1 - (8 # 1000000000000000)) <= s)%Q
               ∧ (s <= M2 * (1 + (8 # 1000000000000000)))%Q) by (split; lra).
  destruct Hs as [Hs1 Hs2].
  assert (Hspos : (0 < s)%Q) by lra.
  assert (Hsnz : ¬ (s == 0)%Q) by (intros E; lra).
  assert (HM2nz : ¬ (M2 == 0)%Q) by (intros E; lra).
  set (e := (w / M2)%Q).
  assert (He : (e * M2 == w)%Q) by (unfold e; field; exact HM2nz).
  assert (He0 : (0 <= e)%Q).
  { apply (Qpos_cancel M2); [lra|]. rewrite Qmult_comm, He. exact Hw0. }
  assert (He1 : (e <= 10000000)%Q).
  { assert (H1 : (0 <= M2 * (10000000 - e))%Q) by nra.
    apply Qpos_cancel in H1; lra. }
  set (c := (w / s)%Q).
  assert (Hc : (c * s == w)%Q) by (unfold c; field; exact Hsnz).
  assert (Hc1 : (e * (1 - (9 # 1000000000000000)) <= c)%Q).
  { assert (H1 : (0 <= s * (c - e * (1 - (9 # 1000000000000000))))%Q) by nra.
    apply Qpos_cancel in H1; lra. }
  assert (Hc2 : (c <= e * (1 + (9 # 1000000000000000)))%Q).
  { assert (H1 : (0 <= s * (e * (1 + (9 # 1000000000000000)) - c))%Q) by nra.
    apply Qpos_cancel in H1; lra. }
  destruct (double_coarse c) as (b & Eb & Hb0 & Hblo & Hbhi); [lra|lra|].
  destruct (double_coarse (b * 10)) as (t & Et & Ht0 & Htlo & Hthi); [lra|lra|].
  set (k := Qfloor (t + (1 # 2))).
  pose proof (Qfloor_le (t + (1 # 2))) as Hk1.
  pose proof (Qlt_floor (t + (1 # 2))) as Hk2.
  fold k in Hk1, Hk2.
  rewrite inject_Z_plus in Hk2. change (inject_Z 1) with 1%Q in Hk2.
  assert (Hk0 : 0 ≤ k).
  { apply Z.lt_succ_r. unfold Z.succ. rewrite Zlt_Qlt.
    rewrite inject_Z_plus. change (inject_Z 0) with 0%Q.
    change (inject_Z 1) with 1%Q. lra. }
  assert (Hkq : (0 <= inject_Z k)%Q) by (unfold Qle; simpl; lia).
  set (z := (inject_Z k / 10)%Q).
  assert (Hz : (z * 10 == inject_Z k)%Q) by (unfold z; field).
  destruct (double_coarse z) as (v & Ev & Hv0 & Hvlo & Hvhi); [lra|lra|].
  exists v, k. split.
  { rewrite (bmi_value_steps w h m s b t Em Es Hsnz Eb Et). exact Ev. }
  split; [exact Ev|]. split; [exact Hk0|].
  split; lra.
Qed.

Lemma bmi_is_rounded_to_one_decimal_witness :
  Vitals.bmi_value (Vitals.Fin 80) (Some (Vitals.Fin 160))
  = Vitals.Fin (8782019273372467 # 281474976710656)
  ∧ ((8782019273372467 # 281474976710656)
     < 80 / ((160 / 100) * (160 / 100)) - (1 # 20))%Q
  ∧ ∃ (x : Q) (k : Z),
      Vitals.bmi_value (Vitals.Fin 80) (Some (Vitals.Fin 160)) = Vitals.Fin x
      ∧ Vitals.double (inject_Z k / 10) = Vitals.Fin x
      ∧ 0 ≤ k
      ∧ (80 / ((160 / 100) * (160 / 100)) - ((1 # 20) + (1 # 1000000)) <= x)%Q
      ∧ (x <= 80 / ((160 / 100) * (160 / 100)) + ((1 # 20) + (1 # 1000000)))%Q.
Proof.
  split; [vm_compute; reflexivity|]. split; [reflexivity|].
  apply (bmi_is_rounded_to_one_decimal 80 160); discriminate.
Defined.

Lemma update_first_frame (p q : Vitals.Doc → bool) (f : Vitals.Doc → Vitals.Doc)
    (coll : list Vitals.Doc) :
  (∀ d, p d = true → q d = false ∧ q (f d) = false) →
  ∀ coll',
    Vitals.update_first p f coll = Some coll' →
    List.filter q coll' = List.filter q coll ∧ length coll' = length coll.
Proof.
  intros Hp. induction coll as [|d coll IH]; intros coll'; simpl; [discriminate|].
  destruct (p d) eqn:E.
  - intros [= <-]. destruct (Hp d E) as [H1 H2]. simpl. by rewrite H1, H2.
  - destruct (Vitals.update_first p f coll) as [c|]; [|discriminate].
    intros [= <-]. destruct (IH c eq_refl) as [H1 H2].
    simpl. by rewrite H1, H2.
Qed.

(** The upsert of the hook, seen from the readings that are no BMI
    readings of the user. *)
Lemma upsert_frame (u : option string) (t : Z) (v : Vitals.Number)
    (coll : list Vitals.Doc) :
  Vitals.present u = true →
  let coll' := Vitals.findOneAndUpdate_bmi u t v coll in
  List.filter (λ d, negb (Vitals.is_bmi_of u d)) coll'
  = List.filter (λ d, negb (Vitals.is_bmi_of u d)) coll
  ∧ (length coll' = length coll ∨ length coll' = S (length coll)).
Proof.
  intros Hu. unfold Vitals.findOneAndUpdate_bmi.
  destruct (Vitals.update_first _ _ coll) as [c|] eqn:E.
  - destruct (update_first_frame (Vitals.bmi_in_window u t)
                (λ d, negb (Vitals.is_bmi_of u d))
                (Vitals.apply_bmi_update u (Some t) v) coll) with (coll' := c)
      as [H1 H2]; [|exact E|by split; [|left]].
    intros d Hd. split.
    + by rewrite (window_is_bmi u t d Hd).
    + by rewrite (proj2 (updated_in_window u t v Hu d)).
  - cbv zeta. rewrite List.filter_app, length_app. simpl.
    rewrite (proj2 (fresh_in_window u t v Hu)). simpl.
    rewrite app_nil_r. split; [reflexivity|right; lia].
Qed.

Lemma pre_save_frame (this : Vitals.Doc) (coll : list Vitals.Doc) :
  Vitals.present (Vitals.v_user this) = true →
  let before := Vitals.pre_save this coll in
  List.filter (λ d, negb (Vitals.is_bmi_of (Vitals.v_user this) d)) before
  = List.filter (λ d, negb (Vitals.is_bmi_of (Vitals.v_user this) d)) coll
  ∧ (length before = length coll ∨ length before = S (length coll)).
Proof.
  intros Hu. unfold Vitals.pre_save.
  destruct (Vitals.type_is this "weight"); [|by split; [|left]].
  destruct (Vitals.latest _ coll None); [|by split; [|left]].
  destruct (Vitals.v_recordedAt this); [|by split; [|left]].
  destruct (Vitals.truthy_number _); [|by split; [|left]].
  by apply upsert_frame.
Qed.

(** X19. [save()] of a new reading changes no stored reading other than
    BMI readings of the same user: the reading is appended, the readings
    that are not BMI readings of the user are kept as they are and in their
    order, and at most one reading is added besides the new one.  Nothing
    else is written when the new reading is no weight, when the user has no
    active height reading, or when the weight is zero or missing. *)
Theorem save_leaves_other_readings
    (this : Vitals.Doc) (coll coll' : list Vitals.Doc) :
  Vitals.save this coll = Some coll' →
  let u := Vitals.v_user this in
  ∃ before,
    coll' = before ++ [this]
    ∧ List.filter (λ d, negb (Vitals.is_bmi_of u d)) before
      = List.filter (λ d, negb (Vitals.is_bmi_of u d)) coll
    ∧ (length before = length coll ∨ length before = S (length coll))
    ∧ (Vitals.type_is this "weight" = false → before = coll)
    ∧ (Vitals.latest (Vitals.is_active_height u) coll None = None →
       before = coll)
    ∧ (Vitals.truthy_number (Vitals.v_numeric this) = false → before = coll).
Proof.
  intros Hsave u. unfold Vitals.save in Hsave.
  destruct (Vitals.validate this) eqn:Hvalid; [|discriminate].
  injection Hsave as <-. exists (Vitals.pre_save this coll).
  destruct (pre_save_frame this coll (validate_user this Hvalid)) as [H1 H2].
  split; [reflexivity|]. split; [exact H1|]. split; [exact H2|].
  unfold Vitals.pre_save. fold u.
  repeat split.
  - by intros ->.
  - intros ->. by destruct (Vitals.type_is this "weight").
  - intros ->. destruct (Vitals.type_is this "weight"); [|reflexivity].
    by destruct (Vitals.latest _ _ _), (Vitals.v_recordedAt this).
Qed.

Lemma save_leaves_other_readings_witness :
  ∃ coll' before,
    Vitals.save (Fixtures.reading "weight" "kg" 70 0) [Fixtures.height175]
    = Some coll'
    ∧ coll' = before ++ [Fixtures.reading "weight" "kg" 70 0]
    ∧ List.filter (λ d, negb (Vitals.is_bmi_of (Some "u1") d)) before
      = [Fixtures.height175].
Proof.
  pose proof (save_leaves_other_readings
                (Fixtures.reading "weight" "kg" 70 0) [Fixtures.height175]) as H.
  destruct (Vitals.save (Fixtures.reading "weight" "kg" 70 0) [Fixtures.height175])
    as [coll'|] eqn:E; [|vm_compute in E; discriminate E].
  destruct (H coll' eq_refl) as (before & Hc & Hf & _).
  exists coll', before.
  split; [reflexivity|]. split; [exact Hc|exact Hf].
Defined.

(** X20. The [age] virtual of a reading with a recording time: up to 23
    hours of distance between the clock and the recording time (in either
    direction) it reads "n hours ago" with n the distance in hours rounded
    up, from 0 to 23; beyond 23 hours it reads "n days ago" with n the
    distance in days rounded up, at least 1.  It never reads "24 hours
    ago" and never "0 days ago". *)
Theorem age_counts_hours_up_to_23
    (Number_toString : Vitals.Number → string) (now recordedAt : Z)
    (d : Vitals.Doc) :
  Vitals.v_recordedAt d = Some recordedAt →
  let elapsed := Z.abs (now - recordedAt) in
  (elapsed ≤ 23 * VitalsMethods.hour_ms →
     ∃ n, 0 ≤ n ≤ 23
          ∧ (n - 1) * VitalsMethods.hour_ms < elapsed ≤ n * VitalsMethods.hour_ms
          ∧ VitalsMethods.age Number_toString now d
            = String.append (Number_toString (Vitals.Fin (inject_Z n)))
                " hours ago")
  ∧ (23 * VitalsMethods.hour_ms < elapsed →
     ∃ n, 1 ≤ n
          ∧ (n - 1) * Vitals.day_ms < elapsed ≤ n * Vitals.day_ms
          ∧ VitalsMethods.age Number_toString now d
            = String.append (Number_toString (Vitals.Fin (inject_Z n)))
                " days ago").
Proof.
  intros Hr elapsed. unfold VitalsMethods.age. rewrite Hr. cbv zeta.
  fold elapsed.
  pose proof (ceil_div_spec elapsed VitalsMethods.hour_ms eq_refl) as Hh.
  pose proof (ceil_div_spec elapsed Vitals.day_ms eq_refl) as Hd.
  assert (H0 : 0 ≤ elapsed) by apply Z.abs_nonneg.
  unfold VitalsMethods.hour_ms, Vitals.day_ms in *.
  split; intros Hcase.
  - exists (Auth.ceil_div elapsed (1000 * 60 * 60)).
    destruct (Z.ltb_spec (Auth.ceil_div elapsed (1000 * 60 * 60)) 24); [|lia].
    repeat split; lia.
  - exists (Auth.ceil_div elapsed (24 * 60 * 60 * 1000)).
    destruct (Z.ltb_spec (Auth.ceil_div elapsed (1000 * 60 * 60)) 24); [lia|].
    repeat split; lia.
Qed.

Lemma age_counts_hours_up_to_23_witness :
  VitalsMethods.age Fixtures.print_number (80 * 24 * Fixtures.hour)
    Fixtures2.steps_day1
  = "80 days ago"
  ∧ ∃ n, 1 ≤ n
      ∧ VitalsMethods.age Fixtures.print_number (80 * 24 * Fixtures.hour)
          Fixtures2.steps_day1
        = String.append
            (Fixtures.print_number (Vitals.Fin (inject_Z n))) " days ago".
Proof.
  split; [reflexivity|].
  destruct (age_counts_hours_up_to_23 Fixtures.print_number
              (80 * 24 * Fixtures.hour) 0 Fixtures2.steps_day1 eq_refl)
    as [_ Hdays].
  destruct Hdays as (n & Hn & _ & Hage); [reflexivity|].
  exists n. split; [exact Hn|exact Hage].
Defined.

Lemma latest_none (p : Vitals.Doc → bool) (coll : list Vitals.Doc) :
  (∀ d, d ∈ coll → p d = false) →
  ∀ best, Vitals.latest p coll best = best.
Proof.
  induction coll as [|d coll IH]; intros Hall best; simpl; [reflexivity|].
  rewrite (Hall d) by apply list_elem_of_here.
  apply IH. intros x Hx. apply Hall. by apply list_elem_of_further.
Qed.

Lemma greater_finite (a b : Q) :
  VitalsMethods.greater (Some (Vitals.Fin a)) (Some (Vitals.Fin b)) = true
  ↔ (b < a)%Q.
Proof.
  unfold VitalsMethods.greater. simpl. rewrite negb_true_iff.
  split.
  - intros H. apply Qnot_le_lt. intros Hle. apply Qle_bool_iff in Hle. congruence.
  - intros H. apply not_true_is_false. intros Hle. apply Qle_bool_iff in Hle.
    by apply (Qlt_not_le _ _ H).
Qed.

(** X21. [getTrend()] compares a reading with one other reading only: the
    latest of the readings of the same user and type that were recorded
    before it.  The answer is "no_data" exactly when there is no such
    reading; with finite values other than zero on both sides it is
    "increasing", "decreasing" or "stable" as the value is above, below
    or equal to that of the earlier reading. *)
Theorem getTrend_compares_with_the_latest_earlier_reading
    (this : Vitals.Doc) (coll : list Vitals.Doc) :
  (VitalsMethods.getTrend this coll = "no_data"
   ↔ ∀ d, d ∈ coll → VitalsMethods.earlier_reading this d = false)
  ∧ ∀ previous a b,
      Vitals.latest (VitalsMethods.earlier_reading this) coll None = Some previous →
      Vitals.v_numeric this = Some (Vitals.Fin a) →
      Vitals.v_numeric previous = Some (Vitals.Fin b) →
      ¬ (a == 0)%Q → ¬ (b == 0)%Q →
      VitalsMethods.earlier_reading this previous = true
      ∧ (∀ d, d ∈ coll → VitalsMethods.earlier_reading this d = true →
              Vitals.later d previous = false)
      ∧ ((b < a)%Q → VitalsMethods.getTrend this coll = "increasing")
      ∧ ((a < b)%Q → VitalsMethods.getTrend this coll = "decreasing")
      ∧ ((a == b)%Q → VitalsMethods.getTrend this coll = "stable").
Proof.
  split.
  - unfold VitalsMethods.getTrend. split.
    + intros H d Hd. apply not_true_is_false. intros Hp.
      destruct (latest_found (VitalsMethods.earlier_reading this) coll None) as [h Hh].
      { right. apply Exists_exists. by exists d. }
      rewrite Hh in H. by repeat destruct (VitalsMethods.greater _ _).
    + intros H. by rewrite (latest_none _ _ H).
  - intros previous a b Hlatest Ha Hb Hna Hnb.
    split; [apply (latest_satisfies _ coll None previous); [discriminate|exact Hlatest]|].
    split; [apply (latest_is_most_recent _ coll None previous Hlatest)|].
    unfold VitalsMethods.getTrend. rewrite Hlatest.
    assert (Hv : ∀ (doc : Vitals.Doc) q,
              Vitals.v_numeric doc = Some (Vitals.Fin q) → ¬ (q == 0)%Q →
              VitalsMethods.reading_value doc = Some (Vitals.Fin q)).
    { intros doc q Hq Hnz. unfold VitalsMethods.reading_value. rewrite Hq. simpl.
      destruct (Qeq_bool q 0) eqn:E; [|reflexivity].
      by apply Qeq_bool_eq in E. }
    rewrite (Hv this a Ha Hna), (Hv previous b Hb Hnb).
    repeat split; intros Hcmp.
    + by rewrite (proj2 (greater_finite a b) Hcmp).
    + destruct (VitalsMethods.greater (Some (Vitals.Fin a)) _) eqn:E.
      * apply greater_finite in E. exfalso.
        exact (Qlt_irrefl a (Qlt_trans _ _ _ Hcmp E)).
      * by rewrite (proj2 (greater_finite b a) Hcmp).
    + destruct (VitalsMethods.greater (Some (Vitals.Fin a)) _) eqn:E.
      * apply greater_finite in E. rewrite Hcmp in E. by apply Qlt_irrefl in E.
      * destruct (VitalsMethods.greater (Some (Vitals.Fin b)) _) eqn:E'; [|reflexivity].
        apply greater_finite in E'. rewrite Hcmp in E'. by apply Qlt_irrefl in E'.
Qed.

Lemma getTrend_compares_with_the_latest_earlier_reading_witness :
  Vitals.latest (VitalsMethods.earlier_reading Fixtures2.steps_day3)
    [Fixtures2.steps_day1; Fixtures2.steps_day3] None
  = Some Fixtures2.steps_day1
  ∧ VitalsMethods.getTrend Fixtures2.steps_day3
      [Fixtures2.steps_day1; Fixtures2.steps_day3] = "increasing".
Proof.
  split; [reflexivity|].
  destruct (getTrend_compares_with_the_latest_earlier_reading Fixtures2.steps_day3
              [Fixtures2.steps_day1; Fixtures2.steps_day3]) as [_ H].
  destruct (H Fixtures2.steps_day1 9000%Q 8000%Q eq_refl eq_refl eq_refl)
    as (_ & _ & Hup & _); [discriminate|discriminate|].
  apply Hup. reflexivity.
Defined.

Lemma greater_undefined (v : option Vitals.Number) :
  VitalsMethods.greater None v = false ∧ VitalsMethods.greater v None = false.
Proof.
  unfold VitalsMethods.greater. simpl.
  split; [reflexivity|]. by destruct (Vitals.to_number v) as [q|[]|].
Qed.

(** X22. [getTrend()] takes a value of zero for a missing one: a reading
    whose numeric value is zero (and that has no systolic value) is never
    reported as increasing or decreasing, whatever was recorded before it,
    and neither is any reading that follows such a reading. *)
Theorem getTrend_reports_no_change_from_or_to_zero
    (this : Vitals.Doc) (coll : list Vitals.Doc) (zero : Q) :
  (zero == 0)%Q →
  (Vitals.v_numeric this = Some (Vitals.Fin zero) →
   Vitals.v_systolic this = None →
   VitalsMethods.getTrend this coll = "no_data"
   ∨ VitalsMethods.getTrend this coll = "stable")
  ∧ (∀ previous,
       Vitals.latest (VitalsMethods.earlier_reading this) coll None = Some previous →
       Vitals.v_numeric previous = Some (Vitals.Fin zero) →
       Vitals.v_systolic previous = None →
       VitalsMethods.getTrend this coll = "stable").
Proof.
  intros Hz.
  assert (Hv : ∀ doc : Vitals.Doc,
            Vitals.v_numeric doc = Some (Vitals.Fin zero) →
            Vitals.v_systolic doc = None →
            VitalsMethods.reading_value doc = None).
  { intros doc Hn Hs. unfold VitalsMethods.reading_value. rewrite Hn, Hs. simpl.
    by rewrite (proj2 (Qeq_bool_iff zero 0) Hz). }
  unfold VitalsMethods.getTrend. split.
  - intros Hn Hs.
    destruct (Vitals.latest _ coll None) as [previous|]; [right|by left].
    rewrite (Hv this Hn Hs).
    destruct (greater_undefined (VitalsMethods.reading_value previous)) as [H1 H2].
    by rewrite H1, H2.
  - intros previous -> Hn Hs. rewrite (Hv previous Hn Hs).
    destruct (greater_undefined (VitalsMethods.reading_value this)) as [H1 H2].
    by rewrite H1, H2.
Qed.

Lemma getTrend_reports_no_change_from_or_to_zero_witness :
  VitalsMethods.getTrend Fixtures2.steps_day2
    [Fixtures2.steps_day1; Fixtures2.steps_day2] = "stable"
  ∧ VitalsMethods.getTrend Fixtures2.steps_day3
      [Fixtures2.steps_day1; Fixtures2.steps_day2; Fixtures2.steps_day3]
    = "stable".
Proof.
  split; [reflexivity|].
  destruct (getTrend_reports_no_change_from_or_to_zero Fixtures2.steps_day3
              [Fixtures2.steps_day1; Fixtures2.steps_day2; Fixtures2.steps_day3]
              0%Q) as [_ H]; [reflexivity|].
  exact (H Fixtures2.steps_day2 eq_refl eq_refl eq_refl).
Defined.

(** ** The vitals routes: trends and update *)

(** X23. [GET /api/vitals/stats/trends] answers no request with success:
    without a [type] it answers 400; with one it calls the static
    [getVitalsHistory], which is none of the statics the model defines
    ([getVitalsByType], [getLatestVitals], [getVitalsStats]), so the call
    throws and the reply is the 500 error reply. *)
Theorem vitals_trends_never_succeeds
    (call_static : string → list Vitals.Doc) (type : option string) :
  let resp := VitalsStore.trends call_static type in
  success resp = false
  ∧ data resp = None
  ∧ (FileRoutes.given type = false →
     resp = reply 400 false "Type parameter is required" None)
  ∧ (FileRoutes.given type = true →
     resp = reply 500 false "Failed to fetch vitals trends" None).
Proof.
  unfold VitalsStore.trends.
  destruct (FileRoutes.given type); simpl; repeat split; try done.
Qed.

Lemma index_of_app (id : nat) (l more : list nat) (i : nat) :
  VitalsStore.index_of id l = Some i →
  VitalsStore.index_of id (l ++ more) = Some i.
Proof.
  revert i. induction l as [|x l IH]; intros i; simpl; [discriminate|].
  destruct (Nat.eqb x id); [done|].
  destruct (VitalsStore.index_of id l) as [j|]; [|discriminate].
  intros [= <-]. by rewrite (IH j eq_refl).
Qed.

Lemma pre_save_length (this : Vitals.Doc) (coll : list Vitals.Doc) :
  (length coll ≤ length (Vitals.pre_save this coll))%nat.
Proof.
  unfold Vitals.pre_save.
  destruct (Vitals.type_is this "weight"); [|lia].
  destruct (Vitals.latest _ coll None); [|lia].
  destruct (Vitals.v_recordedAt this) as [t|]; [|lia].
  destruct (Vitals.truthy_number _); [|lia].
  unfold Vitals.findOneAndUpdate_bmi.
  destruct (Vitals.update_first _ _ coll) as [c|] eqn:E.
  - pose proof (update_first_frame _ (λ _, false) _ coll
                  (λ _ _, conj eq_refl eq_refl) c E) as [_ H]. lia.
  - rewrite length_app. simpl. lia.
Qed.

Lemma assign_keeps (to_Date : JSVal → option Z)
    (cast_String : JSVal → option string) (vitals : Vitals.Doc) (body : JSVal) :
  let vitals' := (VitalsStore.assign to_Date cast_String vitals body).1 in
  VitalsStore.measurement vitals' = VitalsStore.measurement vitals
  ∧ Vitals.v_user vitals' = Vitals.v_user vitals
  ∧ Vitals.v_source vitals' = Vitals.v_source vitals
  ∧ Vitals.v_isActive vitals' = Vitals.v_isActive vitals.
Proof.
  unfold VitalsStore.assign.
  destruct (truthy (get body "recordedAt")); by destruct (get body "notes").
Qed.

(** X24. [PUT /api/vitals/:id] cannot change what a reading measures.  For
    every request body, the stored reading with that id has the same type,
    values (numeric, text, systolic, diastolic), unit, source and owner
    after the request as before it, and a reply that shows a reading is a
    success reply showing these same fields: of the fields the handler reads
    from the body, only [recordedAt] and [notes] are paths of the schema. *)
Theorem vitals_update_keeps_the_measurement
    (to_Date : JSVal → option Z) (cast_String : JSVal → option string)
    (accepts : Vitals.Doc → bool)
    (user : string) (id : nat) (body : JSVal) (s : VitalsStore.Store)
    (i : nat) (d : Vitals.Doc) :
  VitalsStore.findOne s id user = Some (i, d) →
  let '(resp, s') :=
    VitalsStore.update to_Date cast_String accepts user id body s in
  (∃ d', VitalsStore.findOne s' id user = Some (i, d')
         ∧ VitalsStore.measurement d' = VitalsStore.measurement d
         ∧ Vitals.v_source d' = Vitals.v_source d)
  ∧ (∀ shown, data resp = Some shown →
       resp = reply 200 true "Vitals updated successfully" (Some shown)
       ∧ VitalsStore.measurement shown = VitalsStore.measurement d).
Proof.
  intros Hfind. unfold VitalsStore.update. rewrite Hfind.
  assert (Hsame : (∃ d', VitalsStore.findOne s id user = Some (i, d')
                         ∧ VitalsStore.measurement d' = VitalsStore.measurement d
                         ∧ Vitals.v_source d' = Vitals.v_source d)
                  ∧ (∀ shown : Vitals.Doc, None = Some shown →
                       reply 500 false "Failed to update vitals" None
                       = reply 200 true "Vitals updated successfully" (Some shown)
                       ∧ VitalsStore.measurement shown = VitalsStore.measurement d)).
  { split; [by exists d|discriminate]. }
  pose proof (assign_keeps to_Date cast_String d body) as Hkeep.
  cbv zeta in Hkeep.
  destruct body; try exact Hsame;
    (destruct (VitalsStore.assign to_Date cast_String d _) as [vitals' casts];
     simpl in Hkeep; destruct Hkeep as (Hm & Hu & Hs & _);
     destruct (casts && accepts vitals'); [|exact Hsame];
     (split; [|by intros shown [= <-]]);
     exists vitals'; split; [|by split];
     unfold VitalsStore.findOne in Hfind |- *;
     destruct (VitalsStore.index_of id (VitalsStore.ids s)) as [j|] eqn:Hi;
       [|discriminate];
     destruct (VitalsStore.docs s !! j) as [d0|] eqn:Hd; [|discriminate];
     destruct (Vitals.same_user (Some user) d0) eqn:Hown; [|discriminate];
     injection Hfind as -> ->;
     assert (Hi' : VitalsStore.index_of id
                     (VitalsStore.ids (VitalsStore.save_at s i vitals')) = Some i)
       by (unfold VitalsStore.save_at; simpl;
           destruct (Nat.ltb _ _); [by apply index_of_app|exact Hi]);
     rewrite Hi'; unfold VitalsStore.save_at; simpl;
     rewrite list_lookup_insert_eq
       by (apply lookup_lt_Some in Hd;
           pose proof (pre_save_length vitals' (VitalsStore.docs s)); lia);
     unfold Vitals.same_user in Hown |- *; rewrite Hu; by rewrite Hown).
Qed.

Lemma vitals_update_keeps_the_measurement_witness :
  VitalsStore.findOne Fixtures2.vitals_store 12 "u1"
  = Some (1%nat, Fixtures.reading "weight" "kg" 70 0)
  ∧ (let '(resp, s') :=
       VitalsStore.update Fixtures.any_date Fixtures.string_cast (λ _, true)
         "u1" 12 Fixtures2.body_new_weight Fixtures2.vitals_store in
     status resp = 200
     ∧ ∃ d', VitalsStore.findOne s' 12 "u1" = Some (1%nat, d')
             ∧ Vitals.v_numeric d' = Some (Vitals.Fin 70)
             ∧ Vitals.v_notes d' = Some "after breakfast").
Proof.
  split; [reflexivity|].
  pose proof (vitals_update_keeps_the_measurement Fixtures.any_date
                Fixtures.string_cast (λ _, true) "u1" 12
                Fixtures2.body_new_weight Fixtures2.vitals_store 1
                (Fixtures.reading "weight" "kg" 70 0) eq_refl) as H.
  destruct (VitalsStore.update Fixtures.any_date Fixtures.string_cast (λ _, true)
              "u1" 12 Fixtures2.body_new_weight Fixtures2.vitals_store)
    as [resp s'] eqn:E.
  destruct H as [(d' & Hfind & Hm & _) _].
  vm_compute in E. injection E as <- <-.
  split; [reflexivity|].
  exists d'. split; [exact Hfind|].
  split; [by injection Hm|].
  vm_compute in Hfind. by injection Hfind as <-.
Defined.

(** ** The latest reading of each type *)

Lemma latest_member (p : Vitals.Doc → bool) (coll : list Vitals.Doc) :
  ∀ best h,
    Vitals.latest p coll best = Some h → h ∈ coll ∨ best = Some h.
Proof.
  induction coll as [|d coll IH]; intros best h; simpl; [by right|].
  destruct (p d).
  - destruct best as [b|]; intros H; apply IH in H as [H|H].
    + left. by apply list_elem_of_further.
    + injection H as <-. destruct (Vitals.later d b).
      * left. apply list_elem_of_here.
      * by right.
    + left. by apply list_elem_of_further.
    + injection H as <-. left. apply list_elem_of_here.
  - intros H. apply IH in H as [H|H]; [left|by right].
    by apply list_elem_of_further.
Qed.

Lemma newest_first_transitive : Transitive VitalsMethods.newest_first.
Proof.
  intros a b c. unfold VitalsMethods.newest_first, Vitals.later.
  destruct (Vitals.v_recordedAt a), (Vitals.v_recordedAt b),
    (Vitals.v_recordedAt c); try done.
  rewrite !Z.ltb_ge. lia.
Qed.

Lemma newest_first_total : Total VitalsMethods.newest_first.
Proof.
  intros a b. unfold VitalsMethods.newest_first, Vitals.later.
  destruct (Vitals.v_recordedAt a), (Vitals.v_recordedAt b); auto.
  rewrite !Z.ltb_ge. lia.
Qed.

Lemma types_of_groups (u : option string) (coll : list Vitals.Doc)
    (types : list (option string)) :
  NoDup types →
  NoDup (map Vitals.v_type
           (omap (λ type, Vitals.latest (VitalsMethods.in_group u type) coll None)
              types))
  ∧ ∀ t, t ∈ map Vitals.v_type
               (omap (λ type, Vitals.latest (VitalsMethods.in_group u type) coll None)
                  types) →
         t ∈ types.
Proof.
  induction 1 as [|k types Hk Hnd [IH1 IH2]]; simpl.
  - split; [constructor|]. intros t Ht. by apply elem_of_nil in Ht.
  - destruct (Vitals.latest (VitalsMethods.in_group u k) coll None) as [h|] eqn:E.
    + assert (Hh : Vitals.v_type h = k).
      { apply latest_satisfies in E; [|discriminate].
        unfold VitalsMethods.in_group in E. apply andb_prop in E as [_ E].
        by apply bool_decide_eq_true in E. }
      simpl. rewrite Hh. split.
      * constructor; [|exact IH1]. intros Hin. apply Hk. by apply IH2.
      * intros t Ht. apply elem_of_cons in Ht as [->|Ht];
          [apply list_elem_of_here|]. apply list_elem_of_further. by apply IH2.
    + split; [exact IH1|]. intros t Ht. apply list_elem_of_further. by apply IH2.
Qed.

(** X25. The static [getLatestVitals] (behind [GET /api/vitals/latest] and
    the dashboard) returns exactly one reading for each type of which the
    user has an active reading: an active reading of the user from the
    collection, than which no active reading of the user of the same type
    is later; the readings are returned newest first. *)
Theorem getLatestVitals_gives_the_latest_of_each_type
    (u : option string) (coll : list Vitals.Doc) :
  let result := VitalsMethods.getLatestVitals u coll in
  (∀ d, d ∈ result →
     d ∈ coll
     ∧ Vitals.same_user u d = true ∧ Vitals.v_isActive d = true
     ∧ ∀ d', d' ∈ coll →
             Vitals.same_user u d' = true → Vitals.v_isActive d' = true →
             Vitals.v_type d' = Vitals.v_type d →
             Vitals.later d' d = false)
  ∧ (∀ d', d' ∈ coll →
       Vitals.same_user u d' = true → Vitals.v_isActive d' = true →
       ∃ d, d ∈ result ∧ Vitals.v_type d = Vitals.v_type d')
  ∧ NoDup (map Vitals.v_type result)
  ∧ StronglySorted VitalsMethods.newest_first result.
Proof.
  intros result. unfold result, VitalsMethods.getLatestVitals.
  set (types := remove_dups _).
  set (groups := omap _ types).
  pose proof (merge_sort_Permutation VitalsMethods.newest_first groups) as Hperm.
  assert (Hgroup : ∀ d, d ∈ groups ↔
            ∃ k, k ∈ types
                 ∧ Vitals.latest (VitalsMethods.in_group u k) coll None = Some d).
  { intros d. apply list_elem_of_omap. }
  split; [|split; [|split]].
  - intros d Hd. rewrite Hperm in Hd. apply Hgroup in Hd as (k & _ & Hk).
    pose proof (latest_satisfies _ coll None d ltac:(discriminate) Hk) as Hp.
    unfold VitalsMethods.in_group, VitalsMethods.active_of in Hp.
    apply andb_prop in Hp as [Hp Ht]. apply andb_prop in Hp as [Hu Ha].
    apply bool_decide_eq_true in Ht.
    split.
    { by destruct (latest_member _ coll None d Hk) as [H|H]. }
    split; [exact Hu|]. split; [exact Ha|].
    intros d' Hin Hu' Ha' Hty.
    apply (proj2 (latest_is_most_recent _ coll None d Hk) d' Hin).
    unfold VitalsMethods.in_group, VitalsMethods.active_of.
    rewrite Hu', Ha'. simpl. apply bool_decide_eq_true. congruence.
  - intros d' Hin Hu Ha.
    assert (Hk : Vitals.v_type d' ∈ types).
    { unfold types. apply elem_of_remove_dups, list_elem_of_fmap.
      exists d'. split; [reflexivity|].
      apply list_elem_of_In, List.filter_In. split; [by apply list_elem_of_In|].
      unfold VitalsMethods.active_of. by rewrite Hu, Ha. }
    destruct (latest_found (VitalsMethods.in_group u (Vitals.v_type d')) coll None)
      as [d Hd].
    { right. apply Exists_exists. exists d'. split; [exact Hin|].
      unfold VitalsMethods.in_group, VitalsMethods.active_of.
      rewrite Hu, Ha. simpl. by apply bool_decide_eq_true. }
    exists d. split.
    + rewrite Hperm. apply Hgroup. by exists (Vitals.v_type d').
    + apply latest_satisfies in Hd; [|discriminate].
      unfold VitalsMethods.in_group in Hd. apply andb_prop in Hd as [_ Hd].
      by apply bool_decide_eq_true in Hd.
  - rewrite Hperm.
    apply (types_of_groups u coll types). apply NoDup_remove_dups.
  - apply StronglySorted_merge_sort.
    + apply newest_first_transitive.
    + apply newest_first_total.
Qed.

Lemma getLatestVitals_gives_the_latest_of_each_type_witness :
  VitalsMethods.getLatestVitals (Some "u1") Fixtures2.mixed_readings
  = [Fixtures2.pressure_at 130 85 (24 * Fixtures.hour) true; Fixtures2.steps_day1]
  ∧ NoDup (map Vitals.v_type
             (VitalsMethods.getLatestVitals (Some "u1") Fixtures2.mixed_readings)).
Proof.
  split; [by vm_compute|].
  exact (proj1 (proj2 (proj2
           (getLatestVitals_gives_the_latest_of_each_type (Some "u1")
              Fixtures2.mixed_readings)))).
Defined.

(** ** Readings as the schema and the hook leave them *)

(** X26. A reading that passes the validation of the schema always has a
    value to show: its [formattedValue] is the two pressure values and the
    unit, or the numeric value and the unit, or, for a subjective scale
    recorded without a number, its text, which is not empty.  The "N/A" of
    the virtual is out of reach of a validated reading. *)
Theorem valid_reading_has_a_formatted_value
    (Number_toString : Vitals.Number → string) (d : Vitals.Doc) :
  Vitals.validate d = true →
  (Vitals.type_is d "blood_pressure" = true
   ∧ ∃ systolic diastolic unit,
       Vitals.v_systolic d = Some systolic
       ∧ Vitals.v_diastolic d = Some diastolic
       ∧ Vitals.v_unit d = Some unit
       ∧ Vitals.formattedValue Number_toString d
         = String.append (Number_toString systolic)
             (String.append "/"
                (String.append (Number_toString diastolic)
                   (String.append " " unit))))
  ∨ (Vitals.type_is d "blood_pressure" = false
     ∧ ∃ numeric unit,
         Vitals.v_numeric d = Some numeric
         ∧ Vitals.v_unit d = Some unit
         ∧ Vitals.formattedValue Number_toString d
           = String.append (Number_toString numeric) (String.append " " unit))
  ∨ (Vitals.type_is d "blood_pressure" = false
     ∧ Vitals.v_numeric d = None
     ∧ Vitals.text_required d = true
     ∧ ∃ text,
         Vitals.v_text d = Some text ∧ text ≠ EmptyString
         ∧ Vitals.formattedValue Number_toString d = text).
Proof.
  unfold Vitals.validate. intros H.
  repeat (apply andb_prop in H as [H ?]).
  unfold Vitals.formattedValue, Vitals.pressure_required, Vitals.numeric_required in *.
  destruct (Vitals.v_unit d) as [unit|] eqn:Hunit; [|discriminate].
  destruct (Vitals.type_is d "blood_pressure") eqn:Hbp.
  - left. split; [reflexivity|].
    destruct (Vitals.v_systolic d) as [s|]; [|discriminate].
    destruct (Vitals.v_diastolic d) as [di|]; [|discriminate].
    by exists s, di, unit.
  - right. destruct (Vitals.v_numeric d) as [n|] eqn:Hn.
    + left. split; [reflexivity|]. by exists n, unit.
    + right. split; [reflexivity|]. split; [reflexivity|].
      destruct (Vitals.text_required d); [|discriminate].
      split; [reflexivity|].
      destruct (Vitals.v_text d) as [text|]; [|discriminate].
      exists text. simpl in *.
      destruct (String.eqb text EmptyString) eqn:E; [discriminate|].
      repeat split. intros ->. discriminate.
Qed.

Lemma valid_reading_has_a_formatted_value_witness :
  Vitals.validate (Fixtures.reading "weight" "kg" 80 0) = true
  ∧ Vitals.formattedValue Fixtures.print_number (Fixtures.reading "weight" "kg" 80 0)
    = "80 kg".
Proof.
  split; [reflexivity|].
  destruct (valid_reading_has_a_formatted_value Fixtures.print_number
              (Fixtures.reading "weight" "kg" 80 0) eq_refl)
    as [[Hbp _]|[(_ & n & unit & Hn & Hu & ->)|(_ & Hn & _)]].
  - discriminate Hbp.
  - injection Hn as <-. injection Hu as <-. reflexivity.
  - discriminate Hn.
Defined.

Lemma unit_of_hook_rejected (d : Vitals.Doc) :
  Vitals.v_unit d = Some "kg/m²" → Vitals.validate d = false.
Proof.
  intros Hunit. apply not_true_is_false. unfold Vitals.validate. intros H.
  repeat (apply andb_prop in H as [H ?]).
  match goal with
  | E : Vitals.enum_ok (Vitals.v_unit d) Vitals.unit_enum = true |- _ =>
      rewrite Hunit in E; vm_compute in E; discriminate E
  end.
Qed.

(** X27. The BMI reading that the pre-save hook writes is one that the
    schema itself rejects: its unit, kg/m², is not among the units of the
    schema.  So after a valid weight reading is saved for a user with an
    active height reading, the collection holds a BMI reading of the user
    that would not pass [validate] (the upsert runs no validators). *)
Theorem hook_writes_a_reading_the_schema_rejects
    (this h : Vitals.Doc) (coll : list Vitals.Doc) (t : Z) :
  Vitals.validate this = true →
  Vitals.type_is this "weight" = true →
  Vitals.v_recordedAt this = Some t →
  Vitals.truthy_number (Vitals.v_numeric this) = true →
  Vitals.latest (Vitals.is_active_height (Vitals.v_user this)) coll None = Some h →
  Vitals.enum_ok (Some "kg/m²") Vitals.unit_enum = false
  ∧ ∃ coll' d,
      Vitals.save this coll = Some coll'
      ∧ d ∈ coll'
      ∧ Vitals.is_bmi_of (Vitals.v_user this) d = true
      ∧ Vitals.v_recordedAt d = Some t
      ∧ Vitals.v_unit d = Some "kg/m²"
      ∧ Vitals.validate d = false.
Proof.
  intros Hvalid Hweight Htime Hvalue Hheight.
  split; [reflexivity|].
  pose proof (validate_user this Hvalid) as Huser.
  set (value := Vitals.bmi_value (Vitals.to_number (Vitals.v_numeric this))
                  (Vitals.v_numeric h)).
  pose proof (upsert_counts (Vitals.v_user this) t value Huser coll)
    as (_ & _ & d & Hd & Hb & Hdt & _ & Hdu & _).
  exists (Vitals.findOneAndUpdate_bmi (Vitals.v_user this) t value coll ++ [this]), d.
  split.
  { unfold Vitals.save, Vitals.pre_save.
    by rewrite Hvalid, Hweight, Hheight, Htime, Hvalue. }
  split; [apply elem_of_app; by left|].
  split; [exact Hb|]. split; [exact Hdt|]. split; [exact Hdu|].
  by apply unit_of_hook_rejected.
Qed.

Lemma hook_writes_a_reading_the_schema_rejects_witness :
  Vitals.validate (Fixtures.reading "weight" "kg" 70 0) = true
  ∧ ∃ coll' d,
      Vitals.save (Fixtures.reading "weight" "kg" 70 0) [Fixtures.height175]
      = Some coll'
      ∧ d ∈ coll' ∧ Vitals.validate d = false.
Proof.
  split; [reflexivity|].
  destruct (hook_writes_a_reading_the_schema_rejects
              (Fixtures.reading "weight" "kg" 70 0) Fixtures.height175
              [Fixtures.height175] 0 eq_refl eq_refl eq_refl eq_refl eq_refl)
    as (_ & coll' & d & Hsave & Hd & _ & _ & _ & Hinvalid).
  exists coll', d. split; [exact Hsave|]. split; [exact Hd|exact Hinvalid].
Defined.

(** ** The insight hook, and files after upload and delete *)

(** X28. The pre-save hook of the insight schema is idempotent: for every
    reading of a disclaimer block under which a block that is set reads
    truthy, running the hook on its own result changes nothing. *)
Theorem insight_hook_is_idempotent
    (reads : JSVal → bool) (d : AiInsight.Doc) :
  (∀ v, truthy v = true → reads v = true) →
  AiInsight.pre_save reads (AiInsight.pre_save reads d)
  = AiInsight.pre_save reads d.
Proof.
  intros Hreads.
  assert (Hdefault1 : reads GeminiService.aiDisclaimer_default = true)
    by (by apply Hreads).
  assert (Hdefault2 : reads GeminiService.medicalDisclaimer_default = true)
    by (by apply Hreads).
  apply pre_save_id; unfold AiInsight.pre_save; cbv zeta;
    destruct (reads (get (AiInsight.disclaimers d) "aiDisclaimer")) eqn:E1;
    cbn [negb AiInsight.disclaimers AiInsight.set_disclaimers];
    rewrite ?get_set_field_ne, ?get_spread by discriminate;
    destruct (reads (get (AiInsight.disclaimers d) "medicalDisclaimer")) eqn:E2;
    cbn [negb AiInsight.disclaimers AiInsight.set_disclaimers];
    rewrite ?get_set_field_eq;
    rewrite ?get_set_field_ne, ?get_spread by discriminate;
    rewrite ?get_set_field_eq;
    rewrite ?get_set_field_ne, ?get_spread by discriminate;
    assumption.
Qed.

Lemma insight_hook_is_idempotent_witness :
  AiInsight.pre_save truthy
    (AiInsight.pre_save truthy
       (FileRoutes.new_insight "u1" 7 "Blood Test"
          Fixtures.analysis_blank_disclaimers))
  = AiInsight.pre_save truthy
      (FileRoutes.new_insight "u1" 7 "Blood Test"
         Fixtures.analysis_blank_disclaimers).
Proof.
  apply (insight_hook_is_idempotent truthy). intros v Hv. exact Hv.
Defined.

Lemma find_file_absent (db : DB) (id : nat) (user : string) :
  Forall (λ f, File._id f ≠ id) (db_files db) → find_file db id user = None.
Proof.
  unfold find_file. induction 1 as [|f l Hf _ IH]; simpl; [reflexivity|].
  apply Nat.eqb_neq in Hf. by rewrite Hf.
Qed.

Lemma filter_out_id (id : nat) (coll : list File.Doc) :
  Forall (λ f, File._id f ≠ id)
    (List.filter (λ f, negb (Nat.eqb (File._id f) id)) coll).
Proof.
  apply Forall_forall. intros f Hf.
  apply list_elem_of_In, List.filter_In in Hf as [_ Hf].
  apply negb_true_iff in Hf. by apply Nat.eqb_neq.
Qed.

(** X29. A record that was deleted can no longer be downloaded: after
    [DELETE /:id] has answered with success, [GET /:id/download] for the
    same id is answered 404 "File not found", for every caller and every
    index. *)
Theorem deleted_file_cannot_be_downloaded
    (parseInt : string → option Z) (env : Env) (db : DB)
    (user caller : string) (id : nat) (index : option string) :
  let '(resp, db', _) := FileRoutes.delete_route env db user id in
  success resp = true →
  FileRoutes.download_route parseInt env db' caller id index
  = FileRoutes.Json (reply 404 false "File not found" None).
Proof.
  unfold FileRoutes.delete_route.
  destruct (store_ok env FindFile) eqn:Hstore; simpl; [|discriminate].
  destruct (find_file db id user); [|discriminate].
  destruct (negb (store_ok env DeleteFile)); [discriminate|].
  destruct (negb (store_ok env DeleteInsights)); [discriminate|].
  intros _. unfold FileRoutes.download_route. rewrite Hstore. simpl.
  rewrite find_file_absent; [reflexivity|]. simpl. apply filter_out_id.
Qed.

Lemma deleted_file_cannot_be_downloaded_witness :
  FileRoutes.download_route Fixtures.parseInt Fixtures.env0 Fixtures2.db78
    "u1" 7 None
  = FileRoutes.Redirect "https://res.cloudinary.com/demo/a.pdf"
  ∧ FileRoutes.download_route Fixtures.parseInt Fixtures.env0
      (FileRoutes.delete_route Fixtures.env0 Fixtures2.db78 "u1" 7).1.2 "u1" 7 None
    = FileRoutes.Json (reply 404 false "File not found" None).
Proof.
  split; [reflexivity|].
  pose proof (deleted_file_cannot_be_downloaded Fixtures.parseInt
                Fixtures.env0 Fixtures2.db78
                "u1" "u1" 7 None) as H.
  destruct (FileRoutes.delete_route Fixtures.env0 Fixtures2.db78 "u1" 7)
    as [[resp db'] requested] eqn:E.
  simpl. apply H. vm_compute in E. by injection E as <- _ _.
Defined.

Lemma find_file_appended (db : DB) (record : File.Doc) :
  Forall (λ f, File._id f ≠ File._id record) (db_files db) →
  List.find (λ f, Nat.eqb (File._id f) (File._id record)
                  && String.eqb (File.user f) (File.user record))
    (db_files db ++ [record])
  = Some record.
Proof.
  induction 1 as [|f l Hf _ IH]; simpl.
  - by rewrite Nat.eqb_refl, String.eqb_refl.
  - apply Nat.eqb_neq in Hf. by rewrite Hf.
Qed.

(** X30. What was uploaded can be downloaded: after [POST /upload] has
    answered with a record, in a store whose records have other ids than
    the new one, [GET /:id/download] by the uploader for the id of the
    record redirects to the URL of its first stored file when no index is
    given, and to the URL of the stored file at the index for an index that
    [parseInt] reads as a position of [files]; what the analyses do
    afterwards does not change this. *)
Theorem uploaded_file_can_be_downloaded
    (parseInt : string → option Z) (env : Env) (db : DB)
    (req : FileRoutes.UploadRequest) (record : File.Doc) (count : nat) :
  store_ok env FindFile = true →
  Forall (λ f, File._id f ≠ db_next_id db) (db_files db) →
  data (FileRoutes.response (FileRoutes.upload_route env db req))
  = Some (record, count) →
  let out := FileRoutes.upload_route env db req in
  let download :=
    FileRoutes.download_route parseInt env (FileRoutes.store out)
      (FileRoutes.req_user req) (File._id record) in
  (∀ entry, File.files record !! 0%nat = Some entry →
     download None = FileRoutes.Redirect (File.url entry))
  ∧ (∀ s n entry,
       parseInt s = Some n → 0 ≤ n →
       File.files record !! Z.to_nat n = Some entry →
       download (Some s) = FileRoutes.Redirect (File.url entry))
  ∧ (∀ s n entry,
       parseInt s = Some n → 0 ≤ n →
       File.files record !! Z.to_nat n = Some entry →
       FileRoutes.download_route parseInt env (FileRoutes.settle env out)
         (FileRoutes.req_user req) (File._id record) (Some s)
       = FileRoutes.Redirect (File.url entry)).
Proof.
  intros Hstore Hfresh Hdata out download.
  assert (Hrec : File._id record = db_next_id db
                 ∧ File.user record = FileRoutes.req_user req
                 ∧ db_files (FileRoutes.store out) = db_files db ++ [record]
                 ∧ (∀ fileRecord analyses,
                      FileRoutes.scheduled out = Some (fileRecord, analyses) →
                      fileRecord = record)).
  { unfold out. unfold FileRoutes.upload_route in Hdata |- *.
    destruct (FileRoutes.multer_array 5 (FileRoutes.parts req)) as [accepted|e];
      [|discriminate].
    unfold FileRoutes.upload_handler in Hdata |- *.
    destruct accepted as [|f files]; [discriminate|].
    destruct (negb _ || negb _); [discriminate|].
    destruct (FileRoutes.process_files _ _ _ _) as [uploaded promises].
    destruct (File.validate _ && _); [|discriminate].
    simpl in Hdata |- *. injection Hdata as <- <-.
    repeat split. intros fileRecord analyses.
    destruct promises; [discriminate|]. by intros [= <- _]. }
  destruct Hrec as (Hid & Huser & Hfiles & Hsched).
  assert (Hfind : ∀ db' : DB,
            (∃ x, List.find (λ f, Nat.eqb (File._id f) (File._id record)
                                  && String.eqb (File.user f) (File.user record))
                    (db_files db') = Some x
                  ∧ File.files x = File.files record) →
            ∀ s n entry,
              FileRoutes.fileIndex_of parseInt s = n → 0 ≤ n →
              File.files record !! Z.to_nat n = Some entry →
              FileRoutes.download_route parseInt env db' (FileRoutes.req_user req)
                (File._id record) s
              = FileRoutes.Redirect (File.url entry)).
  { intros db' (x & Hx & Hxf) s n entry Hs Hn Hentry.
    unfold FileRoutes.download_route, find_file.
    rewrite Hstore, <- Huser, Hx, Hs, Hxf. simpl.
    pose proof (lookup_lt_Some _ _ _ Hentry) as Hlt.
    destruct (Z.leb_spec (Z.of_nat (length (File.files record))) n); [lia|].
    destruct (Z.ltb_spec n 0); [lia|]. by rewrite Hentry. }
  assert (Hnew : ∃ x, List.find (λ f, Nat.eqb (File._id f) (File._id record)
                                      && String.eqb (File.user f) (File.user record))
                        (db_files (FileRoutes.store out)) = Some x
                      ∧ File.files x = File.files record).
  { exists record. split; [|reflexivity].
    rewrite Hfiles. apply find_file_appended. by rewrite Hid. }
  split; [|split].
  - intros entry Hentry. unfold download.
    by apply (Hfind _ Hnew None 0 entry).
  - intros s n entry Hs Hn Hentry. unfold download.
    apply (Hfind _ Hnew (Some s) n entry); [|exact Hn|exact Hentry].
    unfold FileRoutes.fileIndex_of. by rewrite Hs.
  - intros s n entry Hs Hn Hentry.
    apply (Hfind _) with (n := n); [|by unfold FileRoutes.fileIndex_of; rewrite Hs
                                    |exact Hn|exact Hentry].
    unfold FileRoutes.settle.
    destruct (FileRoutes.scheduled out) as [[fileRecord analyses]|] eqn:Hs';
      [|exact Hnew].
    rewrite (Hsched _ _ eq_refl).
    unfold FileRoutes.complete_analysis.
    destruct (List.filter _ analyses) as [|a valid]; [exact Hnew|].
    unfold FileRoutes.save_analysis.
    destruct (snapshots_ok env _ && store_ok env SaveFile); [|exact Hnew].
    destruct (file_by_id _ _); [|exact Hnew].
    rewrite create_insights_files. simpl.
    exists (File.set_analysis record (a :: valid)). split; [|reflexivity].
    rewrite Hfiles. unfold FileRoutes.replace_file. rewrite map_app. simpl.
    rewrite Nat.eqb_refl.
    assert (Hmap : ∀ l, Forall (λ f, File._id f ≠ File._id record) l →
              List.find (λ f, Nat.eqb (File._id f) (File._id record)
                              && String.eqb (File.user f) (File.user record))
                (map (λ f, if Nat.eqb (File._id f) (File._id record)
                           then File.set_analysis record (a :: valid) else f) l
                 ++ [File.set_analysis record (a :: valid)])
              = Some (File.set_analysis record (a :: valid))).
    { induction 1 as [|f l Hf _ IH]; simpl.
      - by rewrite Nat.eqb_refl, String.eqb_refl.
      - apply Nat.eqb_neq in Hf. rewrite Hf. simpl. by rewrite Hf. }
    apply Hmap. by rewrite Hid.
Qed.

Lemma uploaded_file_can_be_downloaded_witness :
  data (FileRoutes.response
          (FileRoutes.upload_route Fixtures.env0 Fixtures.db0
             (Fixtures.upload_of [Fixtures.pdf; Fixtures.scan])))
  = Some (FileRoutes.new_file_record Fixtures.env0 Fixtures.db0
            (Fixtures.upload_of [Fixtures.pdf; Fixtures.scan])
            (FileRoutes.process_files Fixtures.env0 "Blood Test" 0
               [Fixtures.pdf; Fixtures.scan]).1, 2%nat)
  ∧ FileRoutes.download_route Fixtures.parseInt Fixtures.env0
      (FileRoutes.settle Fixtures.env0
         (FileRoutes.upload_route Fixtures.env0 Fixtures.db0
            (Fixtures.upload_of [Fixtures.pdf; Fixtures.scan])))
      "u1" 0 (Some "1")
    = FileRoutes.Redirect "https://res.cloudinary.com/demo/scan.png".
Proof.
  split; [reflexivity|].
  refine (proj2 (proj2 (uploaded_file_can_be_downloaded Fixtures.parseInt Fixtures.env0
            Fixtures.db0
            (Fixtures.upload_of [Fixtures.pdf; Fixtures.scan])
            (FileRoutes.new_file_record Fixtures.env0 Fixtures.db0
               (Fixtures.upload_of [Fixtures.pdf; Fixtures.scan])
               (FileRoutes.process_files Fixtures.env0 "Blood Test" 0
                  [Fixtures.pdf; Fixtures.scan]).1)
            2 eq_refl _ eq_refl)) "1" 1 _ eq_refl _ eq_refl).
  - constructor.
  - lia.
Defined.

